(** * Galv backend: access levels, tenancy, list filters, activation tokens,
      harvester keys and schema validation

    A shallow embedding of [galv/models/models.py] and [galv/permissions.py].
    Django model instances are records, database tables are finite maps from
    primary keys to rows, Python exceptions are an inductive type, and the
    two sources of non-determinism the code consults (the wall clock and the
    random generators) are explicit oracles indexed by the number of reads
    made so far.

    Part I holds the model, Part II the properties proved about it. *)

From Stdlib Require Import ZArith List String Ascii Bool Lia DecimalString.
From stdpp Require Import gmap.
Import ListNotations.

(* ===================================================================== *)
(** * Part I — the model                                                  *)
(* ===================================================================== *)

(** ** Python exceptions *)

Inductive exn : Type :=
| ValueError (msg : string)
| RuntimeError (msg : string)
| RecursionError
| ReError
| UnsupportedTimeseriesDataTypeError
| OtherException (msg : string).

(** A call of a pure function either returns or raises. *)
Inductive result (A : Type) : Type :=
| Returns (a : A)
| Raises (e : exn).
Arguments Returns {A} a.
Arguments Raises {A} e.

(** ** Access tiers *)

(** Modelled from the spec: the enumeration [UserLevel] lives in
    [galv/models/choices.py], which is not among the sources.  The spec
    (§3) gives its five members and their order,
    ANONYMOUS < REGISTERED_USER < LAB_MEMBER < TEAM_MEMBER < TEAM_ADMIN;
    [value] numbers them upwards from 0. *)
Inductive UserLevel : Type :=
| ANONYMOUS
| REGISTERED_USER
| LAB_MEMBER
| TEAM_MEMBER
| TEAM_ADMIN.

Definition value (l : UserLevel) : Z :=
  match l with
  | ANONYMOUS => 0
  | REGISTERED_USER => 1
  | LAB_MEMBER => 2
  | TEAM_MEMBER => 3
  | TEAM_ADMIN => 4
  end%Z.

(** ** Labs, teams, groups and users *)

(** A [Lab] is identified by its primary key; Django compares model
    instances by primary key. *)
Record Lab : Type := { lab_pk : nat }.

Record Team : Type := {
  team_pk : nat;
  team_lab : Lab            (* lab = ForeignKey(Lab, null=False) *)
}.

(** A group with its three reverse one-to-one accessors.  [hasattr(g, 'x')]
    is [False] exactly when no related object exists, hence the options. *)
Record GroupProxy : Type := {
  group_pk : nat;
  editable_lab : option Lab;      (* Lab.admin_group,   related_name='editable_lab'  *)
  editable_team : option Team;    (* Team.admin_group,  related_name='editable_team' *)
  readable_team : option Team     (* Team.member_group, related_name='readable_team' *)
}.

(** [request.user]: a stored user or [AnonymousUser] (whose [groups] manager
    is empty and whose flags are all false). *)
Record User : Type := {
  is_authenticated : bool;
  is_staff : bool;
  is_superuser : bool;
  groups : list GroupProxy        (* user.groups.all() *)
}.

Record Request : Type := { user : User }.

(** [==] on model instances, and [x in xs] on Python lists of them. *)
Definition lab_eqb (a b : Lab) : bool := Nat.eqb (lab_pk a) (lab_pk b).
Definition team_eqb (a b : Team) : bool := Nat.eqb (team_pk a) (team_pk b).
Definition group_eqb (a b : GroupProxy) : bool := Nat.eqb (group_pk a) (group_pk b).

Definition lab_in (l : Lab) (ls : list Lab) : bool := existsb (lab_eqb l) ls.
Definition team_in (t : Team) (ts : list Team) : bool := existsb (team_eqb t) ts.
Definition group_in (g : GroupProxy) (gs : list GroupProxy) : bool :=
  existsb (group_eqb g) gs.

Definition attr_list {A : Type} (o : option A) : list A :=
  match o with Some a => [a] | None => [] end.

(** [user_teams(user, editable=False)] *)
Definition user_teams (u : User) (editable : bool) : list Team :=
  flat_map
    (fun g =>
       attr_list (editable_team g)
       ++ (if negb editable then attr_list (readable_team g) else []))
    (groups u).

(** The second loop of [user_labs]: append each team's lab unless present. *)
Definition append_team_lab (labs : list Lab) (t : Team) : list Lab :=
  if negb (lab_in (team_lab t) labs) then labs ++ [team_lab t] else labs.

(** [user_labs(user, editable=False)] *)
Definition user_labs (u : User) (editable : bool) : list Lab :=
  let labs := flat_map (fun g => attr_list (editable_lab g)) (groups u) in
  if editable then labs
  else fold_left append_team_lab (user_teams u false) labs.

Definition user_is_active (u : User) : bool :=
  Nat.ltb 0 (length (user_labs u false)).

Definition user_is_lab_admin (u : User) : bool :=
  Nat.ltb 0 (length (user_labs u true)).

Module Lab.

Definition has_object_read_permission (self : Lab) (request : Request) : bool :=
  is_staff (user request) || is_superuser (user request)
  || lab_in self (user_labs (user request) false).

Definition has_object_write_permission (self : Lab) (request : Request) : bool :=
  is_staff (user request) || is_superuser (user request)
  || lab_in self (user_labs (user request) true).

End Lab.

Module Team.

Definition has_object_read_permission (self : Team) (request : Request) : bool :=
  lab_in (team_lab self) (user_labs (user request) true)
  || team_in self (user_teams (user request) false).

Definition has_object_write_permission (self : Team) (request : Request) : bool :=
  lab_in (team_lab self) (user_labs (user request) true)
  || team_in self (user_teams (user request) true).

End Team.

Module GroupProxy.

(** What [get_owner] returns when it is not [None]. *)
Inductive owner : Type :=
| OwnerLab (l : Lab)
| OwnerTeam (t : Team).

Definition get_owner (self : GroupProxy) : option owner :=
  match editable_lab self with
  | Some l => Some (OwnerLab l)
  | None =>
      match editable_team self with
      | Some t => Some (OwnerTeam t)
      | None =>
          match readable_team self with
          | Some t => Some (OwnerTeam t)
          | None => None
          end
      end
  end.

Definition owner_has_object_write_permission (o : owner) (request : Request) : bool :=
  match o with
  | OwnerLab l => Lab.has_object_write_permission l request
  | OwnerTeam t => Team.has_object_write_permission t request
  end.

Definition owner_has_object_read_permission (o : owner) (request : Request) : bool :=
  match o with
  | OwnerLab l => Lab.has_object_read_permission l request
  | OwnerTeam t => Team.has_object_read_permission t request
  end.

Definition has_object_write_permission (self : GroupProxy) (request : Request) : bool :=
  match get_owner self with
  | Some o => owner_has_object_write_permission o request
  | None => false
  end.

Definition has_object_read_permission (self : GroupProxy) (request : Request) : bool :=
  match get_owner self with
  | Some o =>
      owner_has_object_read_permission o request
      || group_in self (groups (user request))
  | None => group_in self (groups (user request))
  end.

End GroupProxy.

(** ** Resources: [ResourceModelPermissionsMixin] *)

Module ResourceModelPermissionsMixin.

(** The fields the mixin adds to a model; the three levels are
    [IntegerField]s, so any integer can be assigned before [save]. *)
Record t : Type := {
  pk : nat;
  team : option Team;             (* ForeignKey(Team, null=True) *)
  delete_access_level : Z;
  edit_access_level : Z;
  read_access_level : Z
}.

Definition set_read_access_level (v : Z) (self : t) : t :=
  {| pk := pk self; team := team self;
     delete_access_level := delete_access_level self;
     edit_access_level := edit_access_level self;
     read_access_level := v |}.

Definition set_edit_access_level (v : Z) (self : t) : t :=
  {| pk := pk self; team := team self;
     delete_access_level := delete_access_level self;
     edit_access_level := v;
     read_access_level := read_access_level self |}.

(** The two assignments [save] makes before it calls [super().save]. *)
Definition clamp_access_levels (self : t) : t :=
  let self1 :=
    if (read_access_level self >? edit_access_level self)%Z
    then set_read_access_level (edit_access_level self) self
    else self in
  if (edit_access_level self1 >? delete_access_level self1)%Z
  then set_edit_access_level (delete_access_level self1) self1
  else self1.

(** [save]: clamp, then write the row under its primary key.  It returns the
    mutated instance and the table; there is no path on which it raises. *)
Definition save (self : t) (table : gmap nat t) : t * gmap nat t :=
  let self' := clamp_access_levels self in
  (self', <[pk self' := self']> table).

(** "Read <= Edit <= Delete", the docstring of [save]. *)
Definition levels_valid (self : t) : Prop :=
  (read_access_level self <= edit_access_level self
   /\ edit_access_level self <= delete_access_level self)%Z.

Definition get_user_level (self : t) (u : User) : Z :=
  let otherwise :=
    if is_authenticated u then value REGISTERED_USER else value ANONYMOUS in
  match team self with
  | Some tm =>
      if team_in tm (user_teams u true) then value TEAM_ADMIN
      else if team_in tm (user_teams u false) then value TEAM_MEMBER
      else if lab_in (team_lab tm) (user_labs u false) then value LAB_MEMBER
      else otherwise
  | None => otherwise
  end.

Definition has_object_read_permission (self : t) (request : Request) : bool :=
  (get_user_level self (user request) >=? read_access_level self)%Z.

Definition has_object_write_permission (self : t) (request : Request) : bool :=
  (get_user_level self (user request) >=? edit_access_level self)%Z.

Definition has_object_destroy_permission (self : t) (request : Request) : bool :=
  (get_user_level self (user request) >=? delete_access_level self)%Z.

End ResourceModelPermissionsMixin.

(** ** List filters: [galv/permissions.py] *)

(** The [Q] objects that [ResourceFilterBackend] builds, and what each lookup
    selects on a stored row. *)
Inductive Q : Type :=
| Q_team__in (teams : list Team)
| Q_team__lab__in (labs : list Lab)
| Q_read_access_level (v : Z)
| Q_pk__isnull (b : bool)
| Q_or (a b : Q)
| Q_and (a b : Q).

Module QuerySet.

Import ResourceModelPermissionsMixin.

(** Row-wise meaning of a [Q]: the WHERE clause Django compiles it to.  A
    NULL [team] satisfies neither [team__in] nor [team__lab__in] (the join
    is a LEFT OUTER JOIN under [|]); a stored row never has a NULL primary
    key, so [pk__isnull=b] holds exactly when [b] is [False]. *)
Fixpoint holds (q : Q) (row : t) : bool :=
  match q with
  | Q_team__in teams =>
      match team row with Some tm => team_in tm teams | None => false end
  | Q_team__lab__in labs =>
      match team row with Some tm => lab_in (team_lab tm) labs | None => false end
  | Q_read_access_level v => (read_access_level row =? v)%Z
  | Q_pk__isnull b => negb b
  | Q_or a b => holds a row || holds b row
  | Q_and a b => holds a row && holds b row
  end.

(** [queryset.filter(q)] on a queryset given as the list of its rows. *)
Definition filter (q : Q) (queryset : list t) : list t :=
  List.filter (holds q) queryset.

End QuerySet.

Module ResourceFilterBackend.

Definition filter_list_queryset
    (request : Request) (queryset : list ResourceModelPermissionsMixin.t)
  : list ResourceModelPermissionsMixin.t :=
  let labs := user_labs (user request) false in
  let user_approved := Nat.ltb 0 (length labs) in
  QuerySet.filter
    (Q_or
       (Q_or
          (Q_or
             (Q_team__in (user_teams (user request) false))
             (Q_and (Q_read_access_level (value LAB_MEMBER)) (Q_team__lab__in labs)))
          (Q_and (Q_read_access_level (value REGISTERED_USER))
                 (Q_pk__isnull (negb user_approved))))
       (Q_read_access_level (value ANONYMOUS)))
    queryset.

End ResourceFilterBackend.

(** The membership notions the permission rules are phrased in. *)

(** [u] is in a group that is the admin or the member group of a team with
    [tm]'s primary key. *)
Definition on_team (u : User) (tm : Team) : Prop :=
  exists g t', In g (groups u)
    /\ (editable_team g = Some t' \/ readable_team g = Some t')
    /\ team_pk t' = team_pk tm.

(** [u] is in the admin group of a lab with [l]'s primary key, or on a team
    of such a lab. *)
Definition in_lab (u : User) (l : Lab) : Prop :=
  (exists g l', In g (groups u) /\ editable_lab g = Some l' /\ lab_pk l' = lab_pk l)
  \/ (exists g t', In g (groups u)
        /\ (editable_team g = Some t' \/ readable_team g = Some t')
        /\ lab_pk (team_lab t') = lab_pk l).

Definition in_some_lab (u : User) : Prop := exists l, in_lab u l.

Definition member_of_group (u : User) (g : GroupProxy) : Prop :=
  exists g', In g' (groups u) /\ group_pk g' = group_pk g.

(** The rule of the generic resource listing, as the specification words it. *)
Definition listed_for (u : User) (row : ResourceModelPermissionsMixin.t) : Prop :=
  (exists tm, ResourceModelPermissionsMixin.team row = Some tm /\ on_team u tm)
  \/ (ResourceModelPermissionsMixin.read_access_level row = value LAB_MEMBER
      /\ exists tm, ResourceModelPermissionsMixin.team row = Some tm
                    /\ in_lab u (team_lab tm))
  \/ (ResourceModelPermissionsMixin.read_access_level row = value REGISTERED_USER
      /\ in_some_lab u)
  \/ ResourceModelPermissionsMixin.read_access_level row = value ANONYMOUS.

(** ** Monitored paths *)

Module MonitoredPath.

Section PathsMatch.

(** The two standard-library calls [paths_match] makes.  [relpath child
    parent] is [os.path.relpath(child, parent)], [None] when it raises
    [ValueError]; [re_search regex s] is [re.search(regex, s) is not None],
    [None] when the pattern does not compile ([re.error]). *)
Variable relpath : string -> string -> option string.
Variable re_search : string -> string -> option bool.

(** [child.startswith(parent)] *)
Definition startswith (child parent : string) : bool := String.prefix parent child.

Definition paths_match (parent child : string) (regex : option string) : result bool :=
  if negb (startswith child parent) then Returns false
  else
    match regex with
    | Some r =>
        match relpath child parent with
        | None => Raises (ValueError "no path specified"%string)
        | Some rel =>
            match re_search r rel with
            | None => Raises ReError
            | Some found => Returns found
            end
        end
    | None => Returns true
    end.

End PathsMatch.

End MonitoredPath.

(** "[child] is prefixed by [parent]": [child] is [parent] followed by some
    string. *)
Definition is_prefixed_by (child parent : string) : Prop :=
  exists rest, child = String.append parent rest.

(** ** The two library calls of [paths_match], on the inputs the examples use *)

(** [posixpath.relpath], following CPython's [posixpath.py].  [cwd] is the
    process's working directory ([os.getcwd()], an absolute path), which
    [abspath] prepends to a relative path. *)
Module PosixPath.

(** [s.split('/')], with [cur] the component read so far. *)
Fixpoint split_from (cur s : string) : list string :=
  match s with
  | EmptyString => [cur]
  | String c s' =>
      if Ascii.eqb c "/"%char then cur :: split_from EmptyString s'
      else split_from (String.append cur (String c EmptyString)) s'
  end.

Definition split (s : string) : list string := split_from EmptyString s.

Definition isabs (s : string) : bool := String.prefix "/"%string s.

Definition pop {A : Type} (l : list A) : list A := removelast l.

(** The loop of [normpath] on an absolute path: empty and [.] components are
    skipped, [..] pops the last component kept (and is dropped at the root). *)
Definition normpath_step (new_comps : list string) (comp : string) : list string :=
  if String.eqb comp EmptyString || String.eqb comp "."%string then new_comps
  else if String.eqb comp ".."%string then pop new_comps
  else new_comps ++ [comp].

(** [[x for x in abspath(p).split(sep) if x]] *)
Definition abspath_components (cwd p : string) : list string :=
  let joined := if isabs p then p else String.append cwd (String.append "/" p) in
  fold_left normpath_step (split joined) [].

(** [len(commonprefix([a, b]))] on two lists of components. *)
Fixpoint commonprefix_length (a b : list string) : nat :=
  match a, b with
  | x :: a', y :: b' => if String.eqb x y then S (commonprefix_length a' b') else 0
  | _, _ => 0
  end.

Definition relpath (cwd : string) (path start : string) : option string :=
  if String.eqb path EmptyString then None                (* ValueError("no path specified") *)
  else
    let start_list := abspath_components cwd start in
    let path_list := abspath_components cwd path in
    let i := commonprefix_length start_list path_list in
    let rel_list := repeat ".."%string (length start_list - i) ++ skipn i path_list in
    match rel_list with
    | [] => Some "."%string
    | _ => Some (String.concat "/"%string rel_list)
    end.

End PosixPath.

(** [re.search(pattern, s) is not None] on ASCII text, for patterns built
    from literal characters, [.], a backslash before a punctuation
    character, a postfix [*] on one of these, [^] and [$].  Any other
    pattern has no model here ([None]), whether [re] accepts it or rejects
    it, and text outside ASCII is not covered: the model serves the example
    pattern of [paths_match] and stands for nothing beyond it. *)
Module PyRe.

Inductive atom : Type :=
| Lit (c : ascii)
| AnyChar.                (* [.]: any character but a newline *)

Inductive item : Type :=
| One (a : atom)
| Star (a : atom)
| Bol                     (* [^] *)
| Eol.                    (* [$] *)

Definition newline : ascii := ascii_of_nat 10.

Definition is_alnum (c : ascii) : bool :=
  let n := nat_of_ascii c in
  (Nat.leb 48 n && Nat.leb n 57) || (Nat.leb 65 n && Nat.leb n 90)
  || (Nat.leb 97 n && Nat.leb n 122) || Nat.leb 128 n.

(** The characters, besides the five handled below, that are not literals. *)
Definition is_other_special (c : ascii) : bool :=
  existsb (Ascii.eqb c) (list_ascii_of_string "+?{}[]|()"%string).

Fixpoint compile_from (acc_rev : list item) (p : list ascii) : option (list item) :=
  match p with
  | [] => Some (rev acc_rev)
  | c :: rest =>
      if Ascii.eqb c "*"%char then
        match acc_rev with
        | One a :: acc' => compile_from (Star a :: acc') rest
        | _ => None
        end
      else if Ascii.eqb c "\"%char then
        match rest with
        | e :: rest' =>
            if is_alnum e then None
            else compile_from (One (Lit e) :: acc_rev) rest'
        | [] => None
        end
      else if Ascii.eqb c "."%char then compile_from (One AnyChar :: acc_rev) rest
      else if Ascii.eqb c "^"%char then compile_from (Bol :: acc_rev) rest
      else if Ascii.eqb c "$"%char then compile_from (Eol :: acc_rev) rest
      else if is_other_special c then None
      else compile_from (One (Lit c) :: acc_rev) rest
  end.

Definition compile (pattern : string) : option (list item) :=
  compile_from [] (list_ascii_of_string pattern).

Definition atom_matches (a : atom) (c : ascii) : bool :=
  match a with
  | Lit x => Ascii.eqb x c
  | AnyChar => negb (Ascii.eqb c newline)
  end.

(** [$] matches at the end and just before a final newline. *)
Definition at_end (text : list ascii) : bool :=
  match text with
  | [] => true
  | [c] => Ascii.eqb c newline
  | _ => false
  end.

(** [a*] followed by the continuation [k]: any number of [a]s. *)
Fixpoint match_star (k : bool -> list ascii -> bool) (a : atom)
    (at_start : bool) (text : list ascii) {struct text} : bool :=
  k at_start text
  || match text with
     | c :: t => atom_matches a c && match_star k a false t
     | [] => false
     end.

(** Does a match of [items] begin at the head of [text]?  [at_start] tells
    whether that head is the start of the searched string. *)
Fixpoint match_here (items : list item) (at_start : bool) (text : list ascii)
    {struct items} : bool :=
  match items with
  | [] => true
  | One a :: items' =>
      match text with
      | c :: t => atom_matches a c && match_here items' false t
      | [] => false
      end
  | Star a :: items' => match_star (match_here items') a at_start text
  | Bol :: items' => at_start && match_here items' at_start text
  | Eol :: items' => at_end text && match_here items' at_start text
  end.

Fixpoint search_from (items : list item) (at_start : bool) (text : list ascii)
    {struct text} : bool :=
  match_here items at_start text
  || match text with
     | _ :: t => search_from items false t
     | [] => false
     end.

Definition search (pattern s : string) : option bool :=
  match compile pattern with
  | Some items => Some (search_from items true (list_ascii_of_string s))
  | None => None
  end.

End PyRe.

(** ** Time-series tables *)

Inductive TimeseriesHandler : Type :=
| TimeseriesDataFloat
| TimeseriesDataInt
| TimeseriesDataStr.

Definition get_timeseries_handler_by_type (data_type : string)
  : result TimeseriesHandler :=
  if String.eqb data_type "float"%string then Returns TimeseriesDataFloat
  else if String.eqb data_type "str"%string then Returns TimeseriesDataStr
  else if String.eqb data_type "int"%string then Returns TimeseriesDataInt
  else Raises UnsupportedTimeseriesDataTypeError.

(** ** Schema validation *)

(** Modelled from the spec: the enumeration [ValidationStatus] lives in
    [galv/models/choices.py], which is not among the sources; the spec (§3)
    lists its members. *)
Inductive ValidationStatus : Type :=
| UNCHECKED
| VALID
| INVALID
| ERROR
| SKIPPED.

(** What [SchemaValidation.detail] (a nullable JSON field) is set to. *)
Inductive detail_value : Type :=
| DetailText (s : string)           (* a plain string *)
| DetailMessage (s : string)        (* the dict {'message': s} *)
| DetailErrorTree (tree : string).  (* unwrap_validationerror(e), rendered *)

(** A model class, by its qualified name. *)
Definition ModelClass : Type := string.

(** [f"{model_class}"]; [model_class()] is [None] for a stale content type. *)
Definition model_class_str (model_class : option ModelClass) : string :=
  match model_class with
  | Some c => String.append "<class '" (String.append c "'>")
  | None => "None"%string
  end.

(** [model_class.__name__]: the last component of the qualified name. *)
Fixpoint after_last_dot (cur s : string) : string :=
  match s with
  | EmptyString => cur
  | String c s' =>
      if Ascii.eqb c "."%char then after_last_dot EmptyString s'
      else after_last_dot (String.append cur (String c EmptyString)) s'
  end.

Definition class_name (c : ModelClass) : string := after_last_dot EmptyString c.

(** A JSON value as Python holds it: what a [JSONField] loads and what a
    serialiser's [data] is made of.  A dict keeps its keys in insertion
    order. *)
#[warnings="-register-all"]
Inductive json : Type :=
| JNull
| JBool (b : bool)
| JInt (n : Z)
| JFloat (literal : string)
| JString (s : string)
| JArray (items : list json)
| JObject (members : list (string * json)).

(** [d[key]] on the members of a dict, if the key is there. *)
Fixpoint dict_get (key : string) (members : list (string * json)) : option json :=
  match members with
  | [] => None
  | (k, v) :: rest => if String.eqb k key then Some v else dict_get key rest
  end.

(** [d[key] = value] on the members of a dict: a key that is there keeps its
    place, a new one goes to the end. *)
Fixpoint dict_setitem (key : string) (value : json) (members : list (string * json))
  : list (string * json) :=
  match members with
  | [] => [(key, value)]
  | (k, v) :: rest =>
      if String.eqb k key then (k, value) :: rest
      else (k, v) :: dict_setitem key value rest
  end.

(** [s[key] = value] with a string key on any JSON value: the dict with the
    member assigned, or the text of the [TypeError]. *)
Inductive assigned : Type :=
| Assigned (s : json)
| NotAssignable (msg : string).

Definition setitem (key : string) (value : json) (s : json) : assigned :=
  match s with
  | JObject members => Assigned (JObject (dict_setitem key value members))
  | JArray _ => NotAssignable "list indices must be integers or slices, not str"
  | JNull => NotAssignable "'NoneType' object does not support item assignment"
  | JBool _ => NotAssignable "'bool' object does not support item assignment"
  | JInt _ => NotAssignable "'int' object does not support item assignment"
  | JFloat _ => NotAssignable "'float' object does not support item assignment"
  | JString _ => NotAssignable "'str' object does not support item assignment"
  end.

Module SchemaValidation.

Record t : Type := {
  pk : nat;
  schema : nat;                         (* ForeignKey(ValidationSchema), its key *)
  content_type : option ModelClass;     (* self.content_type.model_class() *)
  object_id : string;
  status : ValidationStatus;
  detail : option detail_value
}.

Definition set_status_detail (s : ValidationStatus) (d : option detail_value)
    (self : t) : t :=
  {| pk := pk self; schema := schema self; content_type := content_type self;
     object_id := object_id self; status := s; detail := d |}.

Definition set_status (s : ValidationStatus) (self : t) : t :=
  set_status_detail s (detail self) self.

(** An attribute [getattr(galv_serializers, s)] of the serializers module. *)
Inductive module_attr : Type :=
| NotAClass                         (* issubclass raises TypeError; swallowed *)
| OtherClass                        (* a class that is no Serializer subclass *)
| SerializerClass (name : string)
    (Meta : option (option ModelClass)).
    (* [None]: no [Meta]; [Some None]: a [Meta] without [model] *)

(** The test the loop of [validate] applies to one attribute. *)
Definition declares_model (x : module_attr) (model_class : option ModelClass) : bool :=
  match x with
  | SerializerClass _ (Some (Some m)) =>
      match model_class with
      | Some c => String.eqb m c
      | None => false
      end
  | _ => false
  end.

(** The loop itself: the first attribute that passes, if any. *)
Definition find_serializer (module_attrs : list module_attr)
    (model_class : option ModelClass) : option module_attr :=
  List.find (fun x => declares_model x model_class) module_attrs.

(** How serialising the target (the mock request, the superuser lookup and
    [serializer(...).data]) can end. *)
Inductive serialized : Type :=
| Serialized (data : json)
| SerializerCrashed (msg : string).  (* an exception, [msg] its text *)

(** How [jsonschema.validate(d, s)] can end. *)
Inductive run_end : Type :=
| Validated                          (* it returned *)
| ValidationFailed (tree : string)   (* jsonschema ValidationError *)
| ReferencingFailed                  (* _WrappedReferencingError *)
| Crashed (msg : string).            (* any other exception, [msg] its text *)

(** A method call on [self] ends by returning or raising; either way the
    instance keeps the fields assigned so far. *)
Inductive outcome : Type :=
| Done (self : t)
| Raised (e : exn) (self : t).

Section Validate.

(** [dir(galv.serializers)] resolved to attributes, the behaviour of the
    serialiser on this row, and [jsonschema.validate] on an instance and a
    schema. *)
Variable galv_serializers : list module_attr.
Variable serialize : module_attr -> t -> serialized.
Variable jsonschema_validate : json -> json -> run_end.

(** The outer [except Exception as e] on an exception whose text is
    [msg]. *)
Definition on_exception (halt_on_error : bool) (msg : string) (self : t) : outcome :=
  if halt_on_error then Raised (OtherException msg) self
  else Done (set_status_detail ERROR
               (Some (DetailMessage
                        (String.append "Error running validation: " msg)))
               self).

(** [validate].  [document] is [self.schema.schema], the JSON document of
    the related schema instance; [s = self.schema.schema] names that same
    object, so the two item assignments change it in place, and the second
    component of the result is the document as the call leaves it (in
    memory: [validate] saves nothing). *)
Definition validate (halt_on_error : bool) (self : t) (document : json)
  : outcome * json :=
  let model_class := content_type self in
  match find_serializer galv_serializers model_class with
  | None =>
      (Done (set_status_detail ERROR
               (Some (DetailText
                        (String.append "Could not find serializer for "
                                       (model_class_str model_class))))
               self),
       document)
  | Some serializer =>
      match serialize serializer self with
      | SerializerCrashed msg => (on_exception halt_on_error msg self, document)
      | Serialized data =>
          (* d = data if isinstance(data, list) else [data] *)
          let d := match data with
                   | JArray _ => data
                   | _ => JArray [data]
                   end in
          (* s['type'] = "array" *)
          match setitem "type" (JString "array") document with
          | NotAssignable msg => (on_exception halt_on_error msg self, document)
          | Assigned s1 =>
              (* s['items'] = {'$ref': f"#/$defs/{model_class.__name__}"} *)
              match model_class with
              | None =>
                  (on_exception halt_on_error
                     "'NoneType' object has no attribute '__name__'" self,
                   s1)
              | Some c =>
                  let items :=
                    JObject [("$ref"%string,
                              JString (String.append "#/$defs/" (class_name c)))] in
                  match setitem "items" items s1 with
                  | NotAssignable msg => (on_exception halt_on_error msg self, s1)
                  | Assigned s2 =>
                      (match jsonschema_validate d s2 with
                       | Validated => Done (set_status_detail VALID None self)
                       | ValidationFailed tree =>
                           Done (set_status_detail INVALID
                                   (Some (DetailErrorTree tree)) self)
                       | ReferencingFailed => Done (set_status SKIPPED self)
                       | Crashed msg => on_exception halt_on_error msg self
                       end,
                       s2)
                  end
              end
          end
      end
  end.

End Validate.

(** [SchemaValidation.objects.filter(schema=s).update(status=.., detail=..)]
    on the table of rows. *)
Definition filter_schema_update (schema_pk : nat) (s : ValidationStatus)
    (d : option detail_value) (table : gmap nat t) : gmap nat t :=
  (fun row => if Nat.eqb (schema row) schema_pk then set_status_detail s d row else row)
    <$> table.

End SchemaValidation.

Record Database : Type := {
  resources : gmap nat ResourceModelPermissionsMixin.t;   (* the schemas' rows *)
  schema_validations : gmap nat SchemaValidation.t
}.

Module ValidationSchema.

(** A [ValidationSchema] is a resource (its key and access levels are the
    mixin's) with a name and a JSON document. *)
Record t : Type := {
  resource : ResourceModelPermissionsMixin.t;
  name : string;
  schema : string
}.

Definition pk (self : t) : nat := ResourceModelPermissionsMixin.pk (resource self).

Definition save (self : t) (db : Database) : t * Database :=
  (* super(ValidationSchema, self).save(...) *)
  let '(resource', resources') :=
    ResourceModelPermissionsMixin.save (resource self) (resources db) in
  let self' := {| resource := resource'; name := name self; schema := schema self |} in
  (* SchemaValidation.objects.filter(schema=self).update(...) *)
  (self',
   {| resources := resources';
      schema_validations :=
        SchemaValidation.filter_schema_update (pk self') UNCHECKED None
          (schema_validations db) |}).

End ValidationSchema.

(** ** Harvesters *)

(** A Python [str] that may hold non-ASCII characters, as its code points
    ([£] is one character, U+00A3, but two bytes of a byte string). *)
Definition pystr : Type := list N.

(** The code points of an ASCII literal. *)
Definition codepoints (s : string) : pystr :=
  map N_of_ascii (list_ascii_of_string s).

(** [random.choices(population, k=k)]: [k] independent draws with
    replacement, each [population[floor(random() * n)]].  [random_index i] is
    the index the [i]-th draw yields; it is reduced modulo [n] so that every
    oracle is a legal one. *)
Definition choices (random_index : nat -> nat) (population : pystr) (k : nat) : pystr :=
  map (fun i => nth (random_index i mod length population) population 0%N) (seq 0 k).

Module Harvester.

Record t : Type := {
  uuid : nat;
  name : string;
  api_key : option pystr;          (* TextField(null=True) *)
  sleep_time : Z;
  active : bool;
  lab : Lab
}.

Definition set_api_key (k : pystr) (self : t) : t :=
  {| uuid := uuid self; name := name self; api_key := Some k;
     sleep_time := sleep_time self; active := active self; lab := lab self |}.

Definition text : pystr :=
  codepoints "abcdefghijklmnopqrstuvwxyz"
  ++ codepoints "ABCDEFGHIJKLMNOPQRSTUVWXYZ"
  ++ codepoints "0123456789"
  (* '!£$%^&*-=+' *)
  ++ [33; 163; 36; 37; 94; 38; 42; 45; 61; 43]%N.

Definition key_prefix : pystr := codepoints "galv_hrv_".

Definition save (random_index : nat -> nat) (self : t) (table : gmap nat t)
  : t * gmap nat t :=
  let self' :=
    match api_key self with
    | None => set_api_key (key_prefix ++ choices random_index text 60) self
    | Some _ => self
    end in
  (self', <[uuid self' := self']> table).

(** [s.startswith(p)] on code points. *)
Fixpoint startswith (s p : pystr) {struct p} : bool :=
  match p, s with
  | [], _ => true
  | c :: p', d :: s' => N.eqb c d && startswith s' p'
  | _ :: _, [] => false
  end.

End Harvester.

(** The alphabet of the key, by code point: [a-z], [A-Z], [0-9] and the ten
    characters of ['!£$%^&*-=+']. *)
Definition in_key_alphabet (c : N) : Prop :=
  (97 <= c <= 122)%N \/ (65 <= c <= 90)%N \/ (48 <= c <= 57)%N
  \/ In c [33; 163; 36; 37; 94; 38; 42; 45; 61; 43]%N.

(** ** Activation tokens *)

(** Python floats, as far as [get_is_expired] uses them: the quotient of two
    ints and its comparison with an int. *)
Module Float64.

Local Open Scope Z_scope.

(** A finite binary64 value, [mantissa * 2 ^ exponent]. *)
Record t : Type := { mantissa : Z; exponent : Z }.

(** [a / d] scaled by [2 ^ (- e)], as a fraction. *)
Definition scaled (a d e : Z) : Z * Z :=
  if 0 <=? e then (a, d * 2 ^ e) else (a * 2 ^ (- e), d).

(** The integer nearest to [p / q], ties to the even one. *)
Definition round_half_even (p q : Z) : Z :=
  let f := p / q in
  let r := p mod q in
  if 2 * r <? q then f
  else if q <? 2 * r then f + 1
  else if Z.even f then f else f + 1.

(** The exponent that leaves 53 bits before the point. *)
Definition exponent_of (a d : Z) : Z :=
  let e := Z.log2 a - Z.log2 d - 52 in
  let '(p, q) := scaled a d e in
  if 2 ^ 52 <=? p / q then e else e - 1.

(** [n / d] on two ints with [d] positive: the binary64 value nearest to
    the quotient, ties to even (CPython rounds int division correctly).  The
    quotients taken here are a [timedelta]'s microseconds over [10**6], far
    inside the range of normal numbers, so the exponent is left unbounded. *)
Definition true_divide (n d : Z) : t :=
  if n =? 0 then {| mantissa := 0; exponent := 0 |}
  else
    let a := Z.abs n in
    let e := exponent_of a d in
    let '(p, q) := scaled a d e in
    {| mantissa := Z.sgn n * round_half_even p q; exponent := e |}.

(** [x > n] for a float [x] and an int [n]; Python compares the two
    exactly. *)
Definition gt_int (x : t) (n : Z) : bool :=
  if 0 <=? exponent x then n <? mantissa x * 2 ^ exponent x
  else n * 2 ^ (- exponent x) <? mantissa x.

End Float64.

Module UserActivation.

(** [timedelta.total_seconds()] of a difference of [us] microseconds: the
    float [us / 10**6]. *)
Definition total_seconds (us : Z) : Float64.t :=
  Float64.true_divide us 1000000.

(** The columns of an activation row. *)
Record t : Type := {
  token : option string;
  token_update_date : option Z;     (* microseconds since the epoch *)
  redemption_date : option Z
}.

(** What a method of [UserActivation] can read and change: the instance and
    its in-memory user, the two database rows behind them, and how often the
    clock and the token generator have been consulted. *)
Record world : Type := {
  self : t;
  user_is_active : bool;            (* self.user.is_active *)
  db_row : option t;                (* the activation row as last written *)
  db_user_is_active : bool;         (* the user's row as last written *)
  clock_reads : nat;
  tokens_drawn : nat
}.

Definition with_self (f : t -> t) (w : world) : world :=
  {| self := f (self w); user_is_active := user_is_active w;
     db_row := db_row w; db_user_is_active := db_user_is_active w;
     clock_reads := clock_reads w; tokens_drawn := tokens_drawn w |}.

Definition set_token (v : option string) (s : t) : t :=
  {| token := v; token_update_date := token_update_date s;
     redemption_date := redemption_date s |}.

Definition set_token_update_date (v : option Z) (s : t) : t :=
  {| token := token s; token_update_date := v;
     redemption_date := redemption_date s |}.

Definition set_redemption_date (v : option Z) (s : t) : t :=
  {| token := token s; token_update_date := token_update_date s;
     redemption_date := v |}.

(** A computation over the world that returns or raises. *)
Inductive run (A : Type) : Type :=
| Ret (a : A) (w : world)
| Exc (e : exn) (w : world).
Arguments Ret {A} a w.
Arguments Exc {A} e w.

Definition M (A : Type) : Type := world -> run A.

(** The exception a run ended in, if any, and the world it left. *)
Definition raised {A : Type} (r : run A) : option exn :=
  match r with
  | Ret _ _ => None
  | Exc e _ => Some e
  end.

Definition final_world {A : Type} (r : run A) : world :=
  match r with
  | Ret _ w => w
  | Exc _ w => w
  end.

Definition ret {A : Type} (a : A) : M A := fun w => Ret a w.

Definition bind {A B : Type} (c : M A) (k : A -> M B) : M B :=
  fun w => match c w with
           | Ret a w' => k a w'
           | Exc e w' => Exc e w'
           end.

Definition raise {A : Type} (e : exn) : M A := fun w => Exc e w.
Definition get {A : Type} (f : world -> A) : M A := fun w => Ret (f w) w.
Definition modify (f : world -> world) : M unit := fun w => Ret tt (f w).

Notation "'let*' x ':=' c 'in' k" :=
  (bind c (fun x => k)) (at level 10, x name, c at level 200, k at level 200).

Section Methods.

(** [now k] is what the [k]-th call of [timezone.now()] returns, in
    microseconds; [get_random_string k] is the [k]-th token that
    [get_random_string(length=8, allowed_chars='1234567890')] returns;
    [USER_ACTIVATION_TOKEN_EXPIRY_S] is the setting of that name. *)
Variable now : nat -> Z.
Variable get_random_string : nat -> string.
Variable USER_ACTIVATION_TOKEN_EXPIRY_S : Z.

Definition timezone_now : M Z :=
  fun w =>
    Ret (now (clock_reads w))
        {| self := self w; user_is_active := user_is_active w;
           db_row := db_row w; db_user_is_active := db_user_is_active w;
           clock_reads := S (clock_reads w); tokens_drawn := tokens_drawn w |}.

Definition draw_token : M string :=
  fun w =>
    Ret (get_random_string (tokens_drawn w))
        {| self := self w; user_is_active := user_is_active w;
           db_row := db_row w; db_user_is_active := db_user_is_active w;
           clock_reads := clock_reads w; tokens_drawn := S (tokens_drawn w) |}.

(** [models.Model.save] on the activation row. *)
Definition super_save : M unit :=
  modify (fun w =>
    {| self := self w; user_is_active := user_is_active w;
       db_row := Some (self w); db_user_is_active := db_user_is_active w;
       clock_reads := clock_reads w; tokens_drawn := tokens_drawn w |}).

(** [self.user.save()] *)
Definition user_save : M unit :=
  modify (fun w =>
    {| self := self w; user_is_active := user_is_active w;
       db_row := db_row w; db_user_is_active := user_is_active w;
       clock_reads := clock_reads w; tokens_drawn := tokens_drawn w |}).

Definition set_user_is_active (b : bool) : M unit :=
  modify (fun w =>
    {| self := self w; user_is_active := b;
       db_row := db_row w; db_user_is_active := db_user_is_active w;
       clock_reads := clock_reads w; tokens_drawn := tokens_drawn w |}).

(** [(a - b).total_seconds() > USER_ACTIVATION_TOKEN_EXPIRY_S] on two
    datetimes given in microseconds: the difference is exact, the seconds
    are a float, and the setting is an int. *)
Definition older_than_expiry (a b : Z) : bool :=
  Float64.gt_int (total_seconds (a - b)) USER_ACTIVATION_TOKEN_EXPIRY_S.

(** The clock is read only when [token_update_date] is set ([or]
    short-circuits). *)
Definition get_is_expired : M bool :=
  let* stamped := get (fun w => token_update_date (self w)) in
  match stamped with
  | None => ret true
  | Some d =>
      let* n := timezone_now in
      ret (older_than_expiry n d)
  end.

(** The body of [generate_token], with the [self.save()] it ends in. *)
Definition generate_token_with (save : M unit) : M unit :=
  let* tok := draw_token in
  let* _ := modify (with_self (set_token (Some tok))) in
  let* n := timezone_now in
  let* _ := modify (with_self (set_token_update_date (Some n))) in
  save.

(** [save].  [depth] is the number of nested activations of [save] the
    interpreter's recursion limit still has room for; past it Python raises
    [RecursionError]. *)
Fixpoint save (depth : nat) : M unit :=
  match depth with
  | O => raise RecursionError
  | S depth' =>
      let* _ := super_save in
      let* active := get user_is_active in
      if negb active then
        let* tok := get (fun w => token (self w)) in
        let* regenerate :=
          match tok with
          | None => ret true
          | Some _ => get_is_expired
          end in
        if regenerate then generate_token_with (save depth') else ret tt
      else ret tt
  end.

Definition generate_token (depth : nat) : M unit :=
  generate_token_with (save depth).

Definition token_expired_message : string :=
  "Activation token expired. A new token has been generated and emailed to you.".

Definition activate_user (depth : nat) : M unit :=
  let* expired := get_is_expired in
  if expired then
    let* _ := generate_token depth in
    raise (ValueError token_expired_message)
  else
    let* active := get user_is_active in
    if active then raise (RuntimeError "User already active")
    else
      let* _ := set_user_is_active true in
      let* _ := user_save in
      let* n := timezone_now in
      let* _ := modify (with_self (set_redemption_date (Some n))) in
      save depth.

(** What [get_is_expired] answers in world [w]. *)
Definition expired_in (w : world) : bool :=
  match token_update_date (self w) with
  | None => true
  | Some d => older_than_expiry (now (clock_reads w)) d
  end.

(** What the [save] that [generate_token] ends in finds when the token was
    stamped with reading [k]: it takes reading [S k] and tests the stamp
    against it. *)
Definition nested_save_finds_expired (k : nat) : bool :=
  older_than_expiry (now (S k)) (now k).

(** The reading [generate_token] stamps the token with when [save] calls it
    from world [w]: [save] has read the clock before only if it had a
    stamped token to test. *)
Definition save_stamp_reading (w : world) : nat :=
  match token (self w), token_update_date (self w) with
  | Some _, Some _ => S (clock_reads w)
  | _, _ => clock_reads w
  end.

(** The same for [activate_user], whose [get_is_expired] reads the clock
    whenever there is a stamp. *)
Definition activate_stamp_reading (w : world) : nat :=
  match token_update_date (self w) with
  | Some _ => S (clock_reads w)
  | None => clock_reads w
  end.

(** From [w] to [w']: one token was drawn and stamped with a clock reading
    taken in between, the row was written, and nothing else changed. *)
Definition regenerated_once (w w' : world) : Prop :=
  token (self w') = Some (get_random_string (tokens_drawn w))
  /\ (exists j, clock_reads w <= j < clock_reads w'
                /\ token_update_date (self w') = Some (now j))
  /\ redemption_date (self w') = redemption_date (self w)
  /\ tokens_drawn w' = S (tokens_drawn w)
  /\ db_row w' = Some (self w')
  /\ user_is_active w' = user_is_active w
  /\ db_user_is_active w' = db_user_is_active w.

(** The condition under which [save] calls [generate_token]. *)
Definition save_regenerates (w : world) : bool :=
  negb (user_is_active w)
  && match token (self w) with
     | None => true
     | Some _ => expired_in w
     end.

End Methods.

(** A new activation record for an inactive user, nothing stored yet. *)
Definition fresh_world : world :=
  {| self := {| token := None; token_update_date := None; redemption_date := None |};
     user_is_active := false; db_row := None; db_user_is_active := false;
     clock_reads := 0; tokens_drawn := 0 |}.

(** A clock that advances one second from each reading to the next. *)
Definition ticking_clock (k : nat) : Z := (Z.of_nat k * 1000000)%Z.

(** A clock that advances one second per reading, except that 1000 seconds
    pass between the first reading and the second. *)
Definition stalling_clock (k : nat) : Z :=
  match k with
  | O => 0%Z
  | S _ => ((1000 + Z.of_nat k) * 1000000)%Z
  end.

(** A clock that reads 1000 s, then 3000 s, and one second more at each
    reading after that. *)
Definition jumping_clock (k : nat) : Z :=
  match k with
  | O => 1000000000%Z
  | S k' => ((3000 + Z.of_nat k') * 1000000)%Z
  end.

(** The record of an inactive user whose token was stamped at time 0. *)
Definition stale_world : world :=
  {| self := {| token := Some "00000000"%string; token_update_date := Some 0%Z;
                redemption_date := None |};
     user_is_active := false; db_row := None; db_user_is_active := false;
     clock_reads := 0; tokens_drawn := 0 |}.

(** Tokens for the examples: the same eight digits every time. *)
Definition constant_token (k : nat) : string := "12345678".

End UserActivation.

(** ** The other list filters of [galv/permissions.py] *)

Module LabFilterBackend.

Definition filter_list_queryset (request : Request) (queryset : list Lab) : list Lab :=
  let labs := map lab_pk (user_labs (user request) false) in
  if Nat.eqb (length labs) 0 then []                       (* queryset.none() *)
  else List.filter (fun l => existsb (Nat.eqb (lab_pk l)) labs) queryset.

End LabFilterBackend.

Module TeamFilterBackend.

(** [Q(pk__in=teams) | Q(lab__in=user_labs(request.user, True))] *)
Definition filter_list_queryset (request : Request) (queryset : list Team) : list Team :=
  let teams := map team_pk (user_teams (user request) false) in
  List.filter
    (fun t => existsb (Nat.eqb (team_pk t)) teams
              || lab_in (team_lab t) (user_labs (user request) true))
    queryset.

End TeamFilterBackend.

Module GroupFilterBackend.

(** [Q(rel__in=xs)] through a reverse one-to-one accessor: the related row
    exists and is one of [xs]. *)
Definition related_in {A : Type} (is_in : A -> list A -> bool)
    (related : option A) (xs : list A) : bool :=
  match related with
  | Some a => is_in a xs
  | None => false
  end.

Definition filter_list_queryset (request : Request) (queryset : list GroupProxy)
  : list GroupProxy :=
  if is_superuser (user request) || is_staff (user request) then queryset
  else
    let teams := user_teams (user request) false in
    let labs := user_labs (user request) false in
    List.filter
      (fun g => related_in lab_in (editable_lab g) labs
                || related_in team_in (editable_team g) teams
                || related_in team_in (readable_team g) teams)
      queryset.

End GroupFilterBackend.

(** [u] is in the admin group of a team with [tm]'s primary key. *)
Definition administers_team (u : User) (tm : Team) : Prop :=
  exists g t', In g (groups u) /\ editable_team g = Some t' /\ team_pk t' = team_pk tm.

(** [u] is in the admin group of a lab with [l]'s primary key. *)
Definition administers_lab (u : User) (l : Lab) : Prop :=
  exists g l', In g (groups u) /\ editable_lab g = Some l' /\ lab_pk l' = lab_pk l.

(** The group is the admin group of at most one lab or team, or the member
    group of one team, and not several of these at once. *)
Definition single_back_reference (g : GroupProxy) : Prop :=
  (editable_lab g = None /\ editable_team g = None)
  \/ (editable_lab g = None /\ readable_team g = None)
  \/ (editable_team g = None /\ readable_team g = None).

(** ** Harvesters as callers *)

(** [request.user]: a Django user (stored or anonymous) or a [HarvesterUser]
    wrapping the harvester whose key authenticated the request. *)
Inductive request_user : Type :=
| DjangoUser (u : User)
| HarvesterUser (harvester : Harvester.t).

(** What the permission code reads off the caller.  [HarvesterUser] derives
    from [AnonymousUser] (no staff or superuser flag, an empty [groups]
    manager) and overrides [is_authenticated] to [True]. *)
Definition as_user (ru : request_user) : User :=
  match ru with
  | DjangoUser u => u
  | HarvesterUser _ =>
      {| is_authenticated := true; is_staff := false; is_superuser := false;
         groups := [] |}
  end.

(** A request with its caller and its [META['HTTP_AUTHORIZATION']] entry
    ([None] when the header is absent). *)
Record ApiRequest : Type := {
  api_user : request_user;
  HTTP_AUTHORIZATION : option pystr
}.

Definition to_request (request : ApiRequest) : Request :=
  {| user := as_user (api_user request) |}.

Module HarvesterAccess.

(** [isinstance(request.user, HarvesterUser) and request.user.harvester == self] *)
Definition is_valid_harvester (self : Harvester.t) (request : ApiRequest) : bool :=
  match api_user request with
  | HarvesterUser h => Nat.eqb (Harvester.uuid h) (Harvester.uuid self)
  | DjangoUser _ => false
  end.

Definition has_create_permission (request : ApiRequest) : bool :=
  is_authenticated (as_user (api_user request))
  && Nat.ltb 0 (length (user_labs (as_user (api_user request)) true)).

Definition has_object_read_permission (self : Harvester.t) (request : ApiRequest) : bool :=
  is_valid_harvester self request
  || Lab.has_object_read_permission (Harvester.lab self) (to_request request).

Definition has_object_write_permission (self : Harvester.t) (request : ApiRequest) : bool :=
  Lab.has_object_write_permission (Harvester.lab self) (to_request request).

Definition has_object_config_permission (self : Harvester.t) (request : ApiRequest) : bool :=
  is_valid_harvester self request.

Definition has_object_report_permission (self : Harvester.t) (request : ApiRequest) : bool :=
  is_valid_harvester self request.

End HarvesterAccess.

(** [HarvestError.has_create_permission] and [DataColumn.has_create_permission]
    (the same body): some stored harvester is the caller, or the caller is
    staff or superuser.  [harvesters] is [Harvester.objects.all()]. *)
Definition harvester_or_staff_has_create_permission
    (harvesters : list Harvester.t) (request : ApiRequest) : bool :=
  if existsb (fun h => HarvesterAccess.is_valid_harvester h request) harvesters
  then true
  else is_staff (as_user (api_user request)) || is_superuser (as_user (api_user request)).

(** [s.split(sep)] for a one-character separator, with [cur] the piece read
    so far. *)
Fixpoint split_on (sep : N) (cur s : pystr) : list pystr :=
  match s with
  | [] => [cur]
  | c :: s' =>
      if N.eqb c sep then cur :: split_on sep [] s'
      else split_on sep (cur ++ [c]) s'
  end.

Definition space : N := 32%N.

Module HarvesterFilterBackend.

Definition harvester_prefix : pystr := codepoints "Harvester ".

(** [queryset.filter(api_key=key)]: a NULL key equals nothing. *)
Definition filter_api_key (key : pystr) (queryset : list Harvester.t) : list Harvester.t :=
  List.filter
    (fun h => match Harvester.api_key h with
              | Some k => bool_decide (k = key)
              | None => false
              end)
    queryset.

Definition filter_list_queryset (request : ApiRequest) (queryset : list Harvester.t)
  : result (list Harvester.t) :=
  let key := match HTTP_AUTHORIZATION request with Some k => k | None => [] end in
  if Harvester.startswith key harvester_prefix then
    match nth_error (split_on space [] key) 1 with
    | Some presented => Returns (filter_api_key presented queryset)
    | None => Raises (OtherException "IndexError: list index out of range")
    end
  else
    let labs := user_labs (as_user (api_user request)) false in
    if Nat.eqb (length labs) 0 then Returns []
    else Returns (List.filter (fun h => lab_in (Harvester.lab h) labs) queryset).

End HarvesterFilterBackend.

(** The part of [s] before its first space (all of [s] if it has none). *)
Fixpoint until_space (s : pystr) : pystr :=
  match s with
  | [] => []
  | c :: s' => if N.eqb c space then [] else c :: until_space s'
  end.

(** ** Columns of an observed file *)

(** [a or b] on an optional string: [None] and the empty string are falsy. *)
Definition py_or (a : option string) (b : string) : string :=
  match a with
  | Some s => if String.eqb s EmptyString then b else s
  | None => b
  end.

Module DataColumnType.

Record t : Type := {
  pk : nat;
  name : string;
  is_required : bool;
  override_child_name : option string     (* TextField(null=True, blank=True) *)
}.

End DataColumnType.

Module DataColumn.

Record t : Type := {
  type : DataColumnType.t;
  name_in_file : string
}.

Definition get_name (self : t) : string :=
  py_or (DataColumnType.override_child_name (type self)) (name_in_file self).

End DataColumn.

Module ObservedFileColumns.

Section Columns.

(** [DataColumnType.objects.all()] and [self.columns.all()]. *)
Variable column_types : list DataColumnType.t.
Variable columns : list DataColumn.t.

(** [self.columns.filter(type=ty).count()] *)
Definition count_of_type (ty : DataColumnType.t) : nat :=
  length (List.filter
            (fun c => Nat.eqb (DataColumnType.pk (DataColumn.type c)) (DataColumnType.pk ty))
            columns).

Definition missing_message (ty : DataColumnType.t) : string :=
  String.append "Missing required column: "
    (py_or (DataColumnType.override_child_name ty) (DataColumnType.name ty)).

Definition missing_required_columns : list string :=
  flat_map
    (fun required_column =>
       if negb (Nat.eqb (count_of_type required_column) 1)
       then [missing_message required_column]
       else [])
    (List.filter DataColumnType.is_required column_types).

Definition has_required_columns : bool :=
  Nat.eqb (length missing_required_columns) 0.

(** One round of the loop of [column_errors] on the column named [n]. *)
Definition note_name (state : list string * list string) (n : string)
  : list string * list string :=
  let '(errors, names) := state in
  (if existsb (String.eqb n) names
   then errors ++ [String.append "Duplicate column name: " n]
   else errors,
   names ++ [n]).

Definition duplicate_errors : list string :=
  fst (fold_left note_name (map DataColumn.get_name columns) ([], [])).

Definition column_errors : list string :=
  missing_required_columns ++ duplicate_errors.

End Columns.

End ObservedFileColumns.

(** ** Rendering a time series *)

(** An element of [values]: a string, or anything that is not one (a float,
    an integer, [None]). *)
Inductive series_value : Type :=
| StrValue (s : string)
| NotAStr.

Definition is_str (v : series_value) : Prop :=
  match v with StrValue _ => True | NotAStr => False end.

(** [sep.join(items)]: [TypeError] at an item that is not a string. *)
Fixpoint join (sep : string) (items : list series_value) : result string :=
  match items with
  | [] => Returns EmptyString
  | NotAStr :: _ => Raises (OtherException "TypeError: expected str instance")
  | StrValue s :: rest =>
      match rest with
      | [] => Returns s
      | _ =>
          match join sep rest with
          | Returns joined => Returns (String.append s (String.append sep joined))
          | Raises e => Raises e
          end
      end
  end.

Module TimeseriesBase.

Record t : Type := {
  column_id : string;                       (* f"{self.column_id}" *)
  values : option (list series_value)       (* ArrayField(..., null=True) *)
}.

Definition __str__ (self : t) : result string :=
  match values self with
  | None | Some [] => Returns (String.append (column_id self) ": []")
  | Some vs =>
      if Nat.ltb 5 (length vs) then
        match join "," (firstn 5 vs) with
        | Returns joined =>
            Returns (String.append (column_id self)
                       (String.append ": [" (String.append joined "...]")))
        | Raises e => Raises e
        end
      else
        match join "," vs with
        | Returns joined =>
            Returns (String.append (column_id self)
                       (String.append ": [" (String.append joined "]")))
        | Raises e => Raises e
        end
  end.

Definition __repr__ (self : t) : result string := __str__ self.

End TimeseriesBase.

(** ** Listing schema validations *)

Module SchemaValidationFilterBackend.

Section Listing.

(** [q.schema]: the [ValidationSchema] row a validation references, fetched
    by its key. *)
Variable schema_by_pk : nat -> ResourceModelPermissionsMixin.t.

(** [{q.schema for q in queryset}]: one instance per primary key. *)
Fixpoint schema_set (queryset : list SchemaValidation.t)
  : list ResourceModelPermissionsMixin.t :=
  match queryset with
  | [] => []
  | q :: rest =>
      let s := schema_by_pk (SchemaValidation.schema q) in
      let others := schema_set rest in
      if existsb (fun s' => Nat.eqb (ResourceModelPermissionsMixin.pk s')
                                    (ResourceModelPermissionsMixin.pk s)) others
      then others else s :: others
  end.

(** [l.remove(x)]: drop the first element equal to [x]. *)
Fixpoint remove_first (x : ResourceModelPermissionsMixin.t)
    (l : list ResourceModelPermissionsMixin.t) : list ResourceModelPermissionsMixin.t :=
  match l with
  | [] => []
  | y :: l' =>
      if Nat.eqb (ResourceModelPermissionsMixin.pk y) (ResourceModelPermissionsMixin.pk x)
      then l' else y :: remove_first x l'
  end.

Definition filter_list_queryset (request : Request) (queryset : list SchemaValidation.t)
  : list SchemaValidation.t :=
  let schemas := schema_set queryset in
  let included_schemas :=
    fold_left
      (fun included schema =>
         if negb (ResourceModelPermissionsMixin.has_object_read_permission schema request)
         then remove_first schema included
         else included)
      schemas schemas in
  List.filter
    (fun q => existsb (fun s => Nat.eqb (SchemaValidation.schema q)
                                        (ResourceModelPermissionsMixin.pk s))
                      included_schemas)
    queryset.

(** [SchemaValidation.has_object_read_permission] *)
Definition has_object_read_permission (self : SchemaValidation.t) (request : Request) : bool :=
  ResourceModelPermissionsMixin.has_object_read_permission
    (schema_by_pk (SchemaValidation.schema self)) request.

End Listing.

End SchemaValidationFilterBackend.

(** ** Lazy provisioning of groups: [Lab.save] and [Team.save] *)

(** [f"{n}"] for a primary key. *)
Definition str_of_nat (n : nat) : string :=
  NilEmpty.string_of_uint (Nat.to_uint n).

(** [f"{self.pk}"]: [None] renders as "None". *)
Definition str_of_pk (pk : option nat) : string :=
  match pk with
  | Some k => str_of_nat k
  | None => "None"%string
  end.

(** [django.db.IntegrityError]: the database refuses a write that would
    break one of its constraints.  Its text is the database's own.  The
    constraints are those the model classes declare ([unique=True],
    [OneToOneField], [unique_together], the foreign keys); text is compared
    exactly, as PostgreSQL does, and a write is checked when it is made. *)
Definition IntegrityError : exn := OtherException "IntegrityError".

(** Some row of the table, other than the one under key [k], passes
    [test]. *)
Definition other_row {A : Type} (test : A -> bool) (k : nat) (table : gmap nat A)
  : bool :=
  existsb (fun kr => negb (Nat.eqb (fst kr) k) && test (snd kr)) (map_to_list table).

(** Two nullable references name the same row; a null equals nothing, so a
    unique column may hold any number of nulls. *)
Definition same_reference (a b : option nat) : bool :=
  match a, b with
  | Some x, Some y => Nat.eqb x y
  | _, _ => false
  end.

(** A nullable foreign key is null or names a stored row. *)
Definition refers_into {A : Type} (reference : option nat) (table : gmap nat A)
  : bool :=
  match reference with
  | Some g => bool_decide (is_Some (table !! g))
  | None => true
  end.

(** The group table, by primary key, with the groups' names.
    [GroupProxy.objects.create(name=n)] stores [n] under an unused key and
    returns that key; [Group.name] is unique, so a name that is taken is
    refused. *)
Definition create_group (name : string) (group_table : gmap nat string)
  : result (nat * gmap nat string) :=
  let k := fresh (dom group_table) in
  if other_row (String.eqb name) k group_table then Raises IntegrityError
  else Returns (k, <[k := name]> group_table).

Module LabProvisioning.

Record t : Type := {
  pk : option nat;                 (* [None] until the first insert *)
  name : string;                   (* TextField(unique=True) *)
  admin_group : option nat         (* OneToOneField(GroupProxy, null=True) *)
}.

Record db : Type := {
  lab_table : gmap nat t;
  group_table : gmap nat string
}.

(** The key [models.Model.save] writes the row under: the instance's own,
    or an unused one when [pk] is [None]. *)
Definition key_for (self : t) (d : db) : nat :=
  match pk self with
  | Some k => k
  | None => fresh (dom (lab_table d))
  end.

(** What the database checks when the row is written under key [k]: no
    other lab has the name, no other lab has the admin group, and the admin
    group is a stored group. *)
Definition accepts (k : nat) (self : t) (d : db) : bool :=
  negb (other_row (fun r => String.eqb (name r) (name self)) k (lab_table d))
  && negb (other_row (fun r => same_reference (admin_group r) (admin_group self))
             k (lab_table d))
  && refers_into (admin_group self) (group_table d).

(** [models.Model.save]: insert under an unused key when [pk] is [None],
    else write the row under its key; [IntegrityError] when the database
    refuses.  What the tables hold after a refused write depends on the
    transaction around the call and is not described. *)
Definition super_save (self : t) (d : db) : result (t * db) :=
  let k := key_for self d in
  if accepts k self d then
    let self' := match pk self with
                 | Some _ => self
                 | None => {| pk := Some k; name := name self;
                              admin_group := admin_group self |}
                 end in
    Returns (self', {| lab_table := <[k := self']> (lab_table d);
                       group_table := group_table d |})
  else Raises IntegrityError.

(** The name of the group [save] creates for the lab stored under [k]. *)
Definition admin_group_name (k : nat) : string :=
  String.append "Lab " (String.append (str_of_nat k) " admins").

(** [save]; [depth] bounds the nested activations as for
    [UserActivation.save]. *)
Fixpoint save (depth : nat) (self : t) (d : db) : result (t * db) :=
  match depth with
  | O => Raises RecursionError
  | S depth' =>
      match super_save self d with
      | Raises e => Raises e
      | Returns (self1, d1) =>
          match admin_group self1 with
          | Some _ => Returns (self1, d1)
          | None =>
              match create_group
                      (String.append "Lab "
                         (String.append (str_of_pk (pk self1)) " admins"))
                      (group_table d1) with
              | Raises e => Raises e
              | Returns (g, groups2) =>
                  save depth'
                       {| pk := pk self1; name := name self1;
                          admin_group := Some g |}
                       {| lab_table := lab_table d1; group_table := groups2 |}
              end
          end
      end
  end.

End LabProvisioning.

Module TeamProvisioning.

Record t : Type := {
  pk : option nat;
  name : string;
  lab : Lab;                       (* ForeignKey(Lab, null=False) *)
  admin_group : option nat;        (* OneToOneField(GroupProxy, null=True) *)
  member_group : option nat        (* OneToOneField(GroupProxy, null=True) *)
}.

Record db : Type := {
  team_table : gmap nat t;
  group_table : gmap nat string;
  lab_keys : gset nat              (* the keys of the stored labs *)
}.

Definition key_for (self : t) (d : db) : nat :=
  match pk self with
  | Some k => k
  | None => fresh (dom (team_table d))
  end.

(** What the database checks when the row is written under key [k]:
    [unique_together] on name and lab, the two one-to-one columns, and the
    three references. *)
Definition accepts (k : nat) (self : t) (d : db) : bool :=
  negb (other_row (fun r => String.eqb (name r) (name self)
                            && lab_eqb (lab r) (lab self))
             k (team_table d))
  && negb (other_row (fun r => same_reference (admin_group r) (admin_group self))
             k (team_table d))
  && negb (other_row (fun r => same_reference (member_group r) (member_group self))
             k (team_table d))
  && bool_decide (lab_pk (lab self) ∈ lab_keys d)
  && refers_into (admin_group self) (group_table d)
  && refers_into (member_group self) (group_table d).

Definition super_save (self : t) (d : db) : result (t * db) :=
  let k := key_for self d in
  if accepts k self d then
    let self' := match pk self with
                 | Some _ => self
                 | None => {| pk := Some k; name := name self; lab := lab self;
                              admin_group := admin_group self;
                              member_group := member_group self |}
                 end in
    Returns (self', {| team_table := <[k := self']> (team_table d);
                       group_table := group_table d;
                       lab_keys := lab_keys d |})
  else Raises IntegrityError.

Definition admin_group_name (k : nat) : string :=
  String.append "Team " (String.append (str_of_nat k) " admins").


(** The group a column holds after the inner [if]: the one it had, or a
    new one of the given name. *)
Definition provide_group (current : option nat) (name : string)
    (group_table : gmap nat string) : result (nat * gmap nat string) :=
  match current with
  | Some g => Returns (g, group_table)
  | None => create_group name group_table
  end.

Fixpoint save (depth : nat) (self : t) (d : db) : result (t * db) :=
  match depth with
  | O => Raises RecursionError
  | S depth' =>
      match super_save self d with
      | Raises e => Raises e
      | Returns (self1, d1) =>
          match admin_group self1, member_group self1 with
          | Some _, Some _ => Returns (self1, d1)
          | _, _ =>
              match provide_group (admin_group self1)
                      (String.append "Team "
                         (String.append (str_of_pk (pk self1)) " admins"))
                      (group_table d1) with
              | Raises e => Raises e
              | Returns (admin, groups2) =>
                  match provide_group (member_group self1)
                          (String.append "Team "
                             (String.append (str_of_pk (pk self1)) " members"))
                          groups2 with
                  | Raises e => Raises e
                  | Returns (member, groups3) =>
                      save depth'
                           {| pk := pk self1; name := name self1; lab := lab self1;
                              admin_group := Some admin;
                              member_group := Some member |}
                           {| team_table := team_table d1; group_table := groups3;
                              lab_keys := lab_keys d1 |}
                  end
              end
          end
      end
  end.

End TeamProvisioning.

(** ** Users: object permissions and listing *)

(** A stored user, and the caller of a request with its key ([None] for
    [AnonymousUser], which equals no stored user). *)
Record UserProxy : Type := {
  user_pk : nat;
  account : User
}.

Record Caller : Type := {
  caller_pk : option nat;
  caller_account : User
}.

(** [self == request.user] *)
Definition is_caller (self : UserProxy) (request : Caller) : bool :=
  match caller_pk request with
  | Some k => Nat.eqb (user_pk self) k
  | None => false
  end.

Module UserProxyAccess.

Definition has_object_write_permission (self : UserProxy) (request : Caller) : bool :=
  is_caller self request.

Definition has_object_read_permission (self : UserProxy) (request : Caller) : bool :=
  if is_caller self request || user_is_lab_admin (caller_account request) then true
  else
    let request_labs := user_labs (caller_account request) false in
    existsb (fun lab => lab_in lab request_labs) (user_labs (account self) false).

End UserProxyAccess.

Module UserFilterBackend.

Definition filter_list_queryset (request : Caller) (queryset : list UserProxy)
  : list UserProxy :=
  if is_superuser (caller_account request) || is_staff (caller_account request)
     || user_is_lab_admin (caller_account request)
  then queryset
  else
    let labs := user_labs (caller_account request) false in
    let users_to_return :=
      List.filter
        (fun u => is_caller u request
                  || existsb (fun lab => lab_in lab labs) (user_labs (account u) false))
        queryset in
    List.filter
      (fun u => existsb (Nat.eqb (user_pk u)) (map user_pk users_to_return))
      queryset.

End UserFilterBackend.

(** ** Observed files and the monitored paths that show them *)

(** [for x in xs: if test(x): return True] followed by [return False] (or,
    with [break], "did the loop stop early"): the tests run in order, the
    first true one ends the loop, and a test that raises ends everything. *)
Fixpoint any_in_order {A : Type} (test : A -> result bool) (xs : list A) : result bool :=
  match xs with
  | [] => Returns false
  | x :: rest =>
      match test x with
      | Returns true => Returns true
      | Returns false => any_in_order test rest
      | Raises e => Raises e
      end
  end.

Module ObservedFile.

Record t : Type := {
  pk : nat;
  path : string;
  harvester : Harvester.t
}.

End ObservedFile.

(** The columns of a [MonitoredPath] row that the file permissions read. *)
Record MonitoredPathRow : Type := {
  monitored_harvester : nat;            (* harvester_id *)
  monitored_path : string;
  monitored_regex : option string;
  monitored_team : option Team
}.

Section ObservedFiles.

Variable relpath : string -> string -> option string.
Variable re_search : string -> string -> option bool.

(** [ObservedFile.objects] and [MonitoredPath.objects]. *)
Variable all_files : list ObservedFile.t.
Variable all_paths : list MonitoredPathRow.

(** [path.matches(file_path)] *)
Definition matches (self : MonitoredPathRow) (file_path : string) : result bool :=
  MonitoredPath.paths_match relpath re_search
    (monitored_path self) file_path (monitored_regex self).

(** [ObservedFileFilterBackend.filter_list_queryset]: the test of the inner
    loop ([and] does not evaluate [paths_match] for another harvester's
    path). *)
Definition same_harvester_and_matches (file : ObservedFile.t) (p : MonitoredPathRow)
  : result bool :=
  if Nat.eqb (monitored_harvester p) (Harvester.uuid (ObservedFile.harvester file))
  then matches p (ObservedFile.path file)
  else Returns false.

(** The outer loop: the keys of the files for which the inner loop stopped
    early, in order. *)
Fixpoint file_ids (files : list ObservedFile.t) (paths : list MonitoredPathRow)
  : result (list nat) :=
  match files with
  | [] => Returns []
  | file :: rest =>
      match any_in_order (same_harvester_and_matches file) paths with
      | Raises e => Raises e
      | Returns found =>
          match file_ids rest paths with
          | Raises e => Raises e
          | Returns ids =>
              Returns (if found then ObservedFile.pk file :: ids else ids)
          end
      end
  end.

Definition visible_files (request : Request) : list ObservedFile.t :=
  List.filter
    (fun f => lab_in (Harvester.lab (ObservedFile.harvester f))
                     (user_labs (user request) false))
    all_files.

Definition visible_paths (request : Request) : list MonitoredPathRow :=
  List.filter
    (fun p => match monitored_team p with
              | Some t => team_in t (user_teams (user request) false)
              | None => false
              end)
    all_paths.

Definition observed_file_filter_list_queryset
    (request : Request) (queryset : list ObservedFile.t)
  : result (list ObservedFile.t) :=
  match file_ids (visible_files request) (visible_paths request) with
  | Raises e => Raises e
  | Returns ids =>
      Returns (List.filter
                 (fun f => existsb (Nat.eqb (ObservedFile.pk f)) ids)
                 queryset)
  end.

(** [team.monitored_paths.all()] *)
Definition team_monitored_paths (team : Team) : list MonitoredPathRow :=
  List.filter
    (fun p => match monitored_team p with
              | Some t => team_eqb t team
              | None => false
              end)
    all_paths.

(** [ObservedFile.has_object_read_permission].  The callers modelled here all
    have a [groups] manager, so the [except AttributeError] branch is not
    reached; what [paths_match] raises is no [AttributeError] and
    propagates. *)
Definition observed_file_has_object_read_permission
    (self : ObservedFile.t) (request : ApiRequest) : result bool :=
  if HarvesterAccess.is_valid_harvester (ObservedFile.harvester self) request
  then Returns true
  else
    let teams :=
      List.filter
        (fun t => lab_eqb (team_lab t) (Harvester.lab (ObservedFile.harvester self)))
        (user_teams (as_user (api_user request)) false) in
    any_in_order
      (fun team =>
         any_in_order (fun p => matches p (ObservedFile.path self))
                      (team_monitored_paths team))
      teams.

Definition observed_file_has_object_write_permission
    (self : ObservedFile.t) (request : ApiRequest) : result bool :=
  observed_file_has_object_read_permission self request.

End ObservedFiles.

(* ===================================================================== *)
(** * Part II — properties                                                *)
(* ===================================================================== *)

(** ** Access levels on save *)

Section ClampFacts.

Import ResourceModelPermissionsMixin.

Local Open Scope Z_scope.

(** The second assignment always establishes Edit <= Delete. *)
Lemma clamp_edit_le_delete (self : t) :
  edit_access_level (clamp_access_levels self)
  <= delete_access_level (clamp_access_levels self).
Proof.
  unfold clamp_access_levels.
  destruct (read_access_level self >? edit_access_level self) eqn:Hre; cbn;
    destruct (edit_access_level self >? delete_access_level self) eqn:Hed; cbn;
    lia.
Qed.

(** [save] never moves the delete level, and only ever lowers the others. *)
Lemma clamp_only_lowers (self : t) :
  delete_access_level (clamp_access_levels self) = delete_access_level self
  /\ edit_access_level (clamp_access_levels self) <= edit_access_level self
  /\ read_access_level (clamp_access_levels self) <= read_access_level self.
Proof.
  unfold clamp_access_levels.
  destruct (read_access_level self >? edit_access_level self) eqn:Hre; cbn;
    destruct (edit_access_level self >? delete_access_level self) eqn:Hed; cbn;
    lia.
Qed.

(** When the order holds after [save], and when it does not: the read level
    is compared with the edit level before the edit level is lowered, so it
    stays above it whenever both started above the delete level. *)
Lemma clamp_levels_valid_iff (self : t) :
  levels_valid (clamp_access_levels self)
  <-> (edit_access_level self <= delete_access_level self
       \/ read_access_level self <= delete_access_level self).
Proof.
  unfold levels_valid, clamp_access_levels.
  destruct (read_access_level self >? edit_access_level self) eqn:Hre; cbn;
    destruct (edit_access_level self >? delete_access_level self) eqn:Hed; cbn;
    lia.
Qed.

(** [save] writes the clamped instance under its key and leaves every other
    row alone. *)
Lemma save_stores (self : t) (table : gmap nat t) :
  snd (save self table) !! pk self = Some (fst (save self table))
  /\ forall k, k <> pk self -> snd (save self table) !! k = table !! k.
Proof.
  assert (Hpk : pk (clamp_access_levels self) = pk self).
  { unfold clamp_access_levels.
    destruct (read_access_level self >? edit_access_level self); cbn;
      destruct (_ >? _); reflexivity. }
  unfold save; cbn. rewrite Hpk. split.
  - apply lookup_insert_eq.
  - intros k Hk. apply lookup_insert_ne. congruence.
Qed.

End ClampFacts.

(** C1.  [ResourceModelPermissionsMixin.save] on an instance whose read and
    edit levels are both TEAM_ADMIN (4) and whose delete level is
    TEAM_MEMBER (3): the save goes through and stores read = 4, edit = 3,
    delete = 3, so Read <= Edit does not hold after it.  The edit level is
    lowered to the delete level only after the read level was compared with
    the old edit level. *)
Theorem C1_save_leaves_read_above_edit :
  let self :=
    {| ResourceModelPermissionsMixin.pk := 1;
       ResourceModelPermissionsMixin.team := None;
       ResourceModelPermissionsMixin.delete_access_level := value TEAM_MEMBER;
       ResourceModelPermissionsMixin.edit_access_level := value TEAM_ADMIN;
       ResourceModelPermissionsMixin.read_access_level := value TEAM_ADMIN |} in
  let saved := fst (ResourceModelPermissionsMixin.save self ∅) in
  ResourceModelPermissionsMixin.read_access_level saved = 4%Z
  /\ ResourceModelPermissionsMixin.edit_access_level saved = 3%Z
  /\ ResourceModelPermissionsMixin.delete_access_level saved = 3%Z
  /\ snd (ResourceModelPermissionsMixin.save self ∅) !! 1 = Some saved
  /\ (ResourceModelPermissionsMixin.edit_access_level saved
      < ResourceModelPermissionsMixin.read_access_level saved)%Z
  /\ ~ ResourceModelPermissionsMixin.levels_valid saved.
Proof.
  cbv zeta.
  split; [reflexivity|]. split; [reflexivity|]. split; [reflexivity|].
  split; [apply lookup_insert_eq|]. split; [reflexivity|].
  unfold ResourceModelPermissionsMixin.levels_valid. cbn. lia.
Qed.

(** ** Membership *)

Lemma existsb_eqb_In {A : Type} (key : A -> nat) (x : A) (l : list A) :
  existsb (fun y => Nat.eqb (key x) (key y)) l = true
  <-> exists y, In y l /\ key y = key x.
Proof.
  rewrite existsb_exists. split.
  - intros [y [Hin Heq]]. exists y. split; [exact Hin|].
    apply Nat.eqb_eq in Heq. congruence.
  - intros [y [Hin Heq]]. exists y. split; [exact Hin|].
    apply Nat.eqb_eq. congruence.
Qed.

Lemma lab_in_spec (l : Lab) (ls : list Lab) :
  lab_in l ls = true <-> exists l', In l' ls /\ lab_pk l' = lab_pk l.
Proof. apply (existsb_eqb_In lab_pk). Qed.

Lemma team_in_spec (tm : Team) (ts : list Team) :
  team_in tm ts = true <-> exists t', In t' ts /\ team_pk t' = team_pk tm.
Proof. apply (existsb_eqb_In team_pk). Qed.

Lemma group_in_spec (g : GroupProxy) (gs : list GroupProxy) :
  group_in g gs = true <-> exists g', In g' gs /\ group_pk g' = group_pk g.
Proof. apply (existsb_eqb_In group_pk). Qed.

Lemma In_attr_list {A : Type} (o : option A) (a : A) :
  In a (attr_list o) <-> o = Some a.
Proof.
  destruct o as [b|]; cbn; split; try tauto; try congruence.
  - intros [H|[]]; congruence.
  - intros H; left; congruence.
Qed.

(** The teams [user_teams] collects, with and without [editable]. *)
Lemma In_user_teams (u : User) (editable : bool) (tm : Team) :
  In tm (user_teams u editable)
  <-> exists g, In g (groups u)
        /\ (editable_team g = Some tm
            \/ (editable = false /\ readable_team g = Some tm)).
Proof.
  unfold user_teams. rewrite in_flat_map. split.
  - intros [g [Hg Hin]]. exists g. split; [exact Hg|].
    apply in_app_or in Hin. destruct Hin as [Hin|Hin].
    + left. now apply In_attr_list.
    + right. destruct editable; cbn in Hin; [contradiction|].
      split; [reflexivity|]. now apply In_attr_list.
  - intros [g [Hg Hcase]]. exists g. split; [exact Hg|].
    apply in_or_app. destruct Hcase as [He|[-> Hr]].
    + left. now apply In_attr_list.
    + right. cbn. now apply In_attr_list.
Qed.

Lemma team_in_user_teams (u : User) (tm : Team) :
  team_in tm (user_teams u false) = true <-> on_team u tm.
Proof.
  rewrite team_in_spec. unfold on_team. split.
  - intros [t' [Hin Hpk]]. apply In_user_teams in Hin.
    destruct Hin as [g [Hg Hcase]]. exists g, t'. repeat split; try assumption.
    destruct Hcase as [He|[_ Hr]]; [left|right]; assumption.
  - intros [g [t' [Hg [Hcase Hpk]]]]. exists t'. split; [|exact Hpk].
    apply In_user_teams. exists g. split; [exact Hg|].
    destruct Hcase as [He|Hr]; [left|right]; auto.
Qed.

Lemma lab_in_app (l : Lab) (a b : list Lab) :
  lab_in l (a ++ b) = lab_in l a || lab_in l b.
Proof. unfold lab_in. apply existsb_app. Qed.

Lemma lab_eqb_trans (a b c : Lab) :
  lab_eqb a b = true -> lab_eqb b c = true -> lab_eqb a c = true.
Proof.
  unfold lab_eqb. rewrite !Nat.eqb_eq. congruence.
Qed.

(** The loop that appends the teams' labs adds, up to primary keys, exactly
    the labs of the teams. *)
Lemma lab_in_fold_append (l : Lab) (ts : list Team) (labs : list Lab) :
  lab_in l (fold_left append_team_lab ts labs)
  = lab_in l labs || existsb (fun t => lab_eqb l (team_lab t)) ts.
Proof.
  revert labs. induction ts as [|t ts IH]; intros labs; cbn [fold_left existsb].
  - now rewrite orb_false_r.
  - rewrite IH. unfold append_team_lab.
    destruct (lab_in (team_lab t) labs) eqn:Hpresent; cbn [negb].
    + destruct (lab_eqb l (team_lab t)) eqn:Heq; cbn [orb]; [|reflexivity].
      assert (Hl : lab_in l labs = true).
      { apply lab_in_spec. apply lab_in_spec in Hpresent.
        destruct Hpresent as [l' [Hin Hpk]]. exists l'. split; [exact Hin|].
        unfold lab_eqb in Heq. apply Nat.eqb_eq in Heq. congruence. }
      rewrite Hl. reflexivity.
    + rewrite lab_in_app. unfold lab_in. cbn [existsb].
      rewrite orb_false_r. now rewrite orb_assoc.
Qed.

Lemma lab_in_user_labs (u : User) (l : Lab) :
  lab_in l (user_labs u false) = true <-> in_lab u l.
Proof.
  unfold user_labs, in_lab.
  rewrite lab_in_fold_append, orb_true_iff, lab_in_spec, existsb_exists.
  split; (intros [H|H]; [left|right]).
  - destruct H as [l' [Hin Hpk]]. apply in_flat_map in Hin.
    destruct Hin as [g [Hg Hin]]. apply In_attr_list in Hin.
    exists g, l'. auto.
  - destruct H as [t' [Hin Heq]]. apply In_user_teams in Hin.
    destruct Hin as [g [Hg Hcase]]. exists g, t'.
    unfold lab_eqb in Heq. apply Nat.eqb_eq in Heq.
    repeat split; auto.
    destruct Hcase as [He|[_ Hr]]; [left|right]; assumption.
  - destruct H as [g [l' [Hg [He Hpk]]]]. exists l'. split; [|exact Hpk].
    apply in_flat_map. exists g. split; [exact Hg|]. now apply In_attr_list.
  - destruct H as [g [t' [Hg [Hcase Hpk]]]]. exists t'. split.
    + apply In_user_teams. exists g. split; [exact Hg|].
      destruct Hcase as [He|Hr]; [left|right]; auto.
    + unfold lab_eqb. apply Nat.eqb_eq. congruence.
Qed.

(** [len(labs) > 0] says the caller belongs to some lab. *)
Lemma user_approved_spec (u : User) :
  Nat.ltb 0 (length (user_labs u false)) = true <-> in_some_lab u.
Proof.
  unfold in_some_lab. split.
  - intros Hlen. apply Nat.ltb_lt in Hlen.
    destruct (user_labs u false) as [|l ls] eqn:Hlabs; [cbn in Hlen; lia|].
    exists l. apply lab_in_user_labs. rewrite Hlabs. cbn.
    unfold lab_eqb. now rewrite Nat.eqb_refl.
  - intros [l Hl]. apply lab_in_user_labs in Hl. apply Nat.ltb_lt.
    destruct (user_labs u false); [discriminate Hl | cbn; lia].
Qed.

(** ** The generic resource listing *)

(** [filter_list_queryset] keeps the rows of the queryset, in order, that
    satisfy its [Q]. *)
Lemma filter_list_queryset_In (request : Request)
    (queryset : list ResourceModelPermissionsMixin.t)
    (row : ResourceModelPermissionsMixin.t) :
  In row (ResourceFilterBackend.filter_list_queryset request queryset)
  <-> In row queryset
      /\ (((match ResourceModelPermissionsMixin.team row with
            | Some tm => team_in tm (user_teams (user request) false)
            | None => false
            end = true
            \/ (ResourceModelPermissionsMixin.read_access_level row = value LAB_MEMBER
                /\ match ResourceModelPermissionsMixin.team row with
                   | Some tm => lab_in (team_lab tm) (user_labs (user request) false)
                   | None => false
                   end = true))
           \/ (ResourceModelPermissionsMixin.read_access_level row = value REGISTERED_USER
               /\ Nat.ltb 0 (length (user_labs (user request) false)) = true))
          \/ ResourceModelPermissionsMixin.read_access_level row = value ANONYMOUS).
Proof.
  unfold ResourceFilterBackend.filter_list_queryset, QuerySet.filter.
  rewrite filter_In. cbn [QuerySet.holds].
  rewrite !orb_true_iff, !andb_true_iff, !Z.eqb_eq, negb_involutive.
  tauto.
Qed.

(** C2.  The generic resource list filter keeps a row of the queryset
    exactly when the caller is on the row's team, or the row's read level is
    LAB_MEMBER and the caller belongs to the lab of the row's team, or the
    read level is REGISTERED_USER and the caller belongs to at least one
    lab, or the read level is ANONYMOUS.  In particular, for a caller who is
    on no team and in no lab, the rows kept are exactly the ANONYMOUS ones. *)
Theorem C2_resource_filter_lists_exactly :
  (forall (request : Request) (queryset : list ResourceModelPermissionsMixin.t)
          (row : ResourceModelPermissionsMixin.t),
      In row (ResourceFilterBackend.filter_list_queryset request queryset)
      <-> In row queryset /\ listed_for (user request) row)
  /\ (forall (request : Request) (queryset : list ResourceModelPermissionsMixin.t)
             (row : ResourceModelPermissionsMixin.t),
         (forall tm, ~ on_team (user request) tm) ->
         (forall l, ~ in_lab (user request) l) ->
         (In row (ResourceFilterBackend.filter_list_queryset request queryset)
          <-> In row queryset
              /\ ResourceModelPermissionsMixin.read_access_level row = value ANONYMOUS)).
Proof.
  assert (Hmain : forall request queryset row,
             In row (ResourceFilterBackend.filter_list_queryset request queryset)
             <-> In row queryset /\ listed_for (user request) row).
  { intros request queryset row. rewrite filter_list_queryset_In.
    unfold listed_for. rewrite user_approved_spec.
    destruct (ResourceModelPermissionsMixin.team row) as [tm|] eqn:Hteam.
    - rewrite team_in_user_teams, lab_in_user_labs. split.
      + intros [Hin [[[H|[H1 H2]]|H]|H]]; split; auto.
        * left. exists tm. auto.
        * right; left. split; [exact H1|]. exists tm. auto.
      + intros [Hin [[tm' [Heq H]]|[[H1 [tm' [Heq H2]]]|[H|H]]]]; split; auto.
        * injection Heq as <-. auto.
        * injection Heq as <-. auto.
    - split.
      + intros [Hin [[[H|[H1 H2]]|H]|H]]; try discriminate; split; auto.
      + intros [Hin [[tm' [Heq H]]|[[H1 [tm' [Heq H2]]]|[H|H]]]];
          try discriminate; split; auto. }
  split; [exact Hmain|].
  intros request queryset row Hnoteam Hnolab. rewrite Hmain.
  unfold listed_for, in_some_lab. split.
  - intros [Hin [[tm [_ H]]|[[_ [tm [_ H]]]|[[_ [l H]]|H]]]]; split; auto.
    + exfalso. exact (Hnoteam _ H).
    + exfalso. exact (Hnolab _ H).
    + exfalso. exact (Hnolab _ H).
  - intros [Hin H]. split; auto.
Qed.

(** An anonymous caller, a queryset of one ANONYMOUS row and one LAB_MEMBER
    row of team 5: the first is listed, the second is not. *)
Lemma C2_anonymous_row_witness :
  let anonymous_user :=
    {| is_authenticated := false; is_staff := false; is_superuser := false;
       groups := [] |} in
  let open_row :=
    {| ResourceModelPermissionsMixin.pk := 1;
       ResourceModelPermissionsMixin.team := None;
       ResourceModelPermissionsMixin.delete_access_level := value TEAM_MEMBER;
       ResourceModelPermissionsMixin.edit_access_level := value TEAM_MEMBER;
       ResourceModelPermissionsMixin.read_access_level := value ANONYMOUS |} in
  let lab_row :=
    {| ResourceModelPermissionsMixin.pk := 2;
       ResourceModelPermissionsMixin.team :=
         Some {| team_pk := 5; team_lab := {| lab_pk := 9 |} |};
       ResourceModelPermissionsMixin.delete_access_level := value TEAM_MEMBER;
       ResourceModelPermissionsMixin.edit_access_level := value TEAM_MEMBER;
       ResourceModelPermissionsMixin.read_access_level := value LAB_MEMBER |} in
  In open_row
     (ResourceFilterBackend.filter_list_queryset
        {| user := anonymous_user |} [open_row; lab_row])
  /\ ResourceFilterBackend.filter_list_queryset
       {| user := anonymous_user |} [open_row; lab_row] = [open_row].
Proof.
  cbv zeta. split; [|reflexivity].
  apply (proj2 C2_resource_filter_lists_exactly).
  - intros tm [g [t' [Hin _]]]. destruct Hin.
  - intros l [[g [l' [Hin _]]]|[g [t' [Hin _]]]]; destruct Hin.
  - split; [left; reflexivity | reflexivity].
Defined.

(** ** Groups without an owner *)

Lemma get_owner_None_iff (g : GroupProxy) :
  GroupProxy.get_owner g = None
  <-> editable_lab g = None /\ editable_team g = None /\ readable_team g = None.
Proof.
  unfold GroupProxy.get_owner.
  destruct (editable_lab g), (editable_team g), (readable_team g);
    split; try discriminate; try tauto;
    intros [H1 [H2 H3]]; discriminate.
Qed.

(** C9.  A group with no owner ([get_owner] is [None]: it is no lab's admin
    group and no team's admin or member group) grants object write
    permission to no request, whatever the user's flags and memberships,
    and grants object read permission exactly to the members of the group. *)
Theorem C9_ownerless_group_permissions (g : GroupProxy) (request : Request) :
  GroupProxy.get_owner g = None ->
  GroupProxy.has_object_write_permission g request = false
  /\ (GroupProxy.has_object_read_permission g request = true
      <-> member_of_group (user request) g).
Proof.
  intros Howner.
  unfold GroupProxy.has_object_write_permission,
    GroupProxy.has_object_read_permission.
  rewrite Howner. split; [reflexivity|].
  unfold member_of_group. apply group_in_spec.
Qed.

(** Group 7 has no back-reference; a superuser and staff member who belongs
    to it is refused write access and granted read access. *)
Lemma C9_ownerless_group_witness :
  let g := {| group_pk := 7; editable_lab := None; editable_team := None;
              readable_team := None |} in
  let request :=
    {| user := {| is_authenticated := true; is_staff := true;
                  is_superuser := true; groups := [g] |} |} in
  GroupProxy.get_owner g = None
  /\ GroupProxy.has_object_write_permission g request = false
  /\ (GroupProxy.has_object_read_permission g request = true
      <-> member_of_group (user request) g).
Proof.
  cbv zeta. split; [reflexivity|].
  apply C9_ownerless_group_permissions. reflexivity.
Defined.

(** ** Path matching *)

Lemma prefix_is_prefixed_by (parent child : string) :
  String.prefix parent child = true <-> is_prefixed_by child parent.
Proof.
  unfold is_prefixed_by. revert child.
  induction parent as [|a parent IH]; intros child.
  - cbn. destruct child; split; intros _; try reflexivity; eexists; reflexivity.
  - destruct child as [|b child]; cbn.
    + split; [discriminate|]. intros [rest H]. discriminate H.
    + destruct (ascii_dec a b) as [->|Hne].
      * rewrite IH. split; intros [rest H]; exists rest.
        -- now rewrite H.
        -- now injection H.
      * split; [discriminate|]. intros [rest H]. injection H as Hab _.
        congruence.
Qed.

(** C3.  Whatever [os.path.relpath] and [re.search] do, [paths_match]
    returns [True] exactly when [child] is prefixed by [parent] and either
    no regex is given or the regex is found in the path of [child] relative
    to [parent].  With the POSIX [relpath] and the regular expressions of
    the examples, [paths_match("/data/lab1", "/data/lab1/run3/file.csv",
    ".*\.csv$")] is [True] from every working directory, and
    [paths_match("/data/lab1", "/data/lab2/file.csv", ".*")] is [False]
    already on the prefix test. *)
Theorem C3_paths_match_spec :
  (forall (relpath : string -> string -> option string)
          (re_search : string -> string -> option bool)
          (parent child : string) (regex : option string),
      MonitoredPath.paths_match relpath re_search parent child regex = Returns true
      <-> is_prefixed_by child parent
          /\ (regex = None
              \/ exists r rel, regex = Some r
                   /\ relpath child parent = Some rel
                   /\ re_search r rel = Some true))
  /\ (forall cwd : string,
         MonitoredPath.paths_match (PosixPath.relpath cwd) PyRe.search
           "/data/lab1" "/data/lab1/run3/file.csv" (Some ".*\.csv$"%string)
         = Returns true)
  /\ (forall (relpath : string -> string -> option string)
             (re_search : string -> string -> option bool),
         MonitoredPath.paths_match relpath re_search
           "/data/lab1" "/data/lab2/file.csv" (Some ".*"%string)
         = Returns false).
Proof.
  split; [|split].
  - intros relpath re_search parent child regex.
    unfold MonitoredPath.paths_match, MonitoredPath.startswith.
    rewrite <- prefix_is_prefixed_by.
    destruct (String.prefix parent child); cbn.
    + destruct regex as [r|].
      * destruct (relpath child parent) as [rel|] eqn:Hrel.
        -- destruct (re_search r rel) as [found|] eqn:Hfound.
           ++ split.
              ** intros H. injection H as ->. split; [reflexivity|].
                 right. exists r, rel. auto.
              ** intros [_ [H|[r' [rel' [Hr [Hrel' Hfound']]]]]]; [discriminate|].
                 injection Hr as <-.
                 injection Hrel' as <-. rewrite Hfound in Hfound'.
                 now injection Hfound' as ->.
           ++ split; [discriminate|].
              intros [_ [H|[r' [rel' [Hr [Hrel' Hfound']]]]]]; [discriminate|].
              injection Hr as <-.
              injection Hrel' as <-. rewrite Hfound in Hfound'. discriminate.
        -- split; [discriminate|].
           intros [_ [H|[r' [rel' [Hr [Hrel' _]]]]]]; discriminate.
      * split; auto.
    + split; [discriminate|]. intros [H _]. discriminate H.
  - intros cwd. reflexivity.
  - intros relpath re_search. reflexivity.
Qed.

(** ** Time-series dispatch *)

(** C4.  [get_timeseries_handler_by_type] returns the float table for
    ["float"], the string table for ["str"], the integer table for ["int"],
    and raises [UnsupportedTimeseriesDataTypeError] for every other
    string. *)
Theorem C4_get_timeseries_handler_by_type_spec :
  get_timeseries_handler_by_type "float" = Returns TimeseriesDataFloat
  /\ get_timeseries_handler_by_type "str" = Returns TimeseriesDataStr
  /\ get_timeseries_handler_by_type "int" = Returns TimeseriesDataInt
  /\ (forall data_type : string,
         data_type <> "float"%string ->
         data_type <> "str"%string ->
         data_type <> "int"%string ->
         get_timeseries_handler_by_type data_type
         = Raises UnsupportedTimeseriesDataTypeError).
Proof.
  repeat (split; [reflexivity|]).
  intros data_type Hfloat Hstr Hint.
  unfold get_timeseries_handler_by_type.
  destruct (String.eqb_spec data_type "float"); [contradiction|].
  destruct (String.eqb_spec data_type "str"); [contradiction|].
  destruct (String.eqb_spec data_type "int"); [contradiction|].
  reflexivity.
Qed.

(** The label ["double"] is none of the three, so the call raises. *)
Lemma C4_unsupported_label_witness :
  get_timeseries_handler_by_type "double"
  = Raises UnsupportedTimeseriesDataTypeError.
Proof.
  apply (proj2 (proj2 (proj2 C4_get_timeseries_handler_by_type_spec)));
    discriminate.
Defined.

(** ** Schema validation *)

(** The scan finds nothing when no attribute of the module is a serializer
    class that declares the target's model class. *)
Lemma find_serializer_None (module_attrs : list SchemaValidation.module_attr)
    (model_class : option ModelClass) :
  (forall name m, In (SchemaValidation.SerializerClass name (Some (Some m))) module_attrs ->
                  model_class <> Some m) ->
  SchemaValidation.find_serializer module_attrs model_class = None.
Proof.
  intros Hnone. unfold SchemaValidation.find_serializer.
  induction module_attrs as [|x xs IH]; [reflexivity|].
  cbn [find].
  assert (Hx : SchemaValidation.declares_model x model_class = false).
  { destruct x as [| |name [[m|]|]]; try reflexivity.
    destruct model_class as [c|]; [|reflexivity]. cbn.
    destruct (String.eqb_spec m c) as [->|]; [|reflexivity].
    exfalso. apply (Hnone name c); [now left | reflexivity]. }
  rewrite Hx. apply IH. intros name m Hin. apply (Hnone name m). now right.
Qed.

(** C5.  When no serializer class of [galv.serializers] declares the
    target's model class, [validate] returns without raising, for either
    value of [halt_on_error]; it leaves the status at ERROR and the detail
    at the text "Could not find serializer for <model class>", and changes
    no other field, nor the schema's document. *)
Theorem C5_validate_without_serializer
    (galv_serializers : list SchemaValidation.module_attr)
    (serialize : SchemaValidation.module_attr -> SchemaValidation.t
                 -> SchemaValidation.serialized)
    (jsonschema_validate : json -> json -> SchemaValidation.run_end)
    (halt_on_error : bool) (self : SchemaValidation.t) (document : json) :
  (forall name m,
      In (SchemaValidation.SerializerClass name (Some (Some m))) galv_serializers ->
      SchemaValidation.content_type self <> Some m) ->
  SchemaValidation.validate galv_serializers serialize jsonschema_validate
    halt_on_error self document
  = (SchemaValidation.Done
       {| SchemaValidation.pk := SchemaValidation.pk self;
          SchemaValidation.schema := SchemaValidation.schema self;
          SchemaValidation.content_type := SchemaValidation.content_type self;
          SchemaValidation.object_id := SchemaValidation.object_id self;
          SchemaValidation.status := ERROR;
          SchemaValidation.detail :=
            Some (DetailText
                    (String.append "Could not find serializer for "
                       (model_class_str (SchemaValidation.content_type self)))) |},
     document).
Proof.
  intros Hnone. unfold SchemaValidation.validate.
  rewrite (find_serializer_None _ _ Hnone). reflexivity.
Qed.

(** A row for an [ObservedFile] while the module only offers a serializer
    for [Cell], one without [Meta], and a non-class attribute; the second
    half of [validate] would crash, and [halt_on_error] is set. *)
Lemma C5_validate_without_serializer_witness :
  SchemaValidation.validate
    [SchemaValidation.NotAClass;
     SchemaValidation.SerializerClass "CellSerializer" (Some (Some "galv.models.models.Cell"%string));
     SchemaValidation.SerializerClass "WithOwnershipMixin" None;
     SchemaValidation.OtherClass]
    (fun _ _ => SchemaValidation.SerializerCrashed "boom")
    (fun _ _ => SchemaValidation.Crashed "boom")
    true
    {| SchemaValidation.pk := 3; SchemaValidation.schema := 8;
       SchemaValidation.content_type := Some "galv.models.models.ObservedFile"%string;
       SchemaValidation.object_id := "f1";
       SchemaValidation.status := VALID;
       SchemaValidation.detail := None |}
    (JObject [("$defs"%string, JObject [])])
  = (SchemaValidation.Done
       {| SchemaValidation.pk := 3; SchemaValidation.schema := 8;
          SchemaValidation.content_type := Some "galv.models.models.ObservedFile"%string;
          SchemaValidation.object_id := "f1";
          SchemaValidation.status := ERROR;
          SchemaValidation.detail :=
            Some (DetailText
                    "Could not find serializer for <class 'galv.models.models.ObservedFile'>") |},
     JObject [("$defs"%string, JObject [])]).
Proof.
  apply (C5_validate_without_serializer _ _ _ true).
  intros name m Hin. cbn in Hin.
  destruct Hin as [H|[H|[H|[H|[]]]]]; try discriminate H.
  injection H as _ <-. discriminate.
Defined.

(** The same module does serve a [Cell]: there the second half runs.  A
    crash of [jsonschema.validate] is re-raised or recorded according to
    [halt_on_error]; by then the schema's document has been rewritten. *)
Example validate_with_serializer_crash (halt_on_error : bool) :
  let attrs :=
    [SchemaValidation.NotAClass;
     SchemaValidation.SerializerClass "CellSerializer"
       (Some (Some "galv.models.models.Cell"%string))] in
  let row :=
    {| SchemaValidation.pk := 3; SchemaValidation.schema := 8;
       SchemaValidation.content_type := Some "galv.models.models.Cell"%string;
       SchemaValidation.object_id := "c1";
       SchemaValidation.status := UNCHECKED;
       SchemaValidation.detail := None |} in
  SchemaValidation.validate attrs
    (fun _ _ => SchemaValidation.Serialized (JObject []))
    (fun _ _ => SchemaValidation.Crashed "boom")
    halt_on_error row
    (JObject [("type"%string, JString "object"); ("$defs"%string, JObject [])])
  = (if halt_on_error
     then SchemaValidation.Raised (OtherException "boom") row
     else SchemaValidation.Done
            (SchemaValidation.set_status_detail ERROR
               (Some (DetailMessage "Error running validation: boom")) row),
     JObject [("type"%string, JString "array"); ("$defs"%string, JObject []);
              ("items"%string,
               JObject [("$ref"%string, JString "#/$defs/Cell")])]).
Proof. destruct halt_on_error; reflexivity. Qed.

(** The bulk update rewrites the rows of one schema and no other. *)
Lemma lookup_filter_schema_update (schema_pk : nat) (s : ValidationStatus)
    (d : option detail_value) (table : gmap nat SchemaValidation.t) (k : nat) :
  SchemaValidation.filter_schema_update schema_pk s d table !! k
  = (fun row => if Nat.eqb (SchemaValidation.schema row) schema_pk
                then SchemaValidation.set_status_detail s d row else row)
      <$> table !! k.
Proof. unfold SchemaValidation.filter_schema_update. apply lookup_fmap. Qed.

Lemma save_keeps_pk (self : ValidationSchema.t) (db : Database) :
  ValidationSchema.pk (fst (ValidationSchema.save self db)) = ValidationSchema.pk self.
Proof.
  unfold ValidationSchema.save, ValidationSchema.pk,
    ResourceModelPermissionsMixin.save, ResourceModelPermissionsMixin.clamp_access_levels.
  cbn.
  destruct (_ >? _)%Z; cbn; destruct (_ >? _)%Z; reflexivity.
Qed.

(** C7.  [ValidationSchema.save] sets every [SchemaValidation] row that
    references the saved schema to status UNCHECKED and detail [None],
    whatever its status was, leaves the rows of other schemas as they were,
    and creates no row. *)
Theorem C7_validation_schema_save_resets
    (self : ValidationSchema.t) (db : Database) (k : nat) :
  let db' := snd (ValidationSchema.save self db) in
  (forall row,
      schema_validations db !! k = Some row ->
      SchemaValidation.schema row = ValidationSchema.pk self ->
      schema_validations db' !! k
      = Some {| SchemaValidation.pk := SchemaValidation.pk row;
                SchemaValidation.schema := SchemaValidation.schema row;
                SchemaValidation.content_type := SchemaValidation.content_type row;
                SchemaValidation.object_id := SchemaValidation.object_id row;
                SchemaValidation.status := UNCHECKED;
                SchemaValidation.detail := None |})
  /\ (forall row,
         schema_validations db !! k = Some row ->
         SchemaValidation.schema row <> ValidationSchema.pk self ->
         schema_validations db' !! k = Some row)
  /\ (schema_validations db !! k = None -> schema_validations db' !! k = None).
Proof.
  cbv zeta.
  assert (Hdb : schema_validations (snd (ValidationSchema.save self db))
                = SchemaValidation.filter_schema_update (ValidationSchema.pk self)
                    UNCHECKED None (schema_validations db)).
  { rewrite <- (save_keeps_pk self db). unfold ValidationSchema.save.
    destruct (ResourceModelPermissionsMixin.save _ _). reflexivity. }
  rewrite Hdb, lookup_filter_schema_update.
  split; [|split].
  - intros row Hrow Href. rewrite Hrow. cbn.
    apply Nat.eqb_eq in Href. now rewrite Href.
  - intros row Hrow Href. rewrite Hrow. cbn.
    apply Nat.eqb_neq in Href. now rewrite Href.
  - intros Hnone. now rewrite Hnone.
Qed.

(** Schema 8 is saved while row 1 (INVALID, with a detail) references it and
    row 2 (VALID) references schema 9: row 1 is reset, row 2 is untouched. *)
Lemma C7_validation_schema_save_witness :
  let schema8 :=
    {| ValidationSchema.resource :=
         {| ResourceModelPermissionsMixin.pk := 8;
            ResourceModelPermissionsMixin.team := None;
            ResourceModelPermissionsMixin.delete_access_level := value TEAM_MEMBER;
            ResourceModelPermissionsMixin.edit_access_level := value TEAM_MEMBER;
            ResourceModelPermissionsMixin.read_access_level := value LAB_MEMBER |};
       ValidationSchema.name := "cells";
       ValidationSchema.schema := "{}" |} in
  let row1 :=
    {| SchemaValidation.pk := 1; SchemaValidation.schema := 8;
       SchemaValidation.content_type := Some "galv.models.models.Cell"%string;
       SchemaValidation.object_id := "c1";
       SchemaValidation.status := INVALID;
       SchemaValidation.detail := Some (DetailErrorTree "missing identifier") |} in
  let row2 :=
    {| SchemaValidation.pk := 2; SchemaValidation.schema := 9;
       SchemaValidation.content_type := Some "galv.models.models.Cell"%string;
       SchemaValidation.object_id := "c1";
       SchemaValidation.status := VALID;
       SchemaValidation.detail := None |} in
  let db := {| resources := ∅;
               schema_validations := <[1 := row1]> (<[2 := row2]> ∅) |} in
  let db' := snd (ValidationSchema.save schema8 db) in
  schema_validations db' !! 1
  = Some (SchemaValidation.set_status_detail UNCHECKED None row1)
  /\ schema_validations db' !! 2 = Some row2.
Proof.
  cbv zeta. split.
  - apply (proj1 (C7_validation_schema_save_resets _ _ 1)); reflexivity.
  - apply (proj1 (proj2 (C7_validation_schema_save_resets _ _ 2)));
      [reflexivity | discriminate].
Defined.

(** ** Harvester API keys *)

Lemma length_choices (random_index : nat -> nat) (population : pystr) (k : nat) :
  length (choices random_index population k) = k.
Proof. unfold choices. now rewrite List.length_map, List.length_seq. Qed.

(** Every character drawn is a character of the population. *)
Lemma choices_from_population (random_index : nat -> nat) (population : pystr)
    (k : nat) (c : N) :
  population <> [] ->
  In c (choices random_index population k) -> In c population.
Proof.
  intros Hne Hin. unfold choices in Hin. apply in_map_iff in Hin.
  destruct Hin as [i [<- _]]. apply nth_In.
  apply Nat.mod_upper_bound. destruct population; [contradiction | cbn; lia].
Qed.

Lemma text_in_key_alphabet : Forall in_key_alphabet Harvester.text.
Proof.
  let chars := eval vm_compute in Harvester.text in
  change Harvester.text with chars.
  repeat (constructor;
          [unfold in_key_alphabet;
           first [ left; lia
                 | right; left; lia
                 | right; right; left; lia
                 | right; right; right; cbn;
                   repeat (first [left; reflexivity | right]) ] |]).
  constructor.
Qed.

Lemma startswith_app (p rest : pystr) : Harvester.startswith (p ++ rest) p = true.
Proof.
  induction p as [|c p IH]; [reflexivity|].
  cbn. now rewrite N.eqb_refl, IH.
Qed.

(** C8.  [Harvester.save] on a harvester without an API key sets a key that
    starts with "galv_hrv_", is 9 + 60 = 69 characters long, and whose
    remaining 60 characters all lie in a-zA-Z0-9!£$%^&*-=+; on a harvester
    that has a key it leaves the key as it is.  Either way the instance is
    written to its table. *)
Theorem C8_harvester_save_api_key
    (random_index : nat -> nat) (self : Harvester.t) (table : gmap nat Harvester.t) :
  let saved := fst (Harvester.save random_index self table) in
  (Harvester.api_key self = None ->
   exists body,
     Harvester.api_key saved = Some (codepoints "galv_hrv_" ++ body)
     /\ Harvester.startswith (codepoints "galv_hrv_" ++ body) (codepoints "galv_hrv_") = true
     /\ length (codepoints "galv_hrv_" ++ body) = 9 + 60
     /\ length body = 60
     /\ Forall in_key_alphabet body)
  /\ (forall k, Harvester.api_key self = Some k -> Harvester.api_key saved = Some k)
  /\ snd (Harvester.save random_index self table) !! Harvester.uuid self = Some saved.
Proof.
  cbv zeta. unfold Harvester.save. split; [|split].
  - intros Hnone. rewrite Hnone. cbn [fst Harvester.api_key Harvester.set_api_key].
    exists (choices random_index Harvester.text 60).
    split; [reflexivity|]. split; [apply startswith_app|].
    split; [rewrite List.length_app, length_choices; reflexivity|].
    split; [apply length_choices|].
    apply List.Forall_forall. intros c Hc.
    apply choices_from_population in Hc; [|discriminate].
    exact (proj1 (List.Forall_forall _ _) text_in_key_alphabet c Hc).
  - intros k Hk. rewrite Hk. exact Hk.
  - cbn [fst snd].
    destruct (Harvester.api_key self); cbn; apply lookup_insert_eq.
Qed.

(** A new harvester (no key) and one that already carries a key, saved with
    the draws 0, 7, 14, ... *)
Lemma C8_harvester_save_witness :
  let fresh :=
    {| Harvester.uuid := 1; Harvester.name := "h1"; Harvester.api_key := None;
       Harvester.sleep_time := 120; Harvester.active := true;
       Harvester.lab := {| lab_pk := 1 |} |} in
  let keyed :=
    {| Harvester.uuid := 2; Harvester.name := "h2";
       Harvester.api_key := Some (codepoints "galv_hrv_old");
       Harvester.sleep_time := 120; Harvester.active := true;
       Harvester.lab := {| lab_pk := 1 |} |} in
  (exists body,
      Harvester.api_key (fst (Harvester.save (fun i => i * 7) fresh ∅))
      = Some (codepoints "galv_hrv_" ++ body)
      /\ Harvester.startswith (codepoints "galv_hrv_" ++ body) (codepoints "galv_hrv_") = true
      /\ length (codepoints "galv_hrv_" ++ body) = 9 + 60
      /\ length body = 60
      /\ Forall in_key_alphabet body)
  /\ Harvester.api_key (fst (Harvester.save (fun i => i * 7) keyed ∅))
     = Some (codepoints "galv_hrv_old").
Proof.
  cbv zeta. split.
  - apply (proj1 (C8_harvester_save_api_key _ _ _)). reflexivity.
  - apply (proj1 (proj2 (C8_harvester_save_api_key _ _ _))). reflexivity.
Defined.

(** ** Activation tokens *)

(** *** The float comparison of [get_is_expired] *)

Section Float64Facts.

Import Float64.

Local Open Scope Z_scope.

Lemma round_half_even_ge (p q : Z) : 0 < q -> p / q <= round_half_even p q.
Proof.
  intros Hq. unfold round_half_even.
  destruct (2 * (p mod q) <? q); [lia|].
  destruct (q <? 2 * (p mod q)); [lia|].
  destruct (Z.even (p / q)); lia.
Qed.

Lemma round_half_even_le (p q K : Z) :
  0 < q -> p <= K * q -> round_half_even p q <= K.
Proof.
  intros Hq Hp. unfold round_half_even.
  pose proof (Z.div_mod p q ltac:(lia)) as Hdm.
  pose proof (Z.mod_pos_bound p q Hq) as Hr.
  assert (Hf : p / q <= K) by (apply Z.div_le_upper_bound; lia).
  destruct (Z.ltb_spec (2 * (p mod q)) q) as [H1|H1]; [exact Hf|].
  assert (Hlt : p / q < K) by nia.
  destruct (q <? 2 * (p mod q)); [lia|].
  destruct (Z.even (p / q)); lia.
Qed.

(** At the exponent chosen the scaled quotient is at least [2 ^ 52]. *)
Lemma exponent_of_spec (a d : Z) :
  0 < a -> 0 < d ->
  0 < snd (scaled a d (exponent_of a d))
  /\ 2 ^ 52 * snd (scaled a d (exponent_of a d))
     <= fst (scaled a d (exponent_of a d)).
Proof.
  intros Ha Hd. unfold exponent_of.
  pose proof (Z.log2_spec a Ha) as [Hla1 Hla2].
  pose proof (Z.log2_spec d Hd) as [Hld1 Hld2].
  pose proof (Z.log2_nonneg a) as Hla0.
  pose proof (Z.log2_nonneg d) as Hld0.
  set (la := Z.log2 a) in *. set (ld := Z.log2 d) in *.
  set (e0 := la - ld - 52).
  assert (Hpos : forall e, 0 < snd (scaled a d e)).
  { intros e. unfold scaled. destruct (Z.leb_spec 0 e); cbn [snd]; [|lia].
    apply Z.mul_pos_pos; [lia|]. apply Z.pow_pos_nonneg; lia. }
  destruct (scaled a d e0) as [p q] eqn:Hs.
  destruct (Z.leb_spec (2 ^ 52) (p / q)) as [Hge|Hlt].
  - rewrite Hs. cbn [fst snd]. specialize (Hpos e0). rewrite Hs in Hpos.
    cbn in Hpos. split; [exact Hpos|].
    pose proof (Z.mul_div_le p q Hpos). nia.
  - split; [apply Hpos|]. unfold scaled.
    destruct (Z.leb_spec 0 (e0 - 1)) as [He|He]; cbn [fst snd].
    + assert (Hpow : 2 ^ 52 * 2 ^ (ld + 1) * 2 ^ (e0 - 1) = 2 ^ la).
      { rewrite <- !Z.pow_add_r by lia. f_equal. unfold e0. lia. }
      assert (0 < 2 ^ (e0 - 1)) by (apply Z.pow_pos_nonneg; lia).
      nia.
    + assert (Hpow : 2 ^ la * 2 ^ (- (e0 - 1)) = 2 ^ 52 * 2 ^ (ld + 1)).
      { rewrite <- !Z.pow_add_r by lia. f_equal. unfold e0. lia. }
      assert (0 < 2 ^ (- (e0 - 1))) by (apply Z.pow_pos_nonneg; lia).
      nia.
Qed.

(** Against a threshold between 0 and [2 ^ 33] the rounded quotient of
    microseconds by [10 ** 6] compares as the exact quotient does. *)
Lemma gt_int_true_divide_exact (us E : Z) :
  0 <= E < 2 ^ 33 ->
  gt_int (true_divide us 1000000) E = (E * 1000000 <? us).
Proof.
  intros HE. unfold true_divide.
  destruct (Z.eqb_spec us 0) as [->|Hnz].
  - unfold gt_int. cbn [exponent mantissa]. cbn.
    destruct (Z.ltb_spec E 0), (Z.ltb_spec (E * 1000000) 0); lia.
  - destruct (scaled (Z.abs us) 1000000 (exponent_of (Z.abs us) 1000000))
      as [p q] eqn:Hs.
    pose proof (exponent_of_spec (Z.abs us) 1000000 ltac:(lia) ltac:(lia))
      as [Hq Hnorm].
    rewrite Hs in Hq, Hnorm. cbn [fst snd] in Hq, Hnorm.
    pose proof (round_half_even_ge p q Hq) as Hge.
    assert (Hfloor : 2 ^ 52 <= p / q) by (apply Z.div_le_lower_bound; lia).
    unfold gt_int. cbn [exponent mantissa].
    change (2 ^ 52) with 4503599627370496 in Hnorm, Hfloor.
    change (2 ^ 33) with 8589934592 in HE.
    set (e := exponent_of (Z.abs us) 1000000) in *.
    set (m := round_half_even p q) in *.
    destruct (Z.ltb_spec 0 us) as [Hpos|Hneg].
    + replace (Z.sgn us) with 1 by lia. replace (Z.abs us) with us in * by lia.
      rewrite Z.mul_1_l. unfold scaled in Hs.
      destruct (Z.leb_spec 0 e) as [He|He].
      * apply pair_equal_spec in Hs; destruct Hs as [<- <-].
        assert (Hpe : 1 <= 2 ^ e)
          by (pose proof (Z.pow_pos_nonneg 2 e ltac:(lia) He); lia).
        destruct (Z.ltb_spec E (m * 2 ^ e)), (Z.ltb_spec (E * 1000000) us);
          try reflexivity; exfalso.
        -- assert (1000000 * 1 <= 1000000 * 2 ^ e)
             by (apply Z.mul_le_mono_nonneg_l; lia).
           lia.
        -- assert (m * 1 <= m * 2 ^ e) by (apply Z.mul_le_mono_nonneg_l; lia).
           lia.
      * apply pair_equal_spec in Hs; destruct Hs as [<- <-].
        set (s := 2 ^ (- e)) in *.
        assert (Hs1 : 0 < s) by (apply Z.pow_pos_nonneg; lia).
        destruct (Z.ltb_spec (E * 1000000) us) as [Hlt|Hle].
        -- apply Z.ltb_lt.
           destruct (Z.le_gt_cases (- e) 19) as [Hsmall|Hbig].
           ++ assert (Hs19 : s <= 2 ^ 19) by (apply Z.pow_le_mono_r; lia).
              change (2 ^ 19) with 524288 in Hs19.
              assert (E * s <= 8589934591 * 524288)
                by (apply Z.mul_le_mono_nonneg; lia).
              lia.
           ++ assert (2 ^ 20 <= s) by (apply Z.pow_le_mono_r; lia).
              change (2 ^ 20) with 1048576 in *.
              assert (E * s + 1 <= us * s / 1000000).
              { apply Z.div_le_lower_bound; [lia|].
                assert ((E * 1000000 + 1) * s <= us * s)
                  by (apply Z.mul_le_mono_nonneg_r; lia).
                lia. }
              lia.
        -- apply Z.ltb_ge. apply round_half_even_le; [lia|]. nia.
    + assert (Hm : 0 <= m) by lia.
      replace (Z.sgn us) with (-1) by lia.
      assert (Hfalse : (E * 1000000 <? us) = false) by (apply Z.ltb_ge; lia).
      rewrite Hfalse.
      destruct (Z.leb_spec 0 e) as [He|He]; apply Z.ltb_ge.
      * pose proof (Z.pow_pos_nonneg 2 e ltac:(lia) He). nia.
      * pose proof (Z.pow_pos_nonneg 2 (- e) ltac:(lia) ltac:(lia)). nia.
Qed.

End Float64Facts.

(** Beyond that range the two part: with an expiry of 2e10 seconds, a token
    stamped one microsecond longer ago than the expiry is not expired, since
    the float nearest to 20000000000.000001 is 20000000000.0. *)
Example older_than_expiry_rounds :
  UserActivation.older_than_expiry 20000000000 20000000000000001 0 = false
  /\ UserActivation.older_than_expiry 900 900000001 0 = true
  /\ UserActivation.older_than_expiry 900 900000000 0 = false.
Proof. vm_compute. repeat split. Qed.

Section ActivationFacts.

Import UserActivation.

Variable now : nat -> Z.
Variable get_random_string : nat -> string.
Variable USER_ACTIVATION_TOKEN_EXPIRY_S : Z.

Local Abbreviation save :=
  (UserActivation.save now get_random_string USER_ACTIVATION_TOKEN_EXPIRY_S).
Local Abbreviation generate_token :=
  (UserActivation.generate_token now get_random_string USER_ACTIVATION_TOKEN_EXPIRY_S).
Local Abbreviation activate_user :=
  (UserActivation.activate_user now get_random_string USER_ACTIVATION_TOKEN_EXPIRY_S).

Ltac run_methods :=
  repeat
    (unfold UserActivation.activate_user, UserActivation.generate_token,
       generate_token_with, get_is_expired, bind, ret, raise, get, modify,
       super_save, user_save, set_user_is_active, timezone_now, draw_token,
       with_self, set_token, set_token_update_date, set_redemption_date;
     cbn -[UserActivation.older_than_expiry Z.sub Z.mul]).

Ltac open_world w :=
  destruct w as [[? ? ?] ? ? ? ? ?];
  cbn -[UserActivation.older_than_expiry Z.sub Z.mul] in *; subst.

(** With an active user [save] only writes the row. *)
Lemma save_active_user (depth : nat) (w : world) :
  user_is_active w = true ->
  save (S depth) w
  = Ret tt {| self := self w; user_is_active := user_is_active w;
              db_row := Some (self w); db_user_is_active := db_user_is_active w;
              clock_reads := clock_reads w; tokens_drawn := tokens_drawn w |}.
Proof. intros Hactive. open_world w. run_methods. reflexivity. Qed.

(** With an inactive user and a token that is not yet expired [save] reads
    the clock once and writes the row. *)
Lemma save_unexpired_token (depth : nat) (w : world) (tok : string) (stamp : Z) :
  user_is_active w = false ->
  token (self w) = Some tok ->
  token_update_date (self w) = Some stamp ->
  older_than_expiry USER_ACTIVATION_TOKEN_EXPIRY_S (now (clock_reads w)) stamp = false ->
  save (S depth) w
  = Ret tt {| self := self w; user_is_active := user_is_active w;
              db_row := Some (self w); db_user_is_active := db_user_is_active w;
              clock_reads := S (clock_reads w); tokens_drawn := tokens_drawn w |}.
Proof.
  intros Hactive Htok Hstamp Hfresh. open_world w. run_methods.
  rewrite Hfresh. reflexivity.
Qed.

(** For an expiry between 0 and [2 ^ 33] seconds the test of
    [get_is_expired] is the exact comparison of the microseconds. *)
Lemma older_than_expiry_exact (a b : Z) :
  (0 <= USER_ACTIVATION_TOKEN_EXPIRY_S < 2 ^ 33)%Z ->
  older_than_expiry USER_ACTIVATION_TOKEN_EXPIRY_S a b
  = (USER_ACTIVATION_TOKEN_EXPIRY_S * 1000000 <? a - b)%Z.
Proof.
  intros Hexpiry. unfold older_than_expiry, total_seconds.
  now apply gt_int_true_divide_exact.
Qed.

(** [save] never takes a token back, and the only exception it ends in is
    [RecursionError]. *)
Lemma save_draws_and_raises (depth : nat) :
  forall w : world,
    tokens_drawn w <= tokens_drawn (final_world (save depth w))
    /\ (raised (save depth w) = None
        \/ raised (save depth w) = Some RecursionError).
Proof.
  induction depth as [|depth IH]; intros w.
  - cbn. split; [lia | now right].
  - assert (Hnext : forall w', tokens_drawn w < tokens_drawn w' ->
              tokens_drawn w <= tokens_drawn (final_world (save depth w'))
              /\ (raised (save depth w') = None
                  \/ raised (save depth w') = Some RecursionError)).
    { intros w' Hlt. destruct (IH w') as [Hm Hr]. split; [lia | exact Hr]. }
    open_world w. run_methods.
    destruct user_is_active0; run_methods; [split; [lia | now left]|].
    destruct token0 as [tok|]; run_methods; [|apply Hnext; cbn; lia].
    destruct token_update_date0 as [stamp|]; run_methods;
      [|apply Hnext; cbn; lia].
    destruct (older_than_expiry USER_ACTIVATION_TOKEN_EXPIRY_S
                (now clock_reads0) stamp); run_methods.
    + apply Hnext. cbn. lia.
    + split; [lia | now left].
Qed.

Ltac split_all :=
  repeat match goal with |- _ /\ _ => split end.

Ltac settle :=
  repeat (split_all; intros);
  try reflexivity; try discriminate; try lia;
  try (eexists; split; [|reflexivity]; lia).

(** The nested [save] left over after two regenerations draws no token
    back. *)
Ltac after_second_draw :=
  match goal with
  | |- context [UserActivation.save ?a ?b ?c ?d ?w'] =>
      let Hm := fresh "Hm" in
      destruct (save_draws_and_raises d w') as [Hm _];
      cbn -[UserActivation.older_than_expiry Z.sub Z.mul] in Hm; lia
  end.

(** C10.  [save], with room for two nested activations.  When the user is
    active, or the token is present and unexpired, [save] writes the row and
    draws no token.  Otherwise it calls [generate_token], which saves again;
    that nested [save] tests the stamp [generate_token] has just set against
    the next clock reading.  If it finds the stamp unexpired, the call
    returns after exactly one regeneration; if it finds the stamp expired
    already, it regenerates again, and at least two tokens are drawn. *)
Theorem C10_save_settles_within_expiry (depth : nat) (w : world) :
  2 <= depth ->
  (save_regenerates now USER_ACTIVATION_TOKEN_EXPIRY_S w = false ->
   raised (save depth w) = None
   /\ self (final_world (save depth w)) = self w
   /\ tokens_drawn (final_world (save depth w)) = tokens_drawn w
   /\ db_row (final_world (save depth w)) = Some (self w))
  /\ (save_regenerates now USER_ACTIVATION_TOKEN_EXPIRY_S w = true ->
      nested_save_finds_expired now USER_ACTIVATION_TOKEN_EXPIRY_S
        (save_stamp_reading w) = false ->
      raised (save depth w) = None
      /\ regenerated_once now get_random_string w (final_world (save depth w))
      /\ token_update_date (self (final_world (save depth w)))
         = Some (now (save_stamp_reading w)))
  /\ (save_regenerates now USER_ACTIVATION_TOKEN_EXPIRY_S w = true ->
      nested_save_finds_expired now USER_ACTIVATION_TOKEN_EXPIRY_S
        (save_stamp_reading w) = true ->
      S (S (tokens_drawn w)) <= tokens_drawn (final_world (save depth w))).
Proof.
  intros Hdepth. destruct depth as [|[|depth]]; try lia. clear Hdepth.
  open_world w.
  unfold save_regenerates, expired_in, regenerated_once,
    nested_save_finds_expired, save_stamp_reading.
  run_methods.
  destruct user_is_active0; run_methods; [settle|].
  destruct token0 as [tok|]; run_methods.
  - destruct token_update_date0 as [stamp|]; run_methods.
    + destruct (older_than_expiry USER_ACTIVATION_TOKEN_EXPIRY_S
                  (now clock_reads0) stamp) eqn:Hexpired; run_methods;
        [|settle].
      split; [discriminate|]. split; intros _ Hnested; rewrite Hnested;
        run_methods; [settle | after_second_draw].
    + split; [discriminate|]. split; intros _ Hnested; rewrite Hnested;
        run_methods; [settle | after_second_draw].
  - split; [discriminate|]. split; intros _ Hnested; rewrite Hnested;
      run_methods; [settle | after_second_draw].
Qed.

(** C6.  [activate_user], with room for one nested activation of [save].
    If the token is expired, the call regenerates the token and raises
    [ValueError] with the "Activation token expired" message, before it
    looks at the user: exactly one token is drawn when the user is active,
    and, for an inactive user, when the [save] inside [generate_token] finds
    the new stamp unexpired at the next clock reading.  Otherwise, if the
    user is active, it raises [RuntimeError "User already active"] and
    changes nothing.  Otherwise it marks the user active and saves the user,
    stamps [redemption_date] with the next clock reading, writes the row,
    and returns; this needs nothing of the clock.  In the remaining case (an
    expired token, an inactive user, and a nested [save] that finds the new
    stamp expired already) at least two tokens are drawn and the call ends in
    the same [ValueError] or in [RecursionError]. *)
Theorem C6_activate_user_cases (depth : nat) (w : world) :
  1 <= depth ->
  (expired_in now USER_ACTIVATION_TOKEN_EXPIRY_S w = true ->
   (user_is_active w = false ->
    nested_save_finds_expired now USER_ACTIVATION_TOKEN_EXPIRY_S
      (activate_stamp_reading w) = false) ->
   raised (activate_user depth w) = Some (ValueError token_expired_message)
   /\ regenerated_once now get_random_string w (final_world (activate_user depth w)))
  /\ (expired_in now USER_ACTIVATION_TOKEN_EXPIRY_S w = false ->
      user_is_active w = true ->
      raised (activate_user depth w) = Some (RuntimeError "User already active")
      /\ self (final_world (activate_user depth w)) = self w
      /\ user_is_active (final_world (activate_user depth w)) = true
      /\ db_row (final_world (activate_user depth w)) = db_row w
      /\ db_user_is_active (final_world (activate_user depth w)) = db_user_is_active w
      /\ tokens_drawn (final_world (activate_user depth w)) = tokens_drawn w)
  /\ (expired_in now USER_ACTIVATION_TOKEN_EXPIRY_S w = false ->
      user_is_active w = false ->
      raised (activate_user depth w) = None
      /\ user_is_active (final_world (activate_user depth w)) = true
      /\ db_user_is_active (final_world (activate_user depth w)) = true
      /\ redemption_date (self (final_world (activate_user depth w)))
         = Some (now (S (clock_reads w)))
      /\ token (self (final_world (activate_user depth w))) = token (self w)
      /\ token_update_date (self (final_world (activate_user depth w)))
         = token_update_date (self w)
      /\ db_row (final_world (activate_user depth w))
         = Some (self (final_world (activate_user depth w)))
      /\ tokens_drawn (final_world (activate_user depth w)) = tokens_drawn w)
  /\ (expired_in now USER_ACTIVATION_TOKEN_EXPIRY_S w = true ->
      user_is_active w = false ->
      nested_save_finds_expired now USER_ACTIVATION_TOKEN_EXPIRY_S
        (activate_stamp_reading w) = true ->
      S (S (tokens_drawn w)) <= tokens_drawn (final_world (activate_user depth w))
      /\ (raised (activate_user depth w) = Some (ValueError token_expired_message)
          \/ raised (activate_user depth w) = Some RecursionError)).
Proof.
  intros Hdepth. destruct depth as [|depth]; try lia. clear Hdepth.
  open_world w.
  unfold expired_in, regenerated_once, nested_save_finds_expired,
    activate_stamp_reading.
  run_methods.
  assert (Hdeeper : forall w',
             S (S tokens_drawn0) <= tokens_drawn w' ->
             S (S tokens_drawn0)
             <= tokens_drawn
                  (final_world
                     (match save depth w' with
                      | Ret _ w'' => Exc (ValueError token_expired_message) w''
                      | Exc e w'' => Exc e w''
                      end : run unit))
             /\ (raised
                   (match save depth w' with
                    | Ret _ w'' => Exc (ValueError token_expired_message) w''
                    | Exc e w'' => Exc e w''
                    end : run unit)
                 = Some (ValueError token_expired_message)
                 \/ raised
                      (match save depth w' with
                       | Ret _ w'' => Exc (ValueError token_expired_message) w''
                       | Exc e w'' => Exc e w''
                       end : run unit)
                    = Some RecursionError)).
  { intros w' Hdrawn. destruct (save_draws_and_raises depth w') as [Hm Hr].
    destruct (UserActivation.save now get_random_string
                USER_ACTIVATION_TOKEN_EXPIRY_S depth w') as [[] w''|e w''];
      cbn in Hm, Hr |- *.
    - split; [lia | now left].
    - split; [lia|]. right. destruct Hr as [Hr|Hr]; [discriminate | exact Hr]. }
  destruct token_update_date0 as [stamp|]; run_methods.
  - destruct (older_than_expiry USER_ACTIVATION_TOKEN_EXPIRY_S
                (now clock_reads0) stamp) eqn:Hexpired; run_methods.
    + destruct user_is_active0; run_methods; [settle|].
      split; [|split; [discriminate|split; [discriminate|]]].
      * intros _ Hnested. rewrite (Hnested eq_refl). run_methods. settle.
      * intros _ _ Hnested. rewrite Hnested. run_methods.
        apply Hdeeper. cbn. lia.
    + destruct user_is_active0; run_methods; settle.
  - destruct user_is_active0; run_methods; [settle|].
    split; [|split; [discriminate|split; [discriminate|]]].
    + intros _ Hnested. rewrite (Hnested eq_refl). run_methods. settle.
    + intros _ _ Hnested. rewrite Hnested. run_methods.
      apply Hdeeper. cbn. lia.
Qed.

(** When every later reading counts as expired against every earlier one,
    [save] for an inactive user whose token is missing, unstamped or stamped
    by an earlier reading never settles: whatever room the interpreter has,
    the call ends in [RecursionError]. *)
Lemma save_never_settles_on_runaway_clock (depth : nat) :
  (forall j k, j < k ->
     older_than_expiry USER_ACTIVATION_TOKEN_EXPIRY_S (now k) (now j) = true) ->
  forall w : world,
    user_is_active w = false ->
    (token (self w) = None
     \/ token_update_date (self w) = None
     \/ exists j, j < clock_reads w /\ token_update_date (self w) = Some (now j)) ->
    raised (save depth w) = Some RecursionError.
Proof.
  intros Hrunaway. induction depth as [|depth IH]; intros w Hactive Hstale.
  - reflexivity.
  - assert (Hnext : forall w', user_is_active w' = false ->
              (exists j, j < clock_reads w'
                         /\ token_update_date (self w') = Some (now j)) ->
              raised (save depth w') = Some RecursionError).
    { intros w' Ha Hj. apply IH; auto. }
    open_world w. run_methods.
    assert (Hregen : forall draws reads tok0 red0 row0,
               raised
                 (UserActivation.save now get_random_string
                    USER_ACTIVATION_TOKEN_EXPIRY_S depth
                    {| self := {| token := tok0;
                                  token_update_date := Some (now reads);
                                  redemption_date := red0 |};
                       user_is_active := false; db_row := row0;
                       db_user_is_active := db_user_is_active0;
                       clock_reads := S reads; tokens_drawn := draws |})
               = Some RecursionError).
    { intros. apply Hnext; [reflexivity|]. exists reads. cbn. split; [lia|reflexivity]. }
    destruct token0 as [tok|]; run_methods; [|apply Hregen].
    destruct token_update_date0 as [stamp|]; run_methods; [|apply Hregen].
    destruct Hstale as [H|[H|[j [Hj Hstamp]]]]; try discriminate.
    injection Hstamp as ->.
    rewrite (Hrunaway j clock_reads0 Hj). run_methods. apply Hregen.
Qed.

End ActivationFacts.

(** A stale token of an inactive user, an expiry of 900 seconds, and a clock
    on which 2000 seconds pass between the reading that finds the token
    expired and the reading that stamps the new one: the nested [save],
    one second after the stamp, finds it unexpired, and [save] settles after
    one regeneration. *)
Lemma C10_save_settles_witness :
  UserActivation.raised
    (UserActivation.save UserActivation.jumping_clock
       UserActivation.constant_token 900 1000 UserActivation.stale_world)
  = None
  /\ UserActivation.tokens_drawn
       (UserActivation.final_world
          (UserActivation.save UserActivation.jumping_clock
             UserActivation.constant_token 900 1000 UserActivation.stale_world))
     = 1.
Proof.
  pose proof (C10_save_settles_within_expiry UserActivation.jumping_clock
                UserActivation.constant_token 900 1000 UserActivation.stale_world)
    as Hsettles.
  destruct Hsettles as [_ [Hregenerates _]].
  - lia.
  - destruct Hregenerates as [Hreturns [Honce _]].
    + vm_compute. reflexivity.
    + vm_compute. reflexivity.
    + split; [exact Hreturns|].
      destruct Honce as [_ [_ [_ [Hdrawn _]]]]. exact Hdrawn.
Defined.

(** The claim that [save] always settles with at most one nested call fails
    on a new record of an inactive user: with an expiry of 0 seconds and a
    clock that advances from one reading to the next, every nested [save]
    finds the token expired again, and with room for 1000 activations the
    call draws 1000 tokens and ends in [RecursionError]; with an expiry of
    900 seconds and a clock on which 1000 seconds pass between the stamp and
    the nested check, the call settles only after two regenerations. *)
Lemma C10_save_nests_deeper_counterexample :
  UserActivation.raised
    (UserActivation.save UserActivation.ticking_clock
       UserActivation.constant_token 0 1000 UserActivation.fresh_world)
  = Some RecursionError
  /\ UserActivation.tokens_drawn
       (UserActivation.final_world
          (UserActivation.save UserActivation.ticking_clock
             UserActivation.constant_token 0 1000 UserActivation.fresh_world))
     = 1000
  /\ UserActivation.raised
       (UserActivation.save UserActivation.stalling_clock
          UserActivation.constant_token 900 1000 UserActivation.fresh_world)
     = None
  /\ UserActivation.tokens_drawn
       (UserActivation.final_world
          (UserActivation.save UserActivation.stalling_clock
             UserActivation.constant_token 900 1000 UserActivation.fresh_world))
     = 2.
Proof. vm_compute. repeat split. Qed.

(** The stale token of an inactive user on the same clock: the call
    regenerates the token once and raises the expiry error. *)
Lemma C6_activate_user_expired_witness :
  UserActivation.raised
    (UserActivation.activate_user UserActivation.jumping_clock
       UserActivation.constant_token 900 1000 UserActivation.stale_world)
  = Some (ValueError UserActivation.token_expired_message)
  /\ UserActivation.regenerated_once UserActivation.jumping_clock
       UserActivation.constant_token UserActivation.stale_world
       (UserActivation.final_world
          (UserActivation.activate_user UserActivation.jumping_clock
             UserActivation.constant_token 900 1000 UserActivation.stale_world)).
Proof.
  pose proof (C6_activate_user_cases UserActivation.jumping_clock
                UserActivation.constant_token 900 1000 UserActivation.stale_world)
    as Hcases.
  destruct Hcases as [Hexpired _].
  - lia.
  - apply Hexpired.
    + vm_compute. reflexivity.
    + intros _. vm_compute. reflexivity.
Defined.

(** The claim that an expired token always leads to the expiry error fails
    on an unstamped record of an inactive user when the expiry is 0 seconds
    and the clock advances from one reading to the next: the token counts as
    expired, [generate_token] never settles, and the call ends in
    [RecursionError], not in [ValueError]. *)
Lemma C6_activate_user_expired_counterexample :
  UserActivation.expired_in UserActivation.ticking_clock 0 UserActivation.fresh_world
  = true
  /\ UserActivation.raised
       (UserActivation.activate_user UserActivation.ticking_clock
          UserActivation.constant_token 0 1000 UserActivation.fresh_world)
     = Some RecursionError.
Proof. vm_compute. split; reflexivity. Qed.

(** The scenario of the specification: the user is already active and the
    token has expired.  The first call regenerates the token and reports
    the expiry; the second, made right after it, reports that the user is
    already active. *)
Example activate_user_twice_on_active_user :
  let w0 :=
    {| UserActivation.self :=
         {| UserActivation.token := Some "00000000"%string;
            UserActivation.token_update_date := Some (-2000000000)%Z;
            UserActivation.redemption_date := None |};
       UserActivation.user_is_active := true;
       UserActivation.db_row := None;
       UserActivation.db_user_is_active := true;
       UserActivation.clock_reads := 0;
       UserActivation.tokens_drawn := 0 |} in
  let first :=
    UserActivation.activate_user UserActivation.ticking_clock
      UserActivation.constant_token 900 1000 w0 in
  let second :=
    UserActivation.activate_user UserActivation.ticking_clock
      UserActivation.constant_token 900 1000 (UserActivation.final_world first) in
  UserActivation.raised first = Some (ValueError UserActivation.token_expired_message)
  /\ UserActivation.token (UserActivation.self (UserActivation.final_world first))
     = Some "12345678"%string
  /\ UserActivation.raised second = Some (RuntimeError "User already active").
Proof. vm_compute. repeat split. Qed.

(* ===================================================================== *)
(** * Part III — further properties of the same code                      *)
(* ===================================================================== *)

(** ** Access levels: what [save] and the object permissions guarantee *)

Section ResourceFacts.

Import ResourceModelPermissionsMixin.

Local Open Scope Z_scope.

(** X1.  Saving twice always establishes Read <= Edit <= Delete: the first
    [save] brings the edit level down to the delete level, the second then
    brings the read level down to the edit level. *)
Theorem second_save_establishes_order (self : t) (table1 table2 : gmap nat t) :
  levels_valid (fst (save (fst (save self table1)) table2)).
Proof.
  unfold save, levels_valid, clamp_access_levels; cbn [fst].
  destruct (read_access_level self >? edit_access_level self) eqn:Hre; cbn;
    destruct (edit_access_level self >? delete_access_level self) eqn:Hed; cbn;
    repeat match goal with
           | |- context [if (?a >? ?b) then _ else _] =>
               destruct (a >? b) eqn:?; cbn
           end;
    lia.
Qed.

(** X2.  [save] establishes Read <= Edit <= Delete exactly for the instances
    whose edit level or read level is already at most the delete level; an
    instance that satisfies the order is stored as it is. *)
Theorem save_order_exactly_when (self : t) (table : gmap nat t) :
  (levels_valid (fst (save self table))
   <-> (edit_access_level self <= delete_access_level self
        \/ read_access_level self <= delete_access_level self))
  /\ (levels_valid self -> fst (save self table) = self).
Proof.
  split; [apply clamp_levels_valid_iff|].
  unfold levels_valid, save, clamp_access_levels; cbn [fst]. intros [Hre Hed].
  destruct (read_access_level self >? edit_access_level self) eqn:H1; [lia|].
  destruct (edit_access_level self >? delete_access_level self) eqn:H2; [lia|].
  reflexivity.
Qed.

(** The level computed for a caller is one of the five tiers. *)
Lemma get_user_level_range (self : t) (u : User) :
  value ANONYMOUS <= get_user_level self u <= value TEAM_ADMIN.
Proof.
  unfold get_user_level.
  destruct (team self) as [tm|];
    repeat match goal with
           | |- context [if ?c then _ else _] => destruct c
           end; cbn; lia.
Qed.

(** X3.  On an instance whose levels are in order, whoever may destroy may
    write, and whoever may write may read. *)
Theorem permissions_nest_when_levels_valid (self : t) (request : Request) :
  levels_valid self ->
  (has_object_destroy_permission self request = true ->
   has_object_write_permission self request = true)
  /\ (has_object_write_permission self request = true ->
      has_object_read_permission self request = true).
Proof.
  unfold levels_valid, has_object_destroy_permission, has_object_write_permission,
    has_object_read_permission.
  intros [Hre Hed]. rewrite !Z.geb_le. split; lia.
Qed.

(** X4.  A resource without a team (its team was deleted, or none was ever
    set) grants nobody a permission whose level is LAB_MEMBER or above:
    without a team the caller's level is at most REGISTERED_USER. *)
Theorem teamless_resource_denies_team_levels (self : t) (request : Request) :
  team self = None ->
  (value LAB_MEMBER <= read_access_level self ->
   has_object_read_permission self request = false)
  /\ (value LAB_MEMBER <= edit_access_level self ->
      has_object_write_permission self request = false)
  /\ (value LAB_MEMBER <= delete_access_level self ->
      has_object_destroy_permission self request = false).
Proof.
  intros Hteam.
  assert (Hlevel : get_user_level self (user request) <= value REGISTERED_USER).
  { unfold get_user_level. rewrite Hteam.
    destruct (is_authenticated (user request)); cbn; lia. }
  unfold has_object_destroy_permission, has_object_write_permission,
    has_object_read_permission.
  cbn in *. repeat split; intros H; rewrite Z.geb_leb; apply Z.leb_gt; lia.
Qed.

End ResourceFacts.

(** An instance in order, a team member: destroy, write and read nest. *)
Lemma permissions_nest_witness :
  let tm := {| team_pk := 5; team_lab := {| lab_pk := 9 |} |} in
  let row :=
    {| ResourceModelPermissionsMixin.pk := 1;
       ResourceModelPermissionsMixin.team := Some tm;
       ResourceModelPermissionsMixin.delete_access_level := value TEAM_ADMIN;
       ResourceModelPermissionsMixin.edit_access_level := value TEAM_MEMBER;
       ResourceModelPermissionsMixin.read_access_level := value LAB_MEMBER |} in
  let request :=
    {| user := {| is_authenticated := true; is_staff := false; is_superuser := false;
                  groups := [{| group_pk := 3; editable_lab := None;
                                editable_team := None; readable_team := Some tm |}] |} |} in
  (ResourceModelPermissionsMixin.has_object_destroy_permission row request = true ->
   ResourceModelPermissionsMixin.has_object_write_permission row request = true)
  /\ (ResourceModelPermissionsMixin.has_object_write_permission row request = true ->
      ResourceModelPermissionsMixin.has_object_read_permission row request = true).
Proof.
  cbv zeta. apply permissions_nest_when_levels_valid.
  unfold ResourceModelPermissionsMixin.levels_valid. cbn. lia.
Defined.

(** A resource with the default levels whose team is gone, and a superuser:
    no read, no write, no destroy. *)
Lemma teamless_resource_witness :
  let row :=
    {| ResourceModelPermissionsMixin.pk := 1;
       ResourceModelPermissionsMixin.team := None;
       ResourceModelPermissionsMixin.delete_access_level := value TEAM_MEMBER;
       ResourceModelPermissionsMixin.edit_access_level := value TEAM_MEMBER;
       ResourceModelPermissionsMixin.read_access_level := value LAB_MEMBER |} in
  let request :=
    {| user := {| is_authenticated := true; is_staff := true; is_superuser := true;
                  groups := [] |} |} in
  ResourceModelPermissionsMixin.has_object_read_permission row request = false
  /\ ResourceModelPermissionsMixin.has_object_write_permission row request = false
  /\ ResourceModelPermissionsMixin.has_object_destroy_permission row request = false.
Proof.
  cbv zeta.
  pose proof (teamless_resource_denies_team_levels
                {| ResourceModelPermissionsMixin.pk := 1;
                   ResourceModelPermissionsMixin.team := None;
                   ResourceModelPermissionsMixin.delete_access_level := value TEAM_MEMBER;
                   ResourceModelPermissionsMixin.edit_access_level := value TEAM_MEMBER;
                   ResourceModelPermissionsMixin.read_access_level := value LAB_MEMBER |}
                {| user := {| is_authenticated := true; is_staff := true;
                              is_superuser := true; groups := [] |} |}
                eq_refl) as [Hread [Hwrite Hdestroy]].
  split; [apply Hread; cbn; lia|]. split; [apply Hwrite; cbn; lia|].
  apply Hdestroy; cbn; lia.
Defined.

(** A valid instance is stored unchanged. *)
Lemma save_order_witness :
  let row :=
    {| ResourceModelPermissionsMixin.pk := 1;
       ResourceModelPermissionsMixin.team := None;
       ResourceModelPermissionsMixin.delete_access_level := value TEAM_ADMIN;
       ResourceModelPermissionsMixin.edit_access_level := value TEAM_MEMBER;
       ResourceModelPermissionsMixin.read_access_level := value LAB_MEMBER |} in
  fst (ResourceModelPermissionsMixin.save row ∅) = row.
Proof.
  cbv zeta. apply (proj2 (save_order_exactly_when _ ∅)).
  unfold ResourceModelPermissionsMixin.levels_valid. cbn. lia.
Defined.

(** ** Administrators, members and what they may do *)

Lemma team_in_admin_teams (u : User) (tm : Team) :
  team_in tm (user_teams u true) = true <-> administers_team u tm.
Proof.
  rewrite team_in_spec. unfold administers_team. split.
  - intros [t' [Hin Hpk]]. apply In_user_teams in Hin.
    destruct Hin as [g [Hg [He|[Hfalse _]]]]; [|discriminate].
    exists g, t'. auto.
  - intros [g [t' [Hg [He Hpk]]]]. exists t'. split; [|exact Hpk].
    apply In_user_teams. exists g. auto.
Qed.

Lemma lab_in_admin_labs (u : User) (l : Lab) :
  lab_in l (user_labs u true) = true <-> administers_lab u l.
Proof.
  unfold user_labs, administers_lab. rewrite lab_in_spec. split.
  - intros [l' [Hin Hpk]]. apply in_flat_map in Hin.
    destruct Hin as [g [Hg Hin]]. apply In_attr_list in Hin. exists g, l'. auto.
  - intros [g [l' [Hg [He Hpk]]]]. exists l'. split; [|exact Hpk].
    apply in_flat_map. exists g. split; [exact Hg|]. now apply In_attr_list.
Qed.

Lemma administers_team_on_team (u : User) (tm : Team) :
  administers_team u tm -> on_team u tm.
Proof. intros [g [t' [Hg [He Hpk]]]]. exists g, t'. auto. Qed.

Lemma administers_lab_in_lab (u : User) (l : Lab) :
  administers_lab u l -> in_lab u l.
Proof. intros H. left. exact H. Qed.

(** X5.  The labs a user administers are among the user's labs, and the
    teams a user administers are among the user's teams; so write
    permission on a lab or on a team implies read permission on it, and a
    lab administrator counts as an active user. *)
Theorem write_permission_implies_read (request : Request) :
  (forall l : Lab,
      Lab.has_object_write_permission l request = true ->
      Lab.has_object_read_permission l request = true)
  /\ (forall t : Team,
         Team.has_object_write_permission t request = true ->
         Team.has_object_read_permission t request = true)
  /\ (user_is_lab_admin (user request) = true ->
      user_is_active (user request) = true).
Proof.
  assert (Hlabs : forall l, lab_in l (user_labs (user request) true) = true ->
                            lab_in l (user_labs (user request) false) = true).
  { intros l H. apply lab_in_user_labs, administers_lab_in_lab, lab_in_admin_labs, H. }
  assert (Hteams : forall t, team_in t (user_teams (user request) true) = true ->
                             team_in t (user_teams (user request) false) = true).
  { intros t H. apply team_in_user_teams, administers_team_on_team,
      team_in_admin_teams, H. }
  split; [|split].
  - intros l. unfold Lab.has_object_write_permission, Lab.has_object_read_permission.
    rewrite !orb_true_iff. intros [H|H]; [left; exact H | right; apply Hlabs, H].
  - intros t. unfold Team.has_object_write_permission, Team.has_object_read_permission.
    rewrite !orb_true_iff. intros [H|H]; [left; exact H | right; apply Hteams, H].
  - unfold user_is_lab_admin, user_is_active. intros Hadmin.
    apply Nat.ltb_lt in Hadmin.
    destruct (user_labs (user request) true) as [|l ls] eqn:Hl; [cbn in Hadmin; lia|].
    apply user_approved_spec. exists l. apply lab_in_user_labs, Hlabs.
    cbn. unfold lab_eqb. now rewrite Nat.eqb_refl.
Qed.

(** The administrator of lab 9 may write it, hence read it. *)
Lemma write_permission_implies_read_witness :
  let l := {| lab_pk := 9 |} in
  let request :=
    {| user := {| is_authenticated := true; is_staff := false; is_superuser := false;
                  groups := [{| group_pk := 1; editable_lab := Some l;
                                editable_team := None; readable_team := None |}] |} |} in
  Lab.has_object_read_permission l request = true.
Proof.
  cbv zeta. apply (proj1 (write_permission_implies_read _)). reflexivity.
Defined.

(** X6.  An administrator of the resource's team has read, write and destroy
    permission whenever the respective level is at most TEAM_ADMIN. *)
Theorem team_admin_has_every_permission
    (self : ResourceModelPermissionsMixin.t) (request : Request) (tm : Team) :
  ResourceModelPermissionsMixin.team self = Some tm ->
  administers_team (user request) tm ->
  ((ResourceModelPermissionsMixin.read_access_level self <= value TEAM_ADMIN)%Z ->
   ResourceModelPermissionsMixin.has_object_read_permission self request = true)
  /\ ((ResourceModelPermissionsMixin.edit_access_level self <= value TEAM_ADMIN)%Z ->
      ResourceModelPermissionsMixin.has_object_write_permission self request = true)
  /\ ((ResourceModelPermissionsMixin.delete_access_level self <= value TEAM_ADMIN)%Z ->
      ResourceModelPermissionsMixin.has_object_destroy_permission self request = true).
Proof.
  intros Hteam Hadmin. apply team_in_admin_teams in Hadmin.
  assert (Hlevel : ResourceModelPermissionsMixin.get_user_level self (user request)
                   = value TEAM_ADMIN).
  { unfold ResourceModelPermissionsMixin.get_user_level. now rewrite Hteam, Hadmin. }
  unfold ResourceModelPermissionsMixin.has_object_read_permission,
    ResourceModelPermissionsMixin.has_object_write_permission,
    ResourceModelPermissionsMixin.has_object_destroy_permission.
  rewrite Hlevel, !Z.geb_le. tauto.
Qed.

(** The admin of team 5 may destroy a resource of team 5 whose delete level
    is TEAM_ADMIN. *)
Lemma team_admin_witness :
  let tm := {| team_pk := 5; team_lab := {| lab_pk := 9 |} |} in
  let row :=
    {| ResourceModelPermissionsMixin.pk := 1;
       ResourceModelPermissionsMixin.team := Some tm;
       ResourceModelPermissionsMixin.delete_access_level := value TEAM_ADMIN;
       ResourceModelPermissionsMixin.edit_access_level := value TEAM_ADMIN;
       ResourceModelPermissionsMixin.read_access_level := value TEAM_ADMIN |} in
  let request :=
    {| user := {| is_authenticated := true; is_staff := false; is_superuser := false;
                  groups := [{| group_pk := 2; editable_lab := None;
                                editable_team := Some tm; readable_team := None |}] |} |} in
  ResourceModelPermissionsMixin.has_object_destroy_permission row request = true.
Proof.
  intros tm row request.
  assert (Hadmin : administers_team (user request) tm).
  { eexists _, _. split; [left; reflexivity|]. split; reflexivity. }
  apply (proj2 (proj2 (team_admin_has_every_permission row request tm eq_refl Hadmin))).
  cbn. lia.
Defined.

(** ** Listings against object permissions *)

(** The rule of the generic listing, in terms of memberships. *)
Lemma listing_rule (request : Request)
    (queryset : list ResourceModelPermissionsMixin.t)
    (row : ResourceModelPermissionsMixin.t) :
  In row (ResourceFilterBackend.filter_list_queryset request queryset)
  <-> In row queryset /\ listed_for (user request) row.
Proof.
  rewrite filter_list_queryset_In. unfold listed_for. rewrite user_approved_spec.
  destruct (ResourceModelPermissionsMixin.team row) as [tm|] eqn:Hteam.
  - rewrite team_in_user_teams, lab_in_user_labs. split.
    + intros [Hin [[[H|[H1 H2]]|H]|H]]; split; auto.
      * left. exists tm. auto.
      * right; left. split; [exact H1|]. exists tm. auto.
    + intros [Hin [[tm' [Heq H]]|[[H1 [tm' [Heq H2]]]|[H|H]]]]; split; auto.
      * injection Heq as <-. auto.
      * injection Heq as <-. auto.
  - split.
    + intros [Hin [[[H|[H1 H2]]|H]|H]]; try discriminate; split; auto.
    + intros [Hin [[tm' [Heq H]]|[[H1 [tm' [Heq H2]]]|[H|H]]]];
        try discriminate; split; auto.
Qed.

(** X7.  Whoever has object read permission on a resource whose read level
    is one of the five tiers finds it in the generic listing, with one
    exception: a REGISTERED_USER-level resource is not listed for a caller
    who belongs to no lab. *)
Theorem readable_resource_is_listed
    (request : Request) (queryset : list ResourceModelPermissionsMixin.t)
    (row : ResourceModelPermissionsMixin.t) (level : UserLevel) :
  In row queryset ->
  ResourceModelPermissionsMixin.read_access_level row = value level ->
  (level = REGISTERED_USER -> in_some_lab (user request)) ->
  ResourceModelPermissionsMixin.has_object_read_permission row request = true ->
  In row (ResourceFilterBackend.filter_list_queryset request queryset).
Proof.
  intros Hin Hlevel Hlab Hread.
  apply listing_rule. split; [exact Hin|].
  unfold ResourceModelPermissionsMixin.has_object_read_permission,
    ResourceModelPermissionsMixin.get_user_level in Hread.
  rewrite Hlevel in Hread. apply Z.geb_le in Hread.
  unfold listed_for. rewrite Hlevel.
  destruct (ResourceModelPermissionsMixin.team row) as [tm|] eqn:Hteam.
  - destruct (team_in tm (user_teams (user request) true)) eqn:Hadmin.
    { left. exists tm. split; [reflexivity|].
      now apply administers_team_on_team, team_in_admin_teams. }
    destruct (team_in tm (user_teams (user request) false)) eqn:Hmember.
    { left. exists tm. split; [reflexivity|]. now apply team_in_user_teams. }
    destruct (lab_in (team_lab tm) (user_labs (user request) false)) eqn:Hinlab.
    { apply lab_in_user_labs in Hinlab.
      destruct level; cbn in Hread; try (exfalso; lia).
      - right; right; right. reflexivity.
      - right; right; left. split; [reflexivity|]. now exists (team_lab tm).
      - right; left. split; [reflexivity|]. now exists tm. }
    destruct level; destruct (is_authenticated (user request)); cbn in Hread;
      try (exfalso; lia).
    + right; right; right. reflexivity.
    + right; right; right. reflexivity.
    + right; right; left. auto.
  - destruct level; destruct (is_authenticated (user request)); cbn in Hread;
      try (exfalso; lia).
    + right; right; right. reflexivity.
    + right; right; right. reflexivity.
    + right; right; left. auto.
Qed.

(** A member of lab 9 reads a LAB_MEMBER-level resource of a team of lab 9
    on which the caller is not, and finds it listed. *)
Lemma readable_resource_is_listed_witness :
  let lab9 := {| lab_pk := 9 |} in
  let row :=
    {| ResourceModelPermissionsMixin.pk := 1;
       ResourceModelPermissionsMixin.team := Some {| team_pk := 5; team_lab := lab9 |};
       ResourceModelPermissionsMixin.delete_access_level := value TEAM_MEMBER;
       ResourceModelPermissionsMixin.edit_access_level := value TEAM_MEMBER;
       ResourceModelPermissionsMixin.read_access_level := value LAB_MEMBER |} in
  let request :=
    {| user := {| is_authenticated := true; is_staff := false; is_superuser := false;
                  groups := [{| group_pk := 4; editable_lab := None;
                                editable_team := None;
                                readable_team :=
                                  Some {| team_pk := 6; team_lab := lab9 |} |}] |} |} in
  In row (ResourceFilterBackend.filter_list_queryset request [row]).
Proof.
  intros lab9 row request.
  apply (readable_resource_is_listed request [row] row LAB_MEMBER).
  - left. reflexivity.
  - reflexivity.
  - discriminate.
  - reflexivity.
Defined.

(** The exception is real: an authenticated caller in no lab may read a
    REGISTERED_USER-level resource, and the listing leaves it out. *)
Example readable_but_not_listed :
  let row :=
    {| ResourceModelPermissionsMixin.pk := 1;
       ResourceModelPermissionsMixin.team := None;
       ResourceModelPermissionsMixin.delete_access_level := value TEAM_MEMBER;
       ResourceModelPermissionsMixin.edit_access_level := value TEAM_MEMBER;
       ResourceModelPermissionsMixin.read_access_level := value REGISTERED_USER |} in
  let request :=
    {| user := {| is_authenticated := true; is_staff := false; is_superuser := false;
                  groups := [] |} |} in
  ResourceModelPermissionsMixin.has_object_read_permission row request = true
  /\ ResourceFilterBackend.filter_list_queryset request [row] = [].
Proof. split; reflexivity. Qed.

(** X8.  Conversely, a listed resource whose read level is at most
    TEAM_MEMBER is readable by the authenticated caller it is listed for. *)
Theorem listed_resource_is_readable
    (request : Request) (queryset : list ResourceModelPermissionsMixin.t)
    (row : ResourceModelPermissionsMixin.t) :
  is_authenticated (user request) = true ->
  (ResourceModelPermissionsMixin.read_access_level row <= value TEAM_MEMBER)%Z ->
  In row (ResourceFilterBackend.filter_list_queryset request queryset) ->
  ResourceModelPermissionsMixin.has_object_read_permission row request = true.
Proof.
  intros Hauth Hlevel Hlisted. apply listing_rule in Hlisted.
  destruct Hlisted as [_ Hrule].
  unfold ResourceModelPermissionsMixin.has_object_read_permission,
    ResourceModelPermissionsMixin.get_user_level.
  rewrite Hauth. apply Z.geb_le.
  destruct Hrule as [[tm [Hteam Hon]]|[[Hr [tm [Hteam Hlab]]]|[[Hr _]|Hr]]].
  - rewrite Hteam. apply team_in_user_teams in Hon. rewrite Hon.
    destruct (team_in tm (user_teams (user request) true)); cbn in *; lia.
  - rewrite Hteam, Hr. apply lab_in_user_labs in Hlab. rewrite Hlab.
    destruct (team_in tm (user_teams (user request) true));
      destruct (team_in tm (user_teams (user request) false)); cbn; lia.
  - rewrite Hr.
    destruct (ResourceModelPermissionsMixin.team row) as [tm|];
      repeat match goal with
             | |- context [if ?c then _ else _] => destruct c
             end; cbn; lia.
  - rewrite Hr.
    destruct (ResourceModelPermissionsMixin.team row) as [tm|];
      repeat match goal with
             | |- context [if ?c then _ else _] => destruct c
             end; cbn; lia.
Qed.

(** A team member finds the team's TEAM_MEMBER-level resource listed and
    may read it. *)
Lemma listed_resource_is_readable_witness :
  let tm := {| team_pk := 5; team_lab := {| lab_pk := 9 |} |} in
  let row :=
    {| ResourceModelPermissionsMixin.pk := 1;
       ResourceModelPermissionsMixin.team := Some tm;
       ResourceModelPermissionsMixin.delete_access_level := value TEAM_ADMIN;
       ResourceModelPermissionsMixin.edit_access_level := value TEAM_MEMBER;
       ResourceModelPermissionsMixin.read_access_level := value TEAM_MEMBER |} in
  let request :=
    {| user := {| is_authenticated := true; is_staff := false; is_superuser := false;
                  groups := [{| group_pk := 3; editable_lab := None;
                                editable_team := None; readable_team := Some tm |}] |} |} in
  ResourceModelPermissionsMixin.has_object_read_permission row request = true.
Proof.
  intros tm row request.
  apply (listed_resource_is_readable request [row] row).
  - reflexivity.
  - cbn. lia.
  - left. reflexivity.
Defined.

(** Why the bound on the level: a plain member sees the team's
    TEAM_ADMIN-level resource listed and may not read it. *)
Example listed_but_not_readable :
  let tm := {| team_pk := 5; team_lab := {| lab_pk := 9 |} |} in
  let row :=
    {| ResourceModelPermissionsMixin.pk := 1;
       ResourceModelPermissionsMixin.team := Some tm;
       ResourceModelPermissionsMixin.delete_access_level := value TEAM_ADMIN;
       ResourceModelPermissionsMixin.edit_access_level := value TEAM_ADMIN;
       ResourceModelPermissionsMixin.read_access_level := value TEAM_ADMIN |} in
  let request :=
    {| user := {| is_authenticated := true; is_staff := false; is_superuser := false;
                  groups := [{| group_pk := 3; editable_lab := None;
                                editable_team := None; readable_team := Some tm |}] |} |} in
  ResourceFilterBackend.filter_list_queryset request [row] = [row]
  /\ ResourceModelPermissionsMixin.has_object_read_permission row request = false.
Proof. split; reflexivity. Qed.

(** ** The lab, team and group listings *)

Lemma existsb_pk_map {A : Type} (key : A -> nat) (x : A) (l : list A) :
  existsb (Nat.eqb (key x)) (map key l)
  = existsb (fun y => Nat.eqb (key x) (key y)) l.
Proof. induction l as [|y l IH]; cbn; [reflexivity | now rewrite IH]. Qed.

(** X9.  The team listing shows exactly the teams of the queryset on which
    the caller has object read permission. *)
Theorem team_listing_is_read_permission
    (request : Request) (queryset : list Team) (t : Team) :
  In t (TeamFilterBackend.filter_list_queryset request queryset)
  <-> In t queryset /\ Team.has_object_read_permission t request = true.
Proof.
  unfold TeamFilterBackend.filter_list_queryset, Team.has_object_read_permission.
  rewrite filter_In, (existsb_pk_map team_pk).
  fold (team_eqb t). fold (team_in t (user_teams (user request) false)).
  rewrite orb_comm. reflexivity.
Qed.

(** X10.  The lab listing shows exactly the labs of the queryset that the
    caller belongs to; for a caller who is neither staff nor superuser these
    are exactly the labs on which the caller has object read permission. *)
Theorem lab_listing_is_membership
    (request : Request) (queryset : list Lab) (l : Lab) :
  (In l (LabFilterBackend.filter_list_queryset request queryset)
   <-> In l queryset /\ in_lab (user request) l)
  /\ (is_staff (user request) = false ->
      is_superuser (user request) = false ->
      (In l (LabFilterBackend.filter_list_queryset request queryset)
       <-> In l queryset /\ Lab.has_object_read_permission l request = true)).
Proof.
  assert (Hlist : In l (LabFilterBackend.filter_list_queryset request queryset)
                  <-> In l queryset /\ lab_in l (user_labs (user request) false) = true).
  { unfold LabFilterBackend.filter_list_queryset.
    rewrite List.length_map.
    destruct (user_labs (user request) false) as [|l0 ls] eqn:Hlabs.
    - cbn. split; [contradiction | intros [_ H]; discriminate H].
    - cbn [length Nat.eqb]. rewrite filter_In, (existsb_pk_map lab_pk).
      reflexivity. }
  split.
  - rewrite Hlist, lab_in_user_labs. reflexivity.
  - intros Hstaff Hsuper. rewrite Hlist.
    unfold Lab.has_object_read_permission. rewrite Hstaff, Hsuper. reflexivity.
Qed.

(** Lab 9 is listed for a member of one of its teams, who may read it. *)
Lemma lab_listing_witness :
  let lab9 := {| lab_pk := 9 |} in
  let request :=
    {| user := {| is_authenticated := true; is_staff := false; is_superuser := false;
                  groups := [{| group_pk := 4; editable_lab := None;
                                editable_team := None;
                                readable_team :=
                                  Some {| team_pk := 6; team_lab := lab9 |} |}] |} |} in
  In lab9 (LabFilterBackend.filter_list_queryset request [lab9])
  <-> In lab9 [lab9] /\ Lab.has_object_read_permission lab9 request = true.
Proof.
  intros lab9 request.
  apply (proj2 (lab_listing_is_membership request [lab9] lab9)); reflexivity.
Defined.

(** X11.  For a caller who is neither staff nor superuser, every listed
    group that is the admin or member group of just one lab or team is a
    group the caller may read; and a group without owner is never listed for
    such a caller, member or not. *)
Theorem listed_group_is_readable
    (request : Request) (queryset : list GroupProxy) (g : GroupProxy) :
  is_staff (user request) = false ->
  is_superuser (user request) = false ->
  In g (GroupFilterBackend.filter_list_queryset request queryset) ->
  GroupProxy.get_owner g <> None
  /\ (single_back_reference g ->
      GroupProxy.has_object_read_permission g request = true).
Proof.
  intros Hstaff Hsuper Hlisted.
  unfold GroupFilterBackend.filter_list_queryset in Hlisted.
  rewrite Hstaff, Hsuper in Hlisted. cbn [orb] in Hlisted.
  apply filter_In in Hlisted. destruct Hlisted as [_ Hrule].
  rewrite !orb_true_iff in Hrule.
  unfold GroupFilterBackend.related_in in Hrule.
  unfold GroupProxy.has_object_read_permission, GroupProxy.get_owner,
    single_back_reference.
  destruct (editable_lab g) as [l|], (editable_team g) as [te|],
    (readable_team g) as [tr|];
    try (exfalso; destruct Hrule as [[H|H]|H]; discriminate H);
    (split; [discriminate|]); intros Hsingle;
    try (exfalso; destruct Hsingle as [[H1 H2]|[[H1 H2]|[H1 H2]]]; discriminate);
    cbn [GroupProxy.owner_has_object_read_permission];
    unfold Lab.has_object_read_permission, Team.has_object_read_permission;
    destruct Hrule as [[H|H]|H]; try discriminate H;
    rewrite H, ?orb_true_r; reflexivity.
Qed.

(** The member group of team 6 is listed for a member and readable. *)
Lemma listed_group_witness :
  let g := {| group_pk := 4; editable_lab := None; editable_team := None;
              readable_team := Some {| team_pk := 6; team_lab := {| lab_pk := 9 |} |} |} in
  let request :=
    {| user := {| is_authenticated := true; is_staff := false; is_superuser := false;
                  groups := [g] |} |} in
  GroupProxy.has_object_read_permission g request = true.
Proof.
  intros g request.
  apply (listed_group_is_readable request [g] g); try reflexivity.
  - left. reflexivity.
  - left. split; reflexivity.
Defined.

(** ** Harvesters as callers *)

(** X12.  A request made under a harvester's identity has read, config and
    report permission on exactly that harvester, write permission on no
    harvester, and no permission to create harvesters; it may create error
    reports and columns exactly while its harvester is stored. *)
Theorem harvester_identity_permissions
    (h target : Harvester.t) (header : option pystr) (harvesters : list Harvester.t) :
  let request := {| api_user := HarvesterUser h; HTTP_AUTHORIZATION := header |} in
  HarvesterAccess.has_object_write_permission target request = false
  /\ (HarvesterAccess.has_object_read_permission target request = true
      <-> Harvester.uuid target = Harvester.uuid h)
  /\ (HarvesterAccess.has_object_config_permission target request = true
      <-> Harvester.uuid target = Harvester.uuid h)
  /\ (HarvesterAccess.has_object_report_permission target request = true
      <-> Harvester.uuid target = Harvester.uuid h)
  /\ HarvesterAccess.has_create_permission request = false
  /\ (harvester_or_staff_has_create_permission harvesters request = true
      <-> exists h', In h' harvesters /\ Harvester.uuid h' = Harvester.uuid h).
Proof.
  cbv zeta.
  assert (Hvalid : forall x,
             HarvesterAccess.is_valid_harvester x
               {| api_user := HarvesterUser h; HTTP_AUTHORIZATION := header |} = true
             <-> Harvester.uuid x = Harvester.uuid h).
  { intros x. unfold HarvesterAccess.is_valid_harvester. cbn.
    rewrite Nat.eqb_eq. split; congruence. }
  split; [reflexivity|]. split.
  { unfold HarvesterAccess.has_object_read_permission.
    rewrite orb_true_iff, Hvalid. cbn. split; [intros [H|H]; [exact H|discriminate H]|auto]. }
  split; [apply Hvalid|]. split; [apply Hvalid|]. split; [reflexivity|].
  unfold harvester_or_staff_has_create_permission.
  destruct (existsb _ harvesters) eqn:Hex.
  - apply existsb_exists in Hex. destruct Hex as [h' [Hin Hv]].
    split; [|reflexivity]. intros _. exists h'. split; [exact Hin|]. now apply Hvalid.
  - cbn. split; [discriminate|]. intros [h' [Hin Huuid]].
    assert (Htrue : existsb
                      (fun x => HarvesterAccess.is_valid_harvester x
                         {| api_user := HarvesterUser h; HTTP_AUTHORIZATION := header |})
                      harvesters = true).
    { apply existsb_exists. exists h'. split; [exact Hin|]. now apply Hvalid. }
    rewrite Htrue in Hex. discriminate Hex.
Qed.

Lemma split_on_head (cur s : pystr) :
  nth_error (split_on space cur s) 0 = Some (cur ++ until_space s).
Proof.
  revert cur. induction s as [|c s IH]; intros cur; cbn [split_on until_space].
  - cbn. now rewrite app_nil_r.
  - destruct (N.eqb c space).
    + cbn. now rewrite app_nil_r.
    + rewrite IH. now rewrite <- app_assoc.
Qed.

Lemma harvester_startswith_inv (s p : pystr) :
  Harvester.startswith s p = true -> exists rest, s = p ++ rest.
Proof.
  revert s. induction p as [|c p IH]; intros s H.
  - exists s. reflexivity.
  - destruct s as [|d s]; [discriminate H|]. cbn in H.
    apply andb_true_iff in H. destruct H as [Hcd Hrest].
    apply N.eqb_eq in Hcd. subst d.
    destruct (IH s Hrest) as [rest ->]. exists rest. reflexivity.
Qed.

Lemma until_space_no_space (s : pystr) :
  ~ In space s -> until_space s = s.
Proof.
  induction s as [|c s IH]; intros Hno; [reflexivity|]. cbn.
  destruct (N.eqb_spec c space) as [->|Hne].
  - exfalso. apply Hno. now left.
  - f_equal. apply IH. intros Hin. apply Hno. now right.
Qed.

Lemma until_space_has_no_space (s : pystr) : ~ In space (until_space s).
Proof.
  induction s as [|c s IH]; cbn; [tauto|].
  destruct (N.eqb_spec c space) as [->|Hne]; cbn; [tauto|].
  intros [H|H]; [congruence | exact (IH H)].
Qed.

Lemma header_lookup (request : ApiRequest) (queryset : list Harvester.t)
    (presented : pystr) :
  HTTP_AUTHORIZATION request = Some (codepoints "Harvester " ++ presented) ->
  HarvesterFilterBackend.filter_list_queryset request queryset
  = Returns (HarvesterFilterBackend.filter_api_key (until_space presented) queryset).
Proof.
  intros Hheader. unfold HarvesterFilterBackend.filter_list_queryset.
  rewrite Hheader.
  change (HarvesterFilterBackend.harvester_prefix) with (codepoints "Harvester ").
  rewrite startswith_app.
  change (nth_error (split_on space [] (codepoints "Harvester " ++ presented)) 1)
    with (nth_error (split_on space [] presented) 0).
  rewrite split_on_head. reflexivity.
Qed.

(** X13.  The harvester listing never fails on the index it takes into the
    split header: whatever the header, it returns.  When the header is
    "Harvester " followed by some text, the key looked up is that text up to
    its first space, so a stored key that contains a space is never
    selected by any header. *)
Theorem harvester_listing_by_header
    (request : ApiRequest) (queryset : list Harvester.t) :
  (exists rows, HarvesterFilterBackend.filter_list_queryset request queryset = Returns rows)
  /\ (forall presented,
         HTTP_AUTHORIZATION request = Some (codepoints "Harvester " ++ presented) ->
         HarvesterFilterBackend.filter_list_queryset request queryset
         = Returns (HarvesterFilterBackend.filter_api_key (until_space presented) queryset)
         /\ forall h key,
              Harvester.api_key h = Some key -> In space key ->
              ~ In h (HarvesterFilterBackend.filter_api_key
                        (until_space presented) queryset)).
Proof.
  split.
  - destruct (HTTP_AUTHORIZATION request) as [key|] eqn:Hheader.
    + destruct (Harvester.startswith key (codepoints "Harvester ")) eqn:Hstarts.
      * apply harvester_startswith_inv in Hstarts. destruct Hstarts as [rest ->].
        exists (HarvesterFilterBackend.filter_api_key (until_space rest) queryset).
        exact (header_lookup request queryset rest Hheader).
      * unfold HarvesterFilterBackend.filter_list_queryset. rewrite Hheader.
        change (HarvesterFilterBackend.harvester_prefix) with (codepoints "Harvester ").
        rewrite Hstarts. destruct (Nat.eqb _ 0); eexists; reflexivity.
    + unfold HarvesterFilterBackend.filter_list_queryset. rewrite Hheader.
      cbn. destruct (Nat.eqb _ 0); eexists; reflexivity.
  - intros presented Hheader. split; [now apply header_lookup|].
    intros h key Hkey Hspace Hin.
    unfold HarvesterFilterBackend.filter_api_key in Hin.
    apply filter_In in Hin. destruct Hin as [_ Heq]. rewrite Hkey in Heq.
    apply bool_decide_eq_true in Heq. subst key.
    exact (until_space_has_no_space presented Hspace).
Qed.

(** The header "Harvester abc def" looks up the key "abc". *)
Lemma harvester_listing_by_header_witness :
  let h :=
    {| Harvester.uuid := 1; Harvester.name := "h1";
       Harvester.api_key := Some (codepoints "abc");
       Harvester.sleep_time := 120; Harvester.active := true;
       Harvester.lab := {| lab_pk := 1 |} |} in
  let request :=
    {| api_user := HarvesterUser h;
       HTTP_AUTHORIZATION := Some (codepoints "Harvester abc def") |} in
  HarvesterFilterBackend.filter_list_queryset request [h]
  = Returns (HarvesterFilterBackend.filter_api_key (until_space (codepoints "abc def")) [h]).
Proof.
  intros h request.
  apply (proj2 (harvester_listing_by_header request [h]) (codepoints "abc def")).
  reflexivity.
Defined.

Lemma key_alphabet_has_no_space (c : N) : in_key_alphabet c -> c <> space.
Proof.
  unfold in_key_alphabet, space. intros [H|[H|[H|H]]] Heq; subst c; try lia.
  cbn in H. repeat (destruct H as [H|H]; [discriminate H|]). exact H.
Qed.

(** X14.  The key that [Harvester.save] generates comes back through the
    header: presented as "Harvester <key>", it selects exactly the
    harvesters of the queryset that carry this key, the saved one among
    them. *)
Theorem generated_key_selects_its_harvester
    (random_index : nat -> nat) (self : Harvester.t) (table : gmap nat Harvester.t)
    (caller : request_user) (queryset : list Harvester.t) :
  Harvester.api_key self = None ->
  exists key,
    Harvester.api_key (fst (Harvester.save random_index self table)) = Some key
    /\ HarvesterFilterBackend.filter_list_queryset
         {| api_user := caller;
            HTTP_AUTHORIZATION := Some (codepoints "Harvester " ++ key) |}
         queryset
       = Returns (HarvesterFilterBackend.filter_api_key key queryset)
    /\ (In (fst (Harvester.save random_index self table)) queryset ->
        In (fst (Harvester.save random_index self table))
           (HarvesterFilterBackend.filter_api_key key queryset)).
Proof.
  intros Hnone.
  pose (body := choices random_index Harvester.text 60).
  assert (Hkey : Harvester.api_key (fst (Harvester.save random_index self table))
                 = Some (codepoints "galv_hrv_" ++ body)).
  { unfold Harvester.save. rewrite Hnone. reflexivity. }
  assert (Hbody : Forall in_key_alphabet body).
  { apply List.Forall_forall. intros c Hc.
    apply choices_from_population in Hc; [|discriminate].
    exact (proj1 (List.Forall_forall _ _) text_in_key_alphabet c Hc). }
  exists (codepoints "galv_hrv_" ++ body). split; [exact Hkey|].
  assert (Hnospace : ~ In space (codepoints "galv_hrv_" ++ body)).
  { intros Hin. apply in_app_or in Hin. destruct Hin as [Hin|Hin].
    - cbn in Hin. repeat (destruct Hin as [Hin|Hin]; [discriminate Hin|]). exact Hin.
    - rewrite List.Forall_forall in Hbody.
      exact (key_alphabet_has_no_space _ (Hbody _ Hin) eq_refl). }
  split.
  - rewrite (header_lookup
               {| api_user := caller;
                  HTTP_AUTHORIZATION :=
                    Some (codepoints "Harvester " ++ codepoints "galv_hrv_" ++ body) |}
               queryset (codepoints "galv_hrv_" ++ body) eq_refl).
    now rewrite (until_space_no_space _ Hnospace).
  - intros Hin. unfold HarvesterFilterBackend.filter_api_key.
    apply filter_In. split; [exact Hin|]. rewrite Hkey.
    now apply bool_decide_eq_true.
Qed.

(** A key generated for a new harvester, presented by an anonymous caller. *)
Lemma generated_key_witness :
  let fresh :=
    {| Harvester.uuid := 1; Harvester.name := "h1"; Harvester.api_key := None;
       Harvester.sleep_time := 120; Harvester.active := true;
       Harvester.lab := {| lab_pk := 1 |} |} in
  let caller :=
    DjangoUser {| is_authenticated := false; is_staff := false;
                  is_superuser := false; groups := [] |} in
  let saved := fst (Harvester.save (fun i => i * 7) fresh ∅) in
  exists key,
    Harvester.api_key saved = Some key
    /\ HarvesterFilterBackend.filter_list_queryset
         {| api_user := caller;
            HTTP_AUTHORIZATION := Some (codepoints "Harvester " ++ key) |}
         [saved]
       = Returns (HarvesterFilterBackend.filter_api_key key [saved])
    /\ (In saved [saved] -> In saved (HarvesterFilterBackend.filter_api_key key [saved])).
Proof.
  intros fresh caller saved.
  apply (generated_key_selects_its_harvester (fun i => i * 7) fresh ∅ caller [saved]).
  reflexivity.
Defined.

(** ** Column checks of an observed file *)

Lemma existsb_string_In (n : string) (names : list string) :
  existsb (String.eqb n) names = true <-> In n names.
Proof.
  rewrite existsb_exists. split.
  - intros [m [Hin Heq]]. apply String.eqb_eq in Heq. now subst m.
  - intros Hin. exists n. split; [exact Hin | apply String.eqb_refl].
Qed.

(** The loop of [column_errors] reports nothing exactly when it started
    without errors, the names are pairwise different, and none was seen. *)
Lemma fold_note_name_nil (ns : list string) (errors seen : list string) :
  fst (fold_left ObservedFileColumns.note_name ns (errors, seen)) = []
  <-> errors = [] /\ List.NoDup ns /\ (forall n, In n ns -> ~ In n seen).
Proof.
  revert errors seen. induction ns as [|n ns IH]; intros errors seen.
  - cbn. split; [intros ->; repeat split; [constructor | contradiction] | tauto].
  - cbn [fold_left ObservedFileColumns.note_name]. rewrite IH. split.
    + intros [Herr [Hnodup Hseen]].
      destruct (existsb (String.eqb n) seen) eqn:Hdup.
      { destruct errors; discriminate Herr. }
      assert (Hn : ~ In n seen).
      { intros Hin. apply existsb_string_In in Hin. congruence. }
      split; [exact Herr|]. split.
      * constructor; [|exact Hnodup].
        intros Hin. apply (Hseen n Hin). apply in_or_app. right. now left.
      * intros m [<-|Hm]; [exact Hn|].
        intros Hin. apply (Hseen m Hm). apply in_or_app. now left.
    + intros [Herr [Hnodup Hseen]]. inversion Hnodup as [|? ? Hnotin Hrest]; subst.
      assert (Hn : existsb (String.eqb n) seen = false).
      { destruct (existsb (String.eqb n) seen) eqn:Hdup; [|reflexivity].
        apply existsb_string_In in Hdup. exfalso. apply (Hseen n); [now left | exact Hdup]. }
      rewrite Hn. split; [reflexivity|]. split; [exact Hrest|].
      intros m Hm Hin. apply in_app_or in Hin. destruct Hin as [Hin|[<-|[]]].
      * apply (Hseen m); [now right | exact Hin].
      * exact (Hnotin Hm).
Qed.

(** X15.  [column_errors] is empty exactly when every required column type
    has exactly one column on the file (none and several are both reported
    as missing) and no two columns share an effective name. *)
Theorem column_errors_empty_iff
    (column_types : list DataColumnType.t) (columns : list DataColumn.t) :
  ObservedFileColumns.column_errors column_types columns = []
  <-> (forall ty, In ty column_types -> DataColumnType.is_required ty = true ->
                  ObservedFileColumns.count_of_type columns ty = 1)
      /\ List.NoDup (map DataColumn.get_name columns).
Proof.
  unfold ObservedFileColumns.column_errors.
  assert (Hmissing :
            ObservedFileColumns.missing_required_columns column_types columns = []
            <-> forall ty, In ty column_types -> DataColumnType.is_required ty = true ->
                           ObservedFileColumns.count_of_type columns ty = 1).
  { unfold ObservedFileColumns.missing_required_columns.
    induction column_types as [|ty tys IH]; cbn [List.filter flat_map].
    - split; [contradiction | reflexivity].
    - destruct (DataColumnType.is_required ty) eqn:Hreq; cbn [flat_map].
      + destruct (Nat.eqb_spec (ObservedFileColumns.count_of_type columns ty) 1)
          as [Hone|Hnot]; cbn [negb app].
        * rewrite IH. split.
          -- intros H ty' [<-|Hin] Hreq'; [exact Hone | now apply H].
          -- intros H ty' Hin. apply H. now right.
        * split; [discriminate|]. intros H. exfalso. apply Hnot, H; [now left | exact Hreq].
      + rewrite IH. split.
        * intros H ty' [<-|Hin] Hreq'; [congruence | now apply H].
        * intros H ty' Hin. apply H. now right. }
  assert (Hdup : ObservedFileColumns.duplicate_errors columns = []
                 <-> List.NoDup (map DataColumn.get_name columns)).
  { unfold ObservedFileColumns.duplicate_errors. rewrite fold_note_name_nil.
    split; [tauto|]. intros H. split; [reflexivity|]. split; [exact H|]. tauto. }
  rewrite <- Hmissing, <- Hdup. split.
  - intros H. apply app_eq_nil in H. exact H.
  - intros [-> ->]. reflexivity.
Qed.

(** ** Rendering a time series *)

Lemma join_returns_iff (sep : string) (items : list series_value) :
  (exists s, join sep items = Returns s) <-> Forall is_str items.
Proof.
  induction items as [|v rest IH].
  - cbn. split; [constructor | eexists; reflexivity].
  - destruct v as [s|]; cbn [join].
    + destruct rest as [|v' rest'].
      * split; [repeat constructor | eexists; reflexivity].
      * split.
        -- intros [joined Hj]. constructor; [exact I|]. apply IH.
           destruct (join sep (v' :: rest')) as [j|e]; [eexists; reflexivity | discriminate Hj].
        -- intros H. inversion H as [|? ? _ Hrest]; subst.
           apply IH in Hrest. destruct Hrest as [j ->]. eexists; reflexivity.
    + split; [intros [s H]; discriminate H | intros H; inversion H as [|? ? Hstr _]; destruct Hstr].
Qed.

(** X16.  Rendering a time series as text succeeds exactly when the series
    is absent or empty, or the values it shows (the first five) are all
    strings; a series that starts with a number or a null raises
    [TypeError] from [str.join]. *)
Theorem timeseries_str_returns_iff (self : TimeseriesBase.t) :
  (exists s, TimeseriesBase.__str__ self = Returns s)
  <-> match TimeseriesBase.values self with
      | None => True
      | Some vs => Forall is_str (firstn 5 vs)
      end.
Proof.
  unfold TimeseriesBase.__str__.
  destruct (TimeseriesBase.values self) as [[|v vs]|].
  - split; [constructor | eexists; reflexivity].
  - destruct (Nat.ltb 5 (length (v :: vs))) eqn:Hlen.
    + rewrite <- (join_returns_iff ","). split.
      * intros [s Hs]. destruct (join "," (firstn 5 (v :: vs))) as [j|e];
          [eexists; reflexivity | discriminate Hs].
      * intros [j ->]. eexists; reflexivity.
    + apply Nat.ltb_ge in Hlen. rewrite (firstn_all2 (v :: vs) Hlen).
      rewrite <- (join_returns_iff ","). split.
      * intros [s Hs]. destruct (join "," (v :: vs)) as [j|e];
          [eexists; reflexivity | discriminate Hs].
      * intros [j ->]. eexists; reflexivity.
  - split; [constructor | eexists; reflexivity].
Qed.

(** Seven strings are cut to five and an ellipsis; two floats raise. *)
Example timeseries_str_examples :
  TimeseriesBase.__str__
    {| TimeseriesBase.column_id := "12";
       TimeseriesBase.values :=
         Some (map StrValue ["a"; "b"; "c"; "d"; "e"; "f"; "g"]%string) |}
  = Returns "12: [a,b,c,d,e...]"%string
  /\ TimeseriesBase.__str__
       {| TimeseriesBase.column_id := "12";
          TimeseriesBase.values := Some [NotAStr; NotAStr] |}
     = Raises (OtherException "TypeError: expected str instance").
Proof. split; reflexivity. Qed.

(** ** Listing schema validations *)

Section SchemaValidationListing.

Import SchemaValidationFilterBackend.

Variable schema_by_pk : nat -> ResourceModelPermissionsMixin.t.

Local Abbreviation rpk := ResourceModelPermissionsMixin.pk.

Lemma existsb_rpk_In (k : nat) (l : list ResourceModelPermissionsMixin.t) :
  existsb (fun s => Nat.eqb k (rpk s)) l = true <-> In k (map rpk l).
Proof.
  rewrite existsb_exists, in_map_iff. split.
  - intros [s [Hin Heq]]. apply Nat.eqb_eq in Heq. exists s. auto.
  - intros [s [Heq Hin]]. exists s. split; [exact Hin|]. apply Nat.eqb_eq. auto.
Qed.

Lemma existsb_rpk_In' (x : ResourceModelPermissionsMixin.t)
    (l : list ResourceModelPermissionsMixin.t) :
  existsb (fun s => Nat.eqb (rpk s) (rpk x)) l = true <-> In (rpk x) (map rpk l).
Proof.
  rewrite <- existsb_rpk_In. rewrite !existsb_exists.
  split; intros [s [Hin Heq]]; exists s; (split; [exact Hin|]);
    apply Nat.eqb_eq; apply Nat.eqb_eq in Heq; congruence.
Qed.

(** The set holds every referenced schema once, and nothing else. *)
Lemma schema_set_spec (queryset : list SchemaValidation.t) :
  List.NoDup (map rpk (schema_set schema_by_pk queryset))
  /\ (forall s, In s (schema_set schema_by_pk queryset) ->
                exists q, In q queryset /\ s = schema_by_pk (SchemaValidation.schema q))
  /\ (forall q, In q queryset ->
                In (rpk (schema_by_pk (SchemaValidation.schema q)))
                   (map rpk (schema_set schema_by_pk queryset))).
Proof.
  induction queryset as [|q qs [IHnodup [IHfrom IHall]]]; cbn [schema_set].
  - split; [constructor|]. split; contradiction.
  - destruct (existsb _ (schema_set schema_by_pk qs)) eqn:Hseen.
    + apply existsb_rpk_In' in Hseen. split; [exact IHnodup|]. split.
      * intros s Hs. destruct (IHfrom s Hs) as [q' [Hq' ->]]. exists q'. split; [now right | reflexivity].
      * intros q' [<-|Hq']; [exact Hseen | now apply IHall].
    + assert (Hnew : ~ In (rpk (schema_by_pk (SchemaValidation.schema q)))
                          (map rpk (schema_set schema_by_pk qs))).
      { intros Hin. apply existsb_rpk_In' in Hin. congruence. }
      split; [cbn; constructor; assumption|]. split.
      * intros s [<-|Hs].
        -- exists q. split; [now left | reflexivity].
        -- destruct (IHfrom s Hs) as [q' [Hq' ->]]. exists q'. split; [now right | reflexivity].
      * intros q' [<-|Hq']; cbn; [now left | right; now apply IHall].
Qed.

Lemma remove_first_spec (x : ResourceModelPermissionsMixin.t)
    (l : list ResourceModelPermissionsMixin.t) :
  List.NoDup (map rpk l) ->
  List.NoDup (map rpk (remove_first x l))
  /\ forall k, In k (map rpk (remove_first x l)) <-> In k (map rpk l) /\ k <> rpk x.
Proof.
  induction l as [|y l IH]; cbn [remove_first map]; intros Hnodup.
  - split; [constructor|]. intros k. cbn. tauto.
  - inversion Hnodup as [|? ? Hnotin Hrest]; subst.
    destruct (Nat.eqb_spec (rpk y) (rpk x)) as [Heq|Hne].
    + split; [exact Hrest|]. intros k. cbn. split.
      * intros Hk. split; [now right|]. intros ->. rewrite <- Heq in Hk. contradiction.
      * intros [[Hk|Hk] Hne]; [congruence | exact Hk].
    + destruct (IH Hrest) as [IHnodup IHin]. split.
      * cbn. constructor; [|exact IHnodup]. intros Hin. apply IHin in Hin. tauto.
      * intros k. cbn. rewrite IHin. split.
        -- intros [Hk|[Hk Hne']]; [split; [now left | congruence] | tauto].
        -- intros [[Hk|Hk] Hne']; [now left | right; tauto].
Qed.

(** What the removal loop leaves: the keys none of the schemas visited
    under that key was unreadable. *)
Lemma removal_loop_spec (request : Request)
    (todo included : list ResourceModelPermissionsMixin.t) :
  List.NoDup (map rpk included) ->
  forall k,
    In k (map rpk
            (fold_left
               (fun included schema =>
                  if negb (ResourceModelPermissionsMixin.has_object_read_permission
                             schema request)
                  then remove_first schema included
                  else included)
               todo included))
    <-> In k (map rpk included)
        /\ forall s, In s todo -> rpk s = k ->
                     ResourceModelPermissionsMixin.has_object_read_permission s request
                     = true.
Proof.
  revert included. induction todo as [|s todo IH]; intros included Hnodup k;
    cbn [fold_left].
  - split; [intros H; split; [exact H | contradiction] | tauto].
  - destruct (ResourceModelPermissionsMixin.has_object_read_permission s request)
      eqn:Hread; cbn [negb].
    + rewrite (IH included Hnodup). split.
      * intros [Hin Hall]. split; [exact Hin|].
        intros s' [<-|Hs'] Hk; [exact Hread | now apply Hall].
      * intros [Hin Hall]. split; [exact Hin|]. intros s' Hs'. apply Hall. now right.
    + destruct (remove_first_spec s included Hnodup) as [Hnodup' Hin'].
      rewrite (IH _ Hnodup'), Hin'. split.
      * intros [[Hin Hne] Hall]. split; [exact Hin|].
        intros s' [<-|Hs'] Hk; [congruence | now apply Hall].
      * intros [Hin Hall]. split; [split; [exact Hin|] |].
        -- intros ->. specialize (Hall s (or_introl eq_refl) eq_refl). congruence.
        -- intros s' Hs'. apply Hall. now right.
Qed.

(** X17.  When each validation's schema row is stored under the key the
    validation holds, the schema-validation listing shows exactly the rows
    of the queryset on which the caller has object read permission, that is,
    the rows whose schema the caller may read. *)
Theorem schema_validation_listing_is_read_permission
    (request : Request) (queryset : list SchemaValidation.t) (q : SchemaValidation.t) :
  (forall q', In q' queryset ->
              rpk (schema_by_pk (SchemaValidation.schema q')) = SchemaValidation.schema q') ->
  (In q (filter_list_queryset schema_by_pk request queryset)
   <-> In q queryset /\ has_object_read_permission schema_by_pk q request = true).
Proof.
  intros Hkeys. unfold filter_list_queryset, has_object_read_permission.
  destruct (schema_set_spec queryset) as [Hnodup [Hfrom Hall]].
  rewrite filter_In, existsb_rpk_In, (removal_loop_spec request _ _ Hnodup).
  split.
  - intros [Hq [Hin Hreadable]]. split; [exact Hq|].
    apply in_map_iff in Hin. destruct Hin as [s [Hs Hs']].
    destruct (Hfrom s Hs') as [q' [Hq' ->]].
    rewrite (Hkeys q' Hq') in Hs.
    specialize (Hreadable (schema_by_pk (SchemaValidation.schema q')) Hs').
    rewrite (Hkeys q' Hq') in Hreadable. rewrite <- Hs. now apply Hreadable.
  - intros [Hq Hread]. split; [exact Hq|]. split.
    + rewrite <- (Hkeys q Hq) at 1. now apply Hall.
    + intros s Hs Hk. destruct (Hfrom s Hs) as [q' [Hq' ->]].
      rewrite (Hkeys q' Hq') in Hk. now rewrite Hk.
Qed.

End SchemaValidationListing.

(** Two validations, of an ANONYMOUS-level schema 8 and of a teamless
    LAB_MEMBER-level schema 9, listed for an anonymous caller: the first is
    shown. *)
Lemma schema_validation_listing_witness :
  let schema_by_pk := fun k =>
    {| ResourceModelPermissionsMixin.pk := k;
       ResourceModelPermissionsMixin.team := None;
       ResourceModelPermissionsMixin.delete_access_level := value TEAM_MEMBER;
       ResourceModelPermissionsMixin.edit_access_level := value TEAM_MEMBER;
       ResourceModelPermissionsMixin.read_access_level :=
         if Nat.eqb k 8 then value ANONYMOUS else value LAB_MEMBER |} in
  let row := fun k s =>
    {| SchemaValidation.pk := k; SchemaValidation.schema := s;
       SchemaValidation.content_type := Some "galv.models.models.Cell"%string;
       SchemaValidation.object_id := "c1"; SchemaValidation.status := VALID;
       SchemaValidation.detail := None |} in
  let request :=
    {| user := {| is_authenticated := false; is_staff := false; is_superuser := false;
                  groups := [] |} |} in
  In (row 1 8)
     (SchemaValidationFilterBackend.filter_list_queryset schema_by_pk request
        [row 1 8; row 2 9])
  <-> In (row 1 8) [row 1 8; row 2 9]
      /\ SchemaValidationFilterBackend.has_object_read_permission
           schema_by_pk (row 1 8) request = true.
Proof.
  intros schema_by_pk row request.
  apply (schema_validation_listing_is_read_permission schema_by_pk request
           [row 1 8; row 2 9] (row 1 8)).
  intros q' Hq'. reflexivity.
Defined.

(** ** What [validate] can and cannot do *)

Lemma dict_get_setitem_eq (key : string) (value : json) (members : list (string * json)) :
  dict_get key (dict_setitem key value members) = Some value.
Proof.
  induction members as [|[k v] rest IH]; cbn.
  - now rewrite String.eqb_refl.
  - destruct (String.eqb k key) eqn:Hk; cbn; rewrite Hk; [reflexivity | exact IH].
Qed.

Lemma dict_get_setitem_ne (key key' : string) (value : json)
    (members : list (string * json)) :
  key' <> key ->
  dict_get key' (dict_setitem key value members) = dict_get key' members.
Proof.
  intros Hne. induction members as [|[k v] rest IH]; cbn.
  - destruct (String.eqb_spec key key'); [congruence | reflexivity].
  - destruct (String.eqb_spec k key) as [->|Hk]; cbn.
    + destruct (String.eqb_spec key key'); [congruence | reflexivity].
    + destruct (String.eqb k key'); [reflexivity | exact IH].
Qed.

(** X18.  Without [halt_on_error], [validate] never raises, never leaves
    the status at UNCHECKED, and changes no field of the row but status and
    detail, which it leaves consistent: VALID with no detail, INVALID with
    the error tree, ERROR with a text, SKIPPED with whatever detail the row
    had.  With [halt_on_error], it raises only when a serializer was found
    and a later step failed (the serialisation, the assignment into a
    document that is no dict, or [jsonschema]), and then leaves the row
    untouched.  The
    schema's JSON document is another matter: once a serializer is found and
    the target is serialised, a document that is a dict comes out with its
    "type" set to "array" and its "items" set to the reference to the model
    class, its other members as they were, whatever [jsonschema] then does
    and whether or not the call raises; in every other case the document is
    left as it was. *)
Theorem validate_outcomes
    (galv_serializers : list SchemaValidation.module_attr)
    (serialize : SchemaValidation.module_attr -> SchemaValidation.t
                 -> SchemaValidation.serialized)
    (jsonschema_validate : json -> json -> SchemaValidation.run_end)
    (self : SchemaValidation.t) (document : json) :
  (exists self' document',
      SchemaValidation.validate galv_serializers serialize jsonschema_validate
        false self document
      = (SchemaValidation.Done self', document')
      /\ SchemaValidation.pk self' = SchemaValidation.pk self
      /\ SchemaValidation.schema self' = SchemaValidation.schema self
      /\ SchemaValidation.content_type self' = SchemaValidation.content_type self
      /\ SchemaValidation.object_id self' = SchemaValidation.object_id self
      /\ match SchemaValidation.status self' with
         | UNCHECKED => False
         | VALID => SchemaValidation.detail self' = None
         | INVALID =>
             exists tree, SchemaValidation.detail self' = Some (DetailErrorTree tree)
         | ERROR =>
             exists text,
               SchemaValidation.detail self' = Some (DetailText text)
               \/ SchemaValidation.detail self' = Some (DetailMessage text)
         | SKIPPED => SchemaValidation.detail self' = SchemaValidation.detail self
         end)
  /\ (forall e self' document',
         SchemaValidation.validate galv_serializers serialize jsonschema_validate
           true self document
         = (SchemaValidation.Raised e self', document') ->
         self' = self
         /\ exists serializer msg,
              SchemaValidation.find_serializer galv_serializers
                (SchemaValidation.content_type self) = Some serializer
              /\ e = OtherException msg
              /\ (serialize serializer self = SchemaValidation.SerializerCrashed msg
                  \/ exists data,
                       serialize serializer self = SchemaValidation.Serialized data
                       /\ ((forall members, document <> JObject members)
                           \/ exists d s,
                                jsonschema_validate d s
                                = SchemaValidation.Crashed msg)))
  /\ (forall halt_on_error serializer data members,
         SchemaValidation.find_serializer galv_serializers
           (SchemaValidation.content_type self) = Some serializer ->
         serialize serializer self = SchemaValidation.Serialized data ->
         document = JObject members ->
         exists c members',
           SchemaValidation.content_type self = Some c
           /\ snd (SchemaValidation.validate galv_serializers serialize
                     jsonschema_validate halt_on_error self document)
              = JObject members'
           /\ dict_get "type" members' = Some (JString "array")
           /\ dict_get "items" members'
              = Some (JObject [("$ref"%string,
                                JString (String.append "#/$defs/" (class_name c)))])
           /\ forall key, key <> "type"%string -> key <> "items"%string ->
                          dict_get key members' = dict_get key members)
  /\ (forall halt_on_error,
         (SchemaValidation.find_serializer galv_serializers
            (SchemaValidation.content_type self) = None
          \/ (exists serializer msg,
                 SchemaValidation.find_serializer galv_serializers
                   (SchemaValidation.content_type self) = Some serializer
                 /\ serialize serializer self = SchemaValidation.SerializerCrashed msg)
          \/ (forall members, document <> JObject members)) ->
         snd (SchemaValidation.validate galv_serializers serialize
                jsonschema_validate halt_on_error self document)
         = document).
Proof.
  assert (Hmodel : forall serializer,
             SchemaValidation.find_serializer galv_serializers
               (SchemaValidation.content_type self) = Some serializer ->
             exists c, SchemaValidation.content_type self = Some c).
  { intros serializer Hfound. unfold SchemaValidation.find_serializer in Hfound.
    apply find_some in Hfound. destruct Hfound as [_ Hdeclares].
    destruct (SchemaValidation.content_type self) as [c|]; [now exists c|].
    destruct serializer as [| |name [[m|]|]]; discriminate Hdeclares. }
  unfold SchemaValidation.validate, SchemaValidation.on_exception.
  destruct (SchemaValidation.find_serializer galv_serializers
              (SchemaValidation.content_type self)) as [serializer|] eqn:Hfound.
  2:{ split; [|split; [|split]].
      - eexists _, _. split; [reflexivity|]. cbn. repeat split.
        eexists. left. reflexivity.
      - intros e self' document' H. discriminate H.
      - intros halt_on_error serializer data members H. discriminate H.
      - reflexivity. }
  destruct (Hmodel serializer eq_refl) as [c Hc]. rewrite Hc.
  destruct (serialize serializer self) as [data|crash] eqn:Hdata.
  2:{ split; [|split; [|split]].
      - eexists _, _. split; [reflexivity|]. cbn. repeat split; try congruence.
        eexists. right. reflexivity.
      - intros e self' document' H. injection H as <- <- _.
        split; [reflexivity|]. exists serializer, crash.
        split; [first [reflexivity | assumption]|]. split; [reflexivity|].
        left. first [reflexivity | assumption].
      - intros halt_on_error serializer' data' members H1 H2.
        injection H1 as <-. congruence.
      - intros halt_on_error _. destruct halt_on_error; reflexivity. }
  destruct document as [| b | n | literal | text | items | members];
    cbn [setitem].
  7:{ set (members' :=
             dict_setitem "items"
               (JObject [("$ref"%string,
                          JString (String.append "#/$defs/" (class_name c)))])
               (dict_setitem "type" (JString "array") members)).
      set (d := match data with JArray _ => data | _ => JArray [data] end).
      assert (Hdoc : dict_get "type" members' = Some (JString "array")
                     /\ dict_get "items" members'
                        = Some (JObject [("$ref"%string,
                                          JString (String.append "#/$defs/"
                                                     (class_name c)))])
                     /\ forall key, key <> "type"%string -> key <> "items"%string ->
                                    dict_get key members' = dict_get key members).
      { unfold members'. split; [|split].
        - rewrite dict_get_setitem_ne by discriminate. apply dict_get_setitem_eq.
        - apply dict_get_setitem_eq.
        - intros key Htype Hitems. now rewrite !dict_get_setitem_ne. }
      split; [|split; [|split]].
      - destruct (jsonschema_validate d (JObject members')) as [|tree| |msg];
          eexists _, _; (split; [reflexivity|]); cbn; repeat split;
          try congruence;
          first [eexists; reflexivity | eexists; right; reflexivity].
      - intros e self' document'.
        destruct (jsonschema_validate d (JObject members')) as [|tree| |msg]
          eqn:Hrun; intros H; try discriminate H.
        injection H as <- <- _. split; [reflexivity|]. exists serializer, msg.
        split; [first [reflexivity | assumption]|]. split; [reflexivity|].
        right. exists data. split; [first [reflexivity | assumption]|]. right.
        exists d, (JObject members'). assumption.
      - intros halt_on_error serializer' data' members0 _ _ Hmembers.
        injection Hmembers as <-. exists c, members'.
        split; [first [exact Hc | reflexivity]|].
        split; [reflexivity | exact Hdoc].
      - intros halt_on_error [H|[[s' [msg [H1 H2]]]|H]].
        + discriminate H.
        + injection H1 as <-. congruence.
        + exfalso. now apply (H members). }
  all: split; [|split; [|split]].
  all: try (eexists _, _; (split; [reflexivity|]); cbn; repeat split;
            try congruence; eexists; right; reflexivity).
  all: try (intros e self' document' H; injection H as <- <- _;
            split; [reflexivity|]; eexists serializer, _;
            split; [first [reflexivity | assumption]|];
            split; [reflexivity|]; right; exists data;
            split; [first [reflexivity | assumption]|]; left; discriminate).
  all: try (intros halt_on_error serializer' data' members0 _ _ Hmembers;
            discriminate Hmembers).
  all: intros halt_on_error _; destruct halt_on_error; reflexivity.
Qed.

(** An INVALID row whose schema's references cannot be resolved this time:
    the status becomes SKIPPED and the old error tree stays in place, while
    the schema's document is rewritten. *)
Lemma validate_skipped_witness :
  let attrs :=
    [SchemaValidation.SerializerClass "CellSerializer"
       (Some (Some "galv.models.models.Cell"%string))] in
  let row :=
    {| SchemaValidation.pk := 3; SchemaValidation.schema := 8;
       SchemaValidation.content_type := Some "galv.models.models.Cell"%string;
       SchemaValidation.object_id := "c1";
       SchemaValidation.status := INVALID;
       SchemaValidation.detail := Some (DetailErrorTree "missing identifier") |} in
  exists c members',
    SchemaValidation.content_type row = Some c
    /\ snd (SchemaValidation.validate attrs
              (fun _ _ => SchemaValidation.Serialized (JObject []))
              (fun _ _ => SchemaValidation.ReferencingFailed)
              false row
              (JObject [("type"%string, JString "object")]))
       = JObject members'
    /\ dict_get "type" members' = Some (JString "array")
    /\ dict_get "items" members'
       = Some (JObject [("$ref"%string,
                         JString (String.append "#/$defs/" (class_name c)))])
    /\ forall key, key <> "type"%string -> key <> "items"%string ->
                   dict_get key members'
                   = dict_get key [("type"%string, JString "object")].
Proof.
  intros attrs row.
  apply (proj1 (proj2 (proj2 (validate_outcomes attrs
                                (fun _ _ => SchemaValidation.Serialized (JObject []))
                                (fun _ _ => SchemaValidation.ReferencingFailed)
                                row
                                (JObject [("type"%string, JString "object")]))))
           false
           (SchemaValidation.SerializerClass "CellSerializer"
              (Some (Some "galv.models.models.Cell"%string)))
           (JObject []) [("type"%string, JString "object")]);
    reflexivity.
Defined.

(** The same row and document, run: SKIPPED over the old error tree. *)
Example validate_skipped_keeps_detail :
  SchemaValidation.validate
    [SchemaValidation.SerializerClass "CellSerializer"
       (Some (Some "galv.models.models.Cell"%string))]
    (fun _ _ => SchemaValidation.Serialized (JObject []))
    (fun _ _ => SchemaValidation.ReferencingFailed)
    false
    {| SchemaValidation.pk := 3; SchemaValidation.schema := 8;
       SchemaValidation.content_type := Some "galv.models.models.Cell"%string;
       SchemaValidation.object_id := "c1";
       SchemaValidation.status := INVALID;
       SchemaValidation.detail := Some (DetailErrorTree "missing identifier") |}
    (JObject [("type"%string, JString "object")])
  = (SchemaValidation.Done
       {| SchemaValidation.pk := 3; SchemaValidation.schema := 8;
          SchemaValidation.content_type := Some "galv.models.models.Cell"%string;
          SchemaValidation.object_id := "c1";
          SchemaValidation.status := SKIPPED;
          SchemaValidation.detail := Some (DetailErrorTree "missing identifier") |},
     JObject [("type"%string, JString "array");
              ("items"%string, JObject [("$ref"%string, JString "#/$defs/Cell")])]).
Proof. reflexivity. Qed.

(** ** Activation when the clock outruns the expiry *)

(** X19.  When the test of [get_is_expired] finds every later clock reading
    expired against every earlier one (an expiry of zero on an advancing
    clock, for instance), [activate_user] on an inactive user whose token is
    expired never reports the expiry: whatever room the interpreter has, the
    call ends in [RecursionError]. *)
Theorem activate_user_never_settles_on_runaway_clock
    (now : nat -> Z) (get_random_string : nat -> string)
    (USER_ACTIVATION_TOKEN_EXPIRY_S : Z) (depth : nat) (w : UserActivation.world) :
  (forall j k, j < k ->
     UserActivation.older_than_expiry USER_ACTIVATION_TOKEN_EXPIRY_S (now k) (now j)
     = true) ->
  UserActivation.user_is_active w = false ->
  UserActivation.expired_in now USER_ACTIVATION_TOKEN_EXPIRY_S w = true ->
  UserActivation.raised
    (UserActivation.activate_user now get_random_string
       USER_ACTIVATION_TOKEN_EXPIRY_S depth w)
  = Some RecursionError.
Proof.
  intros Hrunaway Hinactive Hexpired.
  assert (Hsave : forall draws reads tok red row dbu,
             UserActivation.raised
               (UserActivation.save now get_random_string
                  USER_ACTIVATION_TOKEN_EXPIRY_S depth
                  {| UserActivation.self :=
                       {| UserActivation.token := tok;
                          UserActivation.token_update_date := Some (now reads);
                          UserActivation.redemption_date := red |};
                     UserActivation.user_is_active := false;
                     UserActivation.db_row := row;
                     UserActivation.db_user_is_active := dbu;
                     UserActivation.clock_reads := S reads;
                     UserActivation.tokens_drawn := draws |})
             = Some RecursionError).
  { intros. apply save_never_settles_on_runaway_clock; [exact Hrunaway | reflexivity |].
    right; right. exists reads. cbn. split; [lia | reflexivity]. }
  destruct w as [[tok stamp red] active row dbu reads draws].
  cbn in Hinactive. subst active.
  unfold UserActivation.expired_in in Hexpired. cbn in Hexpired.
  unfold UserActivation.activate_user, UserActivation.generate_token,
    UserActivation.generate_token_with, UserActivation.get_is_expired,
    UserActivation.bind, UserActivation.get, UserActivation.ret,
    UserActivation.modify, UserActivation.timezone_now, UserActivation.draw_token,
    UserActivation.with_self, UserActivation.set_token,
    UserActivation.set_token_update_date.
  cbn -[UserActivation.older_than_expiry UserActivation.save].
  destruct stamp as [stamp|]; cbn -[UserActivation.older_than_expiry UserActivation.save];
    [rewrite Hexpired; cbn -[UserActivation.save]|];
    match goal with
    | |- context [UserActivation.save ?a ?b ?c ?d ?w] =>
        assert (H : UserActivation.raised (UserActivation.save a b c d w)
                    = Some RecursionError) by apply Hsave;
        destruct (UserActivation.save a b c d w); cbn in H |- *;
        [discriminate H | exact H]
    end.
Qed.

(** An expiry of zero on the ticking clock, a new record, room for five
    activations. *)
Lemma activate_user_runaway_witness :
  UserActivation.raised
    (UserActivation.activate_user UserActivation.ticking_clock
       UserActivation.constant_token 0 5 UserActivation.fresh_world)
  = Some RecursionError.
Proof.
  apply activate_user_never_settles_on_runaway_clock.
  - intros j k Hjk.
    rewrite older_than_expiry_exact by (split; [lia | reflexivity]).
    apply Z.ltb_lt. unfold UserActivation.ticking_clock. lia.
  - reflexivity.
  - reflexivity.
Defined.

(** ** Provisioning of groups *)


















(** A second lab named "Oxford", and a first lab while a group named
    "Lab 0 admins" is left over: both saves are refused. *)
Example lab_save_refused :
  let oxford :=
    {| LabProvisioning.pk := Some 0; LabProvisioning.name := "Oxford";
       LabProvisioning.admin_group := Some 0 |} in
  LabProvisioning.save 2
    {| LabProvisioning.pk := None; LabProvisioning.name := "Oxford";
       LabProvisioning.admin_group := None |}
    {| LabProvisioning.lab_table := {[ 0 := oxford ]};
       LabProvisioning.group_table := {[ 0 := "Lab 0 admins"%string ]} |}
  = Raises IntegrityError
  /\ LabProvisioning.save 2
       {| LabProvisioning.pk := None; LabProvisioning.name := "Harwell";
          LabProvisioning.admin_group := None |}
       {| LabProvisioning.lab_table := ∅;
          LabProvisioning.group_table := {[ 5 := "Lab 0 admins"%string ]} |}
     = Raises IntegrityError.
Proof. vm_compute. split; reflexivity. Qed.

(** ** Listing users *)

Lemma NoDup_key_unique {A : Type} (key : A -> nat) (l : list A) (x y : A) :
  List.NoDup (map key l) -> In x l -> In y l -> key x = key y -> x = y.
Proof.
  induction l as [|z l IH]; cbn; intros Hnodup Hx Hy Hkey; [contradiction|].
  inversion Hnodup as [|? ? Hnotin Hrest]; subst.
  destruct Hx as [<-|Hx], Hy as [<-|Hy]; auto.
  - exfalso. apply Hnotin. rewrite Hkey. now apply in_map.
  - exfalso. apply Hnotin. rewrite <- Hkey. now apply in_map.
Qed.

(** X22.  Every user of the queryset that the caller may read is listed.
    For a caller who is neither staff nor superuser, and a queryset without
    repeated keys, the listing shows exactly the users the caller may
    read. *)
Theorem user_listing_is_read_permission
    (request : Caller) (queryset : list UserProxy) (u : UserProxy) :
  (In u queryset ->
   UserProxyAccess.has_object_read_permission u request = true ->
   In u (UserFilterBackend.filter_list_queryset request queryset))
  /\ (is_staff (caller_account request) = false ->
      is_superuser (caller_account request) = false ->
      List.NoDup (map user_pk queryset) ->
      (In u (UserFilterBackend.filter_list_queryset request queryset)
       <-> In u queryset
           /\ UserProxyAccess.has_object_read_permission u request = true)).
Proof.
  assert (Hread : UserProxyAccess.has_object_read_permission u request
                  = user_is_lab_admin (caller_account request)
                    || (is_caller u request
                        || existsb (fun lab => lab_in lab
                                      (user_labs (caller_account request) false))
                             (user_labs (account u) false))).
  { unfold UserProxyAccess.has_object_read_permission.
    destruct (is_caller u request), (user_is_lab_admin (caller_account request));
      reflexivity. }
  assert (Hto : In u queryset ->
                UserProxyAccess.has_object_read_permission u request = true ->
                In u (UserFilterBackend.filter_list_queryset request queryset)).
  { intros Hin Hr. unfold UserFilterBackend.filter_list_queryset.
    destruct (is_superuser (caller_account request)
              || is_staff (caller_account request)
              || user_is_lab_admin (caller_account request)) eqn:Hall; [exact Hin|].
    apply orb_false_iff in Hall. destruct Hall as [_ Hadmin].
    rewrite Hread, Hadmin in Hr. cbn [orb] in Hr.
    apply filter_In. split; [exact Hin|].
    apply existsb_exists. exists (user_pk u). split; [|apply Nat.eqb_refl].
    apply in_map. apply filter_In. split; [exact Hin | exact Hr]. }
  split; [exact Hto|].
  intros Hstaff Hsuper Hnodup. split; [|intros [Hin Hr]; now apply Hto].
  unfold UserFilterBackend.filter_list_queryset. rewrite Hstaff, Hsuper. cbn [orb].
  rewrite Hread.
  destruct (user_is_lab_admin (caller_account request)); [intros Hin; split; auto|].
  cbn [orb]. intros Hin. apply filter_In in Hin. destruct Hin as [Hin Hpk].
  split; [exact Hin|].
  apply existsb_exists in Hpk. destruct Hpk as [k [Hk Heq]].
  apply Nat.eqb_eq in Heq. subst k.
  apply in_map_iff in Hk. destruct Hk as [u' [Hpk' Hu']].
  apply filter_In in Hu'. destruct Hu' as [Hin' Htest].
  now rewrite (NoDup_key_unique user_pk queryset u u' Hnodup Hin Hin' (eq_sym Hpk')).
Qed.

(** Two members of teams of lab 9: each finds the other listed and may
    read the other. *)
Lemma user_listing_witness :
  let member := fun g t =>
    {| is_authenticated := true; is_staff := false; is_superuser := false;
       groups := [{| group_pk := g; editable_lab := None; editable_team := None;
                     readable_team :=
                       Some {| team_pk := t; team_lab := {| lab_pk := 9 |} |} |}] |} in
  let alice := {| user_pk := 1; account := member 4 6 |} in
  let bob := {| user_pk := 2; account := member 5 7 |} in
  let request := {| caller_pk := Some 1; caller_account := member 4 6 |} in
  In bob (UserFilterBackend.filter_list_queryset request [alice; bob])
  <-> In bob [alice; bob]
      /\ UserProxyAccess.has_object_read_permission bob request = true.
Proof.
  intros member alice bob request.
  apply (proj2 (user_listing_is_read_permission request [alice; bob] bob));
    try reflexivity.
  cbn. repeat constructor; cbn; intuition discriminate.
Defined.

(** ** Observed files *)

(** A loop whose tests all return finds a true test exactly when there is
    one. *)
Lemma any_in_order_returns {A : Type} (test : A -> result bool) (xs : list A) :
  (forall x, In x xs -> exists b, test x = Returns b) ->
  exists b, any_in_order test xs = Returns b
            /\ (b = true <-> exists x, In x xs /\ test x = Returns true).
Proof.
  induction xs as [|x xs IH]; intros Hall; cbn [any_in_order].
  - exists false. split; [reflexivity|]. split; [discriminate | intros [x [[] _]]].
  - destruct (Hall x (or_introl eq_refl)) as [[|] Hx]; rewrite Hx.
    + exists true. split; [reflexivity|]. split; [|reflexivity].
      intros _. exists x. split; [now left | exact Hx].
    + destruct IH as [b [Hb Hiff]]; [intros y Hy; apply Hall; now right|].
      exists b. split; [exact Hb|]. rewrite Hiff. split.
      * intros [y [Hy Hty]]. exists y. split; [now right | exact Hty].
      * intros [y [[<-|Hy] Hty]]; [congruence | exists y; auto].
Qed.

Section ObservedFileFacts.

Variable relpath : string -> string -> option string.
Variable re_search : string -> string -> option bool.
Variable all_files : list ObservedFile.t.
Variable all_paths : list MonitoredPathRow.

Local Abbreviation matches := (matches relpath re_search).

Lemma file_ids_returns (files : list ObservedFile.t) (paths : list MonitoredPathRow) :
  (forall f p, In f files -> In p paths ->
               exists b, same_harvester_and_matches relpath re_search f p = Returns b) ->
  exists ids,
    file_ids relpath re_search files paths = Returns ids
    /\ forall k, In k ids
                 <-> exists f p, In f files /\ ObservedFile.pk f = k /\ In p paths
                       /\ same_harvester_and_matches relpath re_search f p
                          = Returns true.
Proof.
  induction files as [|f files IH]; intros Hall; cbn [file_ids].
  - exists []. split; [reflexivity|]. intros k. split; [contradiction|].
    intros [f [p [[] _]]].
  - destruct (any_in_order_returns
                (same_harvester_and_matches relpath re_search f) paths)
      as [found [Hfound Hiff]].
    { intros p Hp. apply Hall; [now left | exact Hp]. }
    destruct IH as [ids [Hids Hin]].
    { intros f' p Hf' Hp. apply Hall; [now right | exact Hp]. }
    rewrite Hfound, Hids. eexists. split; [reflexivity|].
    intros k. destruct found.
    + cbn. rewrite Hin. split.
      * intros [<-|[f' [p [Hf' Hrest]]]].
        -- destruct (proj1 Hiff eq_refl) as [p [Hp Htest]]. exists f, p. auto.
        -- exists f', p. split; [now right | exact Hrest].
      * intros [f' [p [[<-|Hf'] [Hpk [Hp Htest]]]]]; [now left|].
        right. exists f', p. auto.
    + rewrite Hin. split.
      * intros [f' [p [Hf' Hrest]]]. exists f', p. split; [now right | exact Hrest].
      * intros [f' [p [[<-|Hf'] [Hpk [Hp Htest]]]]].
        -- assert (Hcontra : false = true) by (apply Hiff; exists p; auto).
           discriminate Hcontra.
        -- exists f', p. auto.
Qed.

(** X23.  When no pattern of a monitored path fails on a file of the same
    harvester, the observed-file listing returns, and it shows exactly the
    rows of the queryset whose key is that of a file on a harvester of one
    of the caller's labs for which some monitored path of one of the
    caller's teams is on the same harvester and matches the file's path.  A
    path on another harvester never shows a file, whatever its pattern. *)
Theorem observed_file_listing_rule (request : Request) (queryset : list ObservedFile.t) :
  (forall f p, In f all_files -> In p all_paths ->
               monitored_harvester p = Harvester.uuid (ObservedFile.harvester f) ->
               exists b, matches p (ObservedFile.path f) = Returns b) ->
  exists rows,
    observed_file_filter_list_queryset relpath re_search all_files all_paths
      request queryset
    = Returns rows
    /\ forall row,
         In row rows
         <-> In row queryset
             /\ exists f p t,
                  In f all_files /\ ObservedFile.pk f = ObservedFile.pk row
                  /\ in_lab (user request) (Harvester.lab (ObservedFile.harvester f))
                  /\ In p all_paths /\ monitored_team p = Some t
                  /\ on_team (user request) t
                  /\ monitored_harvester p = Harvester.uuid (ObservedFile.harvester f)
                  /\ matches p (ObservedFile.path f) = Returns true.
Proof.
  intros Hall. unfold observed_file_filter_list_queryset.
  assert (Htest : forall f p,
             same_harvester_and_matches relpath re_search f p = Returns true
             <-> monitored_harvester p = Harvester.uuid (ObservedFile.harvester f)
                 /\ matches p (ObservedFile.path f) = Returns true).
  { intros f p. unfold same_harvester_and_matches.
    destruct (Nat.eqb_spec (monitored_harvester p)
                (Harvester.uuid (ObservedFile.harvester f))) as [Heq|Hne].
    - tauto.
    - split; [discriminate | tauto]. }
  destruct (file_ids_returns (visible_files all_files request)
              (visible_paths all_paths request)) as [ids [Hids Hin]].
  { intros f p Hf Hp. unfold same_harvester_and_matches.
    apply filter_In in Hf. apply filter_In in Hp.
    destruct (Nat.eqb_spec (monitored_harvester p)
                (Harvester.uuid (ObservedFile.harvester f))) as [Heq|Hne].
    - apply Hall; tauto.
    - eexists; reflexivity. }
  rewrite Hids. eexists. split; [reflexivity|].
  intros row. rewrite filter_In. apply and_iff_compat_l.
  rewrite existsb_exists. split.
  - intros [k [Hk Heq]]. apply Nat.eqb_eq in Heq. subst k.
    apply Hin in Hk. destruct Hk as [f [p [Hf [Hpk [Hp Hmatch]]]]].
    apply filter_In in Hf. destruct Hf as [Hf Hlab].
    apply filter_In in Hp. destruct Hp as [Hp Hteam].
    destruct (monitored_team p) as [t|] eqn:Ht; [|discriminate Hteam].
    apply Htest in Hmatch. destruct Hmatch as [Hharv Hmatch].
    exists f, p, t. repeat split; auto.
    + now apply lab_in_user_labs.
    + now apply team_in_user_teams.
  - intros [f [p [t [Hf [Hpk [Hlab [Hp [Ht [Hon [Hharv Hmatch]]]]]]]]]].
    exists (ObservedFile.pk row). split; [|apply Nat.eqb_refl].
    apply Hin. exists f, p. split; [|split; [exact Hpk|split]].
    + apply filter_In. split; [exact Hf|]. now apply lab_in_user_labs.
    + apply filter_In. split; [exact Hp|]. rewrite Ht. now apply team_in_user_teams.
    + apply Htest. auto.
Qed.

(** X24.  A request made under a harvester's identity has object read (and
    write) permission on exactly the files of that harvester, and the check
    never evaluates a monitored path's pattern. *)
Theorem harvester_reads_its_own_files
    (h : Harvester.t) (header : option pystr) (file : ObservedFile.t) :
  observed_file_has_object_read_permission relpath re_search all_paths file
    {| api_user := HarvesterUser h; HTTP_AUTHORIZATION := header |}
  = Returns (Nat.eqb (Harvester.uuid h) (Harvester.uuid (ObservedFile.harvester file)))
  /\ observed_file_has_object_write_permission relpath re_search all_paths file
       {| api_user := HarvesterUser h; HTTP_AUTHORIZATION := header |}
     = Returns (Nat.eqb (Harvester.uuid h) (Harvester.uuid (ObservedFile.harvester file))).
Proof.
  unfold observed_file_has_object_write_permission,
    observed_file_has_object_read_permission, HarvesterAccess.is_valid_harvester.
  cbn. destruct (Nat.eqb _ _); split; reflexivity.
Qed.

(** X25.  For a Django user, when no pattern of a monitored path fails on
    the file, object read permission on a file holds exactly when one of
    the user's teams belongs to the lab of the file's harvester and has a
    monitored path that matches the file's path; which harvester that path
    is on plays no part. *)
Theorem observed_file_read_rule
    (u : User) (header : option pystr) (file : ObservedFile.t) :
  (forall p, In p all_paths -> exists b, matches p (ObservedFile.path file) = Returns b) ->
  exists b,
    observed_file_has_object_read_permission relpath re_search all_paths file
      {| api_user := DjangoUser u; HTTP_AUTHORIZATION := header |}
    = Returns b
    /\ (b = true
        <-> exists t p,
              In t (user_teams u false)
              /\ lab_pk (team_lab t)
                 = lab_pk (Harvester.lab (ObservedFile.harvester file))
              /\ In p all_paths
              /\ (exists t', monitored_team p = Some t' /\ team_pk t' = team_pk t)
              /\ matches p (ObservedFile.path file) = Returns true).
Proof.
  intros Hall. unfold observed_file_has_object_read_permission.
  cbn [HarvesterAccess.is_valid_harvester api_user as_user].
  set (teams := List.filter _ (user_teams u false)).
  destruct (any_in_order_returns
              (fun team =>
                 any_in_order (fun p => matches p (ObservedFile.path file))
                   (team_monitored_paths all_paths team))
              teams) as [b [Hb Hiff]].
  { intros t _.
    destruct (any_in_order_returns
                (fun p => matches p (ObservedFile.path file))
                (team_monitored_paths all_paths t)) as [b [Hb _]].
    - intros p Hp. apply filter_In in Hp. apply Hall. tauto.
    - exists b. exact Hb. }
  exists b. split; [exact Hb|]. rewrite Hiff. clear Hiff Hb.
  assert (Hinner : forall t,
             any_in_order (fun p => matches p (ObservedFile.path file))
               (team_monitored_paths all_paths t) = Returns true
             <-> exists p, In p (team_monitored_paths all_paths t)
                           /\ matches p (ObservedFile.path file) = Returns true).
  { intros t.
    destruct (any_in_order_returns
                (fun p => matches p (ObservedFile.path file))
                (team_monitored_paths all_paths t)) as [b' [Hb' Hiff']].
    - intros p Hp. apply filter_In in Hp. apply Hall. tauto.
    - rewrite Hb', <- Hiff'. split; [intros H; now injection H | intros ->; reflexivity]. }
  split.
  - intros [t [Ht Hfound]]. apply Hinner in Hfound. destruct Hfound as [p [Hp Hmatch]].
    unfold teams in Ht. apply filter_In in Ht. destruct Ht as [Ht Hlab].
    apply filter_In in Hp. destruct Hp as [Hp Hteam].
    destruct (monitored_team p) as [t'|] eqn:Ht'; [|discriminate Hteam].
    exists t, p. repeat split; auto.
    + unfold lab_eqb in Hlab. now apply Nat.eqb_eq in Hlab.
    + exists t'. split; [exact Ht'|]. unfold team_eqb in Hteam.
      now apply Nat.eqb_eq in Hteam.
  - intros [t [p [Ht [Hlab [Hp [[t' [Ht' Hpk]] Hmatch]]]]]].
    exists t. split.
    + unfold teams. apply filter_In. split; [exact Ht|].
      unfold lab_eqb. now apply Nat.eqb_eq.
    + apply Hinner. exists p. split; [|exact Hmatch].
      apply filter_In. split; [exact Hp|]. rewrite Ht'.
      unfold team_eqb. now apply Nat.eqb_eq.
Qed.

End ObservedFileFacts.

Lemma observed_file_listing_witness :
  let lab1 := {| lab_pk := 9 |} in
  let team1 := {| team_pk := 6; team_lab := lab1 |} in
  let request :=
    {| user := {| is_authenticated := true; is_staff := false; is_superuser := false;
                  groups := [{| group_pk := 4; editable_lab := None;
                                editable_team := None;
                                readable_team := Some team1 |}] |} |} in
  let harvester1 :=
    {| Harvester.uuid := 5; Harvester.name := "h"; Harvester.api_key := None;
       Harvester.sleep_time := 10%Z; Harvester.active := true;
       Harvester.lab := lab1 |} in
  let file1 :=
    {| ObservedFile.pk := 1; ObservedFile.path := "/data/lab1/run3/file.csv";
       ObservedFile.harvester := harvester1 |} in
  let path1 :=
    {| monitored_harvester := 5; monitored_path := "/data/lab1";
       monitored_regex := Some ".*\.csv$"%string; monitored_team := Some team1 |} in
  exists rows,
    observed_file_filter_list_queryset (PosixPath.relpath "/") PyRe.search
      [file1] [path1] request [file1]
    = Returns rows.
Proof.
  intros lab1 team1 request harvester1 file1 path1.
  destruct (observed_file_listing_rule (PosixPath.relpath "/") PyRe.search
              [file1] [path1] request [file1]) as [rows [Hrows _]].
  - intros f p [<-|[]] [<-|[]] _. eexists. vm_compute. reflexivity.
  - exists rows. exact Hrows.
Defined.

Lemma observed_file_read_witness :
  let lab1 := {| lab_pk := 9 |} in
  let team1 := {| team_pk := 6; team_lab := lab1 |} in
  let u :=
    {| is_authenticated := true; is_staff := false; is_superuser := false;
       groups := [{| group_pk := 4; editable_lab := None; editable_team := None;
                     readable_team := Some team1 |}] |} in
  let harvester1 :=
    {| Harvester.uuid := 5; Harvester.name := "h"; Harvester.api_key := None;
       Harvester.sleep_time := 10%Z; Harvester.active := true;
       Harvester.lab := lab1 |} in
  let file1 :=
    {| ObservedFile.pk := 1; ObservedFile.path := "/data/lab1/run3/file.csv";
       ObservedFile.harvester := harvester1 |} in
  let other_harvester_path :=
    {| monitored_harvester := 8; monitored_path := "/data/lab1";
       monitored_regex := None; monitored_team := Some team1 |} in
  exists b,
    observed_file_has_object_read_permission (PosixPath.relpath "/") PyRe.search
      [other_harvester_path] file1
      {| api_user := DjangoUser u; HTTP_AUTHORIZATION := None |}
    = Returns b.
Proof.
  intros lab1 team1 u harvester1 file1 other_harvester_path.
  destruct (observed_file_read_rule (PosixPath.relpath "/") PyRe.search
              [other_harvester_path] u None file1) as [b [Hb _]].
  - intros p [<-|[]]. eexists. vm_compute. reflexivity.
  - exists b. exact Hb.
Defined.

(** A monitored path on another harvester gives a team member object read
    permission on a file, while the listing leaves the file out. *)
Example observed_file_readable_but_not_listed :
  let lab1 := {| lab_pk := 9 |} in
  let team1 := {| team_pk := 6; team_lab := lab1 |} in
  let u :=
    {| is_authenticated := true; is_staff := false; is_superuser := false;
       groups := [{| group_pk := 4; editable_lab := None; editable_team := None;
                     readable_team := Some team1 |}] |} in
  let harvester1 :=
    {| Harvester.uuid := 5; Harvester.name := "h"; Harvester.api_key := None;
       Harvester.sleep_time := 10%Z; Harvester.active := true;
       Harvester.lab := lab1 |} in
  let file1 :=
    {| ObservedFile.pk := 1; ObservedFile.path := "/data/lab1/run3/file.csv";
       ObservedFile.harvester := harvester1 |} in
  let other_harvester_path :=
    {| monitored_harvester := 8; monitored_path := "/data/lab1";
       monitored_regex := None; monitored_team := Some team1 |} in
  observed_file_has_object_read_permission (PosixPath.relpath "/") PyRe.search
    [other_harvester_path] file1
    {| api_user := DjangoUser u; HTTP_AUTHORIZATION := None |}
  = Returns true
  /\ observed_file_filter_list_queryset (PosixPath.relpath "/") PyRe.search
       [file1] [other_harvester_path] {| user := u |} [file1]
     = Returns [].
Proof. split; vm_compute; reflexivity. Qed.
